(** * LRCLIBup: the synced-lyrics integrity engine

    A shallow embedding of [src/lib/lrcValidator.ts], of the LRC
    normalization module (normalizeLRC, extractPlainLyrics,
    normalizeTimestamp, sortLRCLines, normalizeAndSortLRC) and of the
    pre-submit check and the auto-fix handler of [src/routes/+page.svelte]
    and of the issue grouping of the validation banner, with the
    properties of the specification stated and settled against them and
    further properties of the code proved after them.

    JavaScript strings are sequences of UTF-16 code units; a code unit
    is modelled as an [N] and a string as a list of code units, so that
    [trim], [split], [substring] and [length] count what the source
    counts. *)

From Stdlib Require Import Ascii String DecimalString DecimalPos.
From Stdlib Require Import ZArith NArith List Bool Lia Sorted.
From stdpp Require Import gmap.
Import ListNotations.

Local Open Scope list_scope.
Local Open Scope bool_scope.

(** ** Strings as lists of UTF-16 code units *)

Definition char : Type := N.
Definition str : Type := list char.

(** The code unit of an ASCII character, for readable character tests. *)
Definition ch (a : ascii) : char := N_of_ascii a.
Arguments ch : simpl never.

(** A string literal as a list of code units. *)
Definition lit (s : string) : str := map ch (list_ascii_of_string s).

Definition char_eqb (a b : char) : bool := N.eqb a b.

(** [\d] without the unicode flag: the ten ASCII digits. *)
Definition isDigit (c : char) : bool := (48 <=? c)%N && (c <=? 57)%N.

(** ECMAScript LineTerminator: LF, CR, LS, PS. The regex [.] matches any
    code unit that is not one of these. *)
Definition isLineTerminator (c : char) : bool :=
  (char_eqb c 10 || char_eqb c 13 || char_eqb c 8232 || char_eqb c 8233)%N.

(** What [String.prototype.trim] strips: WhiteSpace and LineTerminator. *)
Definition isWhite (c : char) : bool :=
  ((9 <=? c) && (c <=? 13) || char_eqb c 32 || char_eqb c 160
   || char_eqb c 5760 || (8192 <=? c) && (c <=? 8202)
   || char_eqb c 8232 || char_eqb c 8233 || char_eqb c 8239
   || char_eqb c 8287 || char_eqb c 12288 || char_eqb c 65279)%N.

Fixpoint trimStart (s : str) : str :=
  match s with
  | [] => []
  | c :: s' => if isWhite c then trimStart s' else s
  end.

Definition trimEnd (s : str) : str := rev (trimStart (rev s)).

(** [s.trim()] *)
Definition trim (s : str) : str := trimEnd (trimStart s).

(** [s.split("\n")]: never the empty list; the empty string gives one
    empty line. *)
Fixpoint split_nl (s : str) : list str :=
  match s with
  | [] => [[]]
  | c :: s' =>
      if char_eqb c 10%N then [] :: split_nl s'
      else match split_nl s' with
           | l :: ls => (c :: l) :: ls
           | [] => [[c]]
           end
  end.

(** [lines.join("\n")] *)
Fixpoint join_nl (ls : list str) : str :=
  match ls with
  | [] => []
  | [l] => l
  | l :: ls' => l ++ 10%N :: join_nl ls'
  end.

(** [s.substring(start)] for an integer [start]: clamped to [0, length]. *)
Definition substring_from (s : str) (start : Z) : str :=
  skipn (Z.to_nat (Z.max 0 start)) s.

(** [s.substring(0, n)] *)
Definition substring_to (s : str) (n : nat) : str := firstn n s.

Fixpoint isPrefixOf (t s : str) : bool :=
  match t, s with
  | [], _ => true
  | x :: t', y :: s' => char_eqb x y && isPrefixOf t' s'
  | _ :: _, [] => false
  end.

(** The greatest index at which [t] occurs in the text starting at index
    [i], if any. *)
Fixpoint lastIndexFrom (t s : str) (i : nat) : option nat :=
  match s with
  | [] => if isPrefixOf t [] then Some i else None
  | _ :: s' =>
      match lastIndexFrom t s' (S i) with
      | Some j => Some j
      | None => if isPrefixOf t s then Some i else None
      end
  end.

(** [s.lastIndexOf(t)]: the last occurrence, or -1. *)
Definition lastIndexOf (s t : str) : Z :=
  match lastIndexFrom t s 0 with
  | Some j => Z.of_nat j
  | None => (-1)%Z
  end.

(** [parseInt] on a string of decimal digits. *)
Definition digitVal (c : char) : Z := Z.of_N (c - 48).

Definition parseInt (s : str) : Z :=
  fold_left (fun acc c => (acc * 10 + digitVal c)%Z) s 0%Z.

(** [n.toString()] for a non-negative integer. *)
Definition toString (n : Z) : str :=
  lit (NilEmpty.string_of_uint (N.to_uint (Z.to_N n))).

(** [s.padStart(n, "0")] *)
Definition padStart0 (n : nat) (s : str) : str :=
  repeat (ch "0") (n - length s) ++ s.

(** [Math.round(n / d)] for integers [0 <= n], [0 < d]: the quotient is
    rounded to the nearest integer, halves upwards. *)
Definition roundDiv (n d : Z) : Z := ((2 * n + d) / (2 * d))%Z.

(** ** The timestamp token [\[(\d{2}):(\d{2})\.(\d{2,3})\]] *)

(** A regular expression that is a sequence of character classes, matched
    at the head of the text. *)
Definition charClass : Type := char -> bool.

Definition exactly (a : ascii) : charClass := fun c => char_eqb c (ch a).

Fixpoint matchSeq (p : list charClass) (s : str) : bool :=
  match p, s with
  | [], _ => true
  | f :: p', c :: s' => f c && matchSeq p' s'
  | _ :: _, [] => false
  end.

(** [s.substring(a, b)] for [a <= b]. *)
Definition slice (a b : nat) (s : str) : str := firstn (b - a) (skipn a s).

(** The token pattern with the quantifier [{2,3}] fixed at [n] digits. *)
Definition tsPattern (n : nat) : list charClass :=
  [exactly "["; isDigit; isDigit; exactly ":"; isDigit; isDigit; exactly "."]
  ++ repeat isDigit n ++ [exactly "]"].

(** A match: the matched text [match[0]] and the three capture groups. *)
Record tsMatch : Type := mkTs {
  ts_text : str;
  ts_minutes : str;
  ts_seconds : str;
  ts_millis : str
}.

(** The pattern matched at the head of [s]. The quantifier is greedy:
    three digits are tried before two. *)
Definition matchTimestamp (s : str) : option tsMatch :=
  if matchSeq (tsPattern 3) s
  then Some (mkTs (slice 0 11 s) (slice 1 3 s) (slice 4 6 s) (slice 7 10 s))
  else if matchSeq (tsPattern 2) s
  then Some (mkTs (slice 0 10 s) (slice 1 3 s) (slice 4 6 s) (slice 7 9 s))
  else None.

(** An unanchored, non-global [s.match(re)]: the leftmost match. *)
Fixpoint searchTimestamp (s : str) : option tsMatch :=
  match matchTimestamp s with
  | Some m => Some m
  | None => match s with
            | [] => None
            | _ :: s' => searchTimestamp s'
            end
  end.

(** A global scan ([exec] in a loop, [matchAll]) with a matcher [re] for
    the pattern at the head of the text: the matches with their start
    index, leftmost first, none overlapping. [skip] is the distance from
    the current index to the regex's [lastIndex]. *)
Fixpoint scanFrom (re : str -> option str) (skip pos : nat) (s : str)
  : list (nat * str) :=
  match s with
  | [] => []
  | _ :: s' =>
      match skip with
      | S k => scanFrom re k (S pos) s'
      | O =>
          match re s with
          | Some tok => (pos, tok) :: scanFrom re (length tok - 1) (S pos) s'
          | None => scanFrom re 0 (S pos) s'
          end
      end
  end.

Definition timestampAt (s : str) : option str :=
  option_map ts_text (matchTimestamp s).

(** All bracket timestamp tokens of a line, with their positions. *)
Definition scanTimestamps (s : str) : list (nat * str) :=
  scanFrom timestampAt 0 0 s.

(** The metadata pattern [/^\[(ti|ar|al|length|offset):/i]. *)
Definition char_eqb_ci (c : char) (a : ascii) : bool :=
  let p := ch a in
  (char_eqb c p || ((97 <=? p) && (p <=? 122)) && char_eqb c (p - 32))%N.

Fixpoint isPrefixOf_ci (t : list ascii) (s : str) : bool :=
  match t, s with
  | [], _ => true
  | a :: t', c :: s' => char_eqb_ci c a && isPrefixOf_ci t' s'
  | _ :: _, [] => false
  end.

Definition isMetadata (s : str) : bool :=
  existsb (fun tag => isPrefixOf_ci (list_ascii_of_string tag) s)
    ["[ti:"; "[ar:"; "[al:"; "[length:"; "[offset:"]%string.

Definition isEmpty (s : str) : bool :=
  match s with
  | [] => true
  | _ :: _ => false
  end.

Definition hasNoLineTerminator (s : str) : bool :=
  forallb (fun c => negb (isLineTerminator c)) s.

(** ** The normalization module (normalizeLRC and its helpers) *)

Module LrcNormalizer.

(** [normalizeTimestamp]: the token re-emitted with a two-digit fraction. *)
Definition normalizeTimestamp (timestamp : str) : str :=
  match searchTimestamp timestamp with
  | None => timestamp
  | Some m =>
      let ms :=
        if Nat.eqb (length (ts_millis m)) 3
        then padStart0 2 (toString (roundDiv (parseInt (ts_millis m)) 10))
        else padStart0 2 (ts_millis m) in
      ch "[" :: ts_minutes m ++ ch ":" :: ts_seconds m ++ ch "." :: ms
      ++ [ch "]"]
  end.

(** The sort key computed inside [sortLRCLines] for a trimmed line. *)
Definition sortKey (trimmed : str) : option Z :=
  match matchTimestamp trimmed with
  | None => None
  | Some m =>
      Some (parseInt (ts_minutes m) * 60000 + parseInt (ts_seconds m) * 1000
            + parseInt (ts_millis m) * 10)%Z
  end.


Record NormalizationResult : Type := mkNormalizationResult {
  normalized : str;
  plainLyrics : str;
  changes : nat;
  expandedLines : nat
}.

(** The anchored line pattern (a token at the start, then any run of
    non-terminator code units up to the end of the string): its last
    capture group, the text after the token. *)
Definition matchTimedLine (s : str) : option str :=
  match matchTimestamp s with
  | Some m =>
      let rest := skipn (length (ts_text m)) s in
      if hasNoLineTerminator rest then Some rest else None
  | None => None
  end.

(** The body of the [forEach] of [extractPlainLyrics], on the array
    [plainLines]. *)
Definition extractStep (plainLines : list str) (line : str) : list str :=
  let trimmed := trim line in
  if isEmpty trimmed then plainLines
  else if isMetadata trimmed then plainLines
  else match matchTimedLine trimmed with
       | Some g =>
           let lyrics := trim g in
           if isEmpty lyrics then plainLines else plainLines ++ [lyrics]
       | None => plainLines
       end.

Definition extractPlainLyrics (syncedLyrics : str) : str :=
  join_nl (fold_left extractStep (split_nl syncedLyrics) []).

(** The variables the [forEach] of [normalizeLRC] updates. *)
Record NormState : Type := mkNormState {
  normalizedLines : list str;
  changesCount : nat;
  expandedLinesCount : nat
}.

Definition pushLine (st : NormState) (l : str) : NormState :=
  mkNormState (normalizedLines st ++ [l]) (changesCount st)
              (expandedLinesCount st).

(** The inner [timestamps.forEach]. *)
Definition expandStep (lyricsText : str) (st : NormState) (timestamp : str)
  : NormState :=
  mkNormState
    (normalizedLines st ++ [normalizeTimestamp timestamp ++ lyricsText])
    (changesCount st)
    (S (expandedLinesCount st)).

(** The body of the outer [lines.forEach]. *)
Definition normalizeStep (st : NormState) (rawLine : str) : NormState :=
  let line := trim rawLine in
  if isEmpty line || isMetadata line then pushLine st line
  else
    let timestamps := map snd (scanTimestamps line) in
    if length timestamps <=? 1 then pushLine st line
    else
      let st1 := mkNormState (normalizedLines st) (S (changesCount st))
                             (expandedLinesCount st) in
      let lastTimestamp := List.last timestamps [] in
      let lastTimestampIndex := lastIndexOf line lastTimestamp in
      let lyricsText :=
        substring_from line
          (lastTimestampIndex + Z.of_nat (length lastTimestamp))%Z in
      fold_left (expandStep lyricsText) timestamps st1.

Definition normalizeLines (lines : list str) : NormState :=
  fold_left normalizeStep lines (mkNormState [] 0 0).

Definition normalizeLRC (content : str) : NormalizationResult :=
  let st := normalizeLines (split_nl content) in
  let normalized := join_nl (normalizedLines st) in
  mkNormalizationResult normalized (extractPlainLyrics normalized)
    (changesCount st) (expandedLinesCount st).

(** ** Sorter *)

Record SortState : Type := mkSortState {
  metadataLines : list str;
  timedLines : list (Z * str);
  otherLines : list str
}.

Definition sortStep (st : SortState) (line : str) : SortState :=
  let trimmed := trim line in
  if isMetadata trimmed
  then mkSortState (metadataLines st ++ [trimmed]) (timedLines st)
                   (otherLines st)
  else match sortKey trimmed with
       | Some timeInMs =>
           mkSortState (metadataLines st)
                       (timedLines st ++ [(timeInMs, trimmed)])
                       (otherLines st)
       | None =>
           if isEmpty trimmed then st
           else mkSortState (metadataLines st) (timedLines st)
                            (otherLines st ++ [trimmed])
       end.

(** [Array.prototype.sort] with the comparator [a.timestamp - b.timestamp]
    is a stable sort by timestamp; a stable sort has one result, computed
    here by insertion. *)
Fixpoint insertTimed (x : Z * str) (l : list (Z * str)) : list (Z * str) :=
  match l with
  | [] => [x]
  | y :: l' =>
      if (fst x <=? fst y)%Z then x :: l else y :: insertTimed x l'
  end.

Definition sortTimed (l : list (Z * str)) : list (Z * str) :=
  fold_right insertTimed [] l.

Definition sortLRCLines (content : str) : str :=
  let st := fold_left sortStep (split_nl content) (mkSortState [] [] []) in
  join_nl (metadataLines st ++ map snd (sortTimed (timedLines st))
           ++ otherLines st).

Definition normalizeAndSortLRC (content : str) : NormalizationResult :=
  let normalizeResult := normalizeLRC content in
  let sorted := sortLRCLines (normalized normalizeResult) in
  mkNormalizationResult sorted (extractPlainLyrics sorted)
    (changes normalizeResult) (expandedLines normalizeResult).

End LrcNormalizer.

(** ** lrcValidator.ts *)

Module LrcValidator.

Inductive IssueType : Type :=
  | MultiTimestamp
  | InvalidFormat
  | InvalidTimestamp
  | OutOfOrder
  | NegativeTimestamp
  | DuplicateTimestamp
  | ExcessiveGap
  | TimestampOverlap
  | NoTimestamps
  | ElrcWordTiming.

Inductive Severity : Type := Warning | Error.

Definition IssueType_eqb (a b : IssueType) : bool :=
  match a, b with
  | MultiTimestamp, MultiTimestamp | InvalidFormat, InvalidFormat
  | InvalidTimestamp, InvalidTimestamp | OutOfOrder, OutOfOrder
  | NegativeTimestamp, NegativeTimestamp
  | DuplicateTimestamp, DuplicateTimestamp | ExcessiveGap, ExcessiveGap
  | TimestampOverlap, TimestampOverlap | NoTimestamps, NoTimestamps
  | ElrcWordTiming, ElrcWordTiming => true
  | _, _ => false
  end.

Definition Severity_eqb (a b : Severity) : bool :=
  match a, b with
  | Warning, Warning | Error, Error => true
  | _, _ => false
  end.

Record LRCValidationIssue : Type := mkIssue {
  line : nat;
  type : IssueType;
  severity : Severity;
  message : str;
  raw : str;
  timestamps : option (list str);
  suggestion : option str
}.

Record LRCValidationResult : Type := mkResult {
  isValid : bool;
  issues : list LRCValidationIssue;
  hasMultiTimestamps : bool;
  hasELRC : bool;
  hasErrors : bool;
  hasWarnings : bool;
  totalLines : nat;
  affectedLines : nat;
  issuesByType : IssueType -> nat
}.

(** An entry of the [timedLines] array of [validateLRC]. *)
Record TimedLine : Type := mkTimed {
  tl_timestamp : Z;
  tl_line : nat;
  tl_raw : str
}.

(** [PATTERNS.ELRC_WORD_TIMING] with its quantifiers fixed at [m] digits
    of minutes and [n] digits of fraction. *)
Definition elrcPattern (m n : nat) : list charClass :=
  [exactly "<"] ++ repeat isDigit m ++ [exactly ":"; isDigit; isDigit; exactly "."]
  ++ repeat isDigit n ++ [exactly ">"].

(** The pattern at the head of [s], the greedy choices first; the result
    is the matched text. *)
Definition matchElrc (s : str) : option str :=
  if matchSeq (elrcPattern 2 3) s then Some (slice 0 11 s)
  else if matchSeq (elrcPattern 2 2) s then Some (slice 0 10 s)
  else if matchSeq (elrcPattern 1 3) s then Some (slice 0 10 s)
  else if matchSeq (elrcPattern 1 2) s then Some (slice 0 9 s)
  else None.

(** [PATTERNS.SINGLE_TIMESTAMP.test(line)] *)
Definition testSingleTimestamp (s : str) : bool :=
  match matchTimestamp s with
  | Some m => hasNoLineTerminator (skipn (length (ts_text m)) s)
  | None => false
  end.

(** [parseTimestampToMs] *)
Definition parseTimestampToMs (timestamp : str) : option Z :=
  match searchTimestamp timestamp with
  | None => None
  | Some m =>
      let ms :=
        if Nat.eqb (length (ts_millis m)) 3
        then roundDiv (parseInt (ts_millis m)) 10
        else parseInt (ts_millis m) in
      Some (parseInt (ts_minutes m) * 60000 + parseInt (ts_seconds m) * 1000
            + ms * 10)%Z
  end.

(** The variables the per-line [forEach] of [validateLRC] updates. *)
Record ValidateState : Type := mkVState {
  vs_issues : list LRCValidationIssue;
  multiTimestampCount : nat;
  elrcCount : nat;
  timedLines : list TimedLine;
  seenTimestamps : gmap Z nat
}.

Definition pushIssue (st : ValidateState) (i : LRCValidationIssue)
  : ValidateState :=
  mkVState (vs_issues st ++ [i]) (multiTimestampCount st) (elrcCount st)
           (timedLines st) (seenTimestamps st).

Definition natToString (n : nat) : str := toString (Z.of_nat n).

Definition elrcIssue (index : nat) (line : str) (elrcMatches : list str)
  : LRCValidationIssue :=
  mkIssue (index + 1) ElrcWordTiming Error
    (lit "Contains " ++ natToString (length elrcMatches)
     ++ lit " ELRC word timestamp"
     ++ (if 1 <? length elrcMatches then lit "s" else [])
     ++ lit " (not supported by LRCLIB)")
    line (Some elrcMatches)
    (Some (lit "Use auto-fix to strip word timestamps while keeping line timestamps")).

Definition multiIssue (index : nat) (line : str) (tss : list str)
  : LRCValidationIssue :=
  mkIssue (index + 1) MultiTimestamp Warning
    (lit "Contains " ++ natToString (length tss)
     ++ lit " timestamps (non-standard format)")
    line (Some tss)
    (Some (lit "Use auto-fix to expand into separate lines")).

Definition invalidTimestampIssue (index : nat) (line : str)
  : LRCValidationIssue :=
  mkIssue (index + 1) InvalidTimestamp Error (lit "Invalid timestamp format")
    line None (Some (lit "Format should be [mm:ss.xx]")).

Definition negativeIssue (index : nat) (line : str) : LRCValidationIssue :=
  mkIssue (index + 1) NegativeTimestamp Error
    (lit "Timestamp cannot be negative") line None None.

Definition duplicateIssue (index : nat) (line : str) (previousLine : nat)
  : LRCValidationIssue :=
  mkIssue (index + 1) DuplicateTimestamp Warning
    (lit "Duplicate timestamp (also on line " ++ natToString previousLine
     ++ lit ")")
    line None
    (Some (lit "Different lyrics should have different timestamps")).

Definition invalidFormatIssue (index : nat) (line : str)
  : LRCValidationIssue :=
  mkIssue (index + 1) InvalidFormat Error (lit "Invalid timestamp format")
    line None (Some (lit "Format should be [mm:ss.xx] Lyrics")).

(** The body of the per-line [forEach], for the line at [index]. *)
Definition validateStep (st : ValidateState) (rawLine : str) (index : nat)
  : ValidateState :=
  let line := trim rawLine in
  if isEmpty line then st
  else if isMetadata line then st
  else
    let elrcMatches := map snd (scanFrom matchElrc 0 0 line) in
    let st :=
      if 0 <? length elrcMatches
      then mkVState (vs_issues st ++ [elrcIssue index line elrcMatches])
                    (multiTimestampCount st) (S (elrcCount st))
                    (timedLines st) (seenTimestamps st)
      else st in
    let tss := map snd (scanTimestamps line) in
    if length tss =? 0 then st
    else if 1 <? length tss
    then mkVState (vs_issues st ++ [multiIssue index line tss])
                  (S (multiTimestampCount st)) (elrcCount st)
                  (timedLines st) (seenTimestamps st)
    else
      let timestampStr := hd [] tss in
      match parseTimestampToMs timestampStr with
      | None => pushIssue st (invalidTimestampIssue index line)
      | Some timestampMs =>
          if (timestampMs <? 0)%Z
          then pushIssue st (negativeIssue index line)
          else
            let st :=
              match seenTimestamps st !! timestampMs with
              | Some previousLine =>
                  pushIssue st (duplicateIssue index line previousLine)
              | None =>
                  mkVState (vs_issues st) (multiTimestampCount st)
                           (elrcCount st) (timedLines st)
                           (<[timestampMs := index + 1]> (seenTimestamps st))
              end in
            let st :=
              mkVState (vs_issues st) (multiTimestampCount st) (elrcCount st)
                       (timedLines st ++ [mkTimed timestampMs (index + 1) line])
                       (seenTimestamps st) in
            if negb (testSingleTimestamp line)
            then pushIssue st (invalidFormatIssue index line)
            else st
      end.

(** [lines.forEach((rawLine, index) => ...)] from index [i] on. *)
Fixpoint forEachFrom {S A : Type} (f : S -> A -> nat -> S) (i : nat)
  (l : list A) (st : S) : S :=
  match l with
  | [] => st
  | x :: l' => forEachFrom f (i + 1) l' (f st x i)
  end.

(** The pairs [(timedLines[i - 1], timedLines[i])] for [i = 1, 2, ...],
    which the three [for] loops visit in this order. *)
Fixpoint adjacent {A : Type} (l : list A) : list (A * A) :=
  match l with
  | a :: l' =>
      match l' with
      | b :: _ => (a, b) :: adjacent l'
      | [] => []
      end
  | [] => []
  end.

Definition outOfOrderIssue (prev cur : TimedLine) : LRCValidationIssue :=
  mkIssue (tl_line cur) OutOfOrder Warning
    (lit "Timestamp is earlier than previous line ("
     ++ natToString (tl_line prev) ++ lit ")")
    (tl_raw cur) None
    (Some (lit "Lines should be in chronological order")).

Definition gapIssue (gap : Z) (cur : TimedLine) : LRCValidationIssue :=
  mkIssue (tl_line cur) ExcessiveGap Warning
    (lit "Large gap (" ++ toString (roundDiv gap 1000)
     ++ lit "s) from previous line")
    (tl_raw cur) None (Some (lit "Verify this gap is intentional")).

Definition overlapIssue (gap : Z) (cur : TimedLine) : LRCValidationIssue :=
  mkIssue (tl_line cur) TimestampOverlap Warning
    (lit "Very close to previous timestamp (" ++ toString gap
     ++ lit "ms gap)")
    (tl_raw cur) None (Some (lit "Ensure this timing is intentional")).

Definition outOfOrderStep (issues : list LRCValidationIssue)
  (p : TimedLine * TimedLine) : list LRCValidationIssue :=
  let (prev, cur) := p in
  if (tl_timestamp cur <? tl_timestamp prev)%Z
  then issues ++ [outOfOrderIssue prev cur]
  else issues.

Definition gapStep (issues : list LRCValidationIssue)
  (p : TimedLine * TimedLine) : list LRCValidationIssue :=
  let (prev, cur) := p in
  let gap := (tl_timestamp cur - tl_timestamp prev)%Z in
  if (30000 <? gap)%Z then issues ++ [gapIssue gap cur] else issues.

Definition overlapStep (issues : list LRCValidationIssue)
  (p : TimedLine * TimedLine) : list LRCValidationIssue :=
  let (prev, cur) := p in
  if (tl_timestamp cur =? tl_timestamp prev)%Z then issues
  else
    let gap := (tl_timestamp cur - tl_timestamp prev)%Z in
    if (0 <? gap)%Z && (gap <? 100)%Z
    then issues ++ [overlapIssue gap cur]
    else issues.

Definition noTimestampsIssue (content : str) : LRCValidationIssue :=
  mkIssue 1 NoTimestamps Error
    (lit "No valid LRC timestamps found in the content")
    (substring_to content 100
     ++ (if 100 <? length content then lit "..." else []))
    None
    (Some (lit "LRC format requires timestamps like [mm:ss.xx] lyrics. If you are submitting plain lyrics, use the plain lyrics field instead.")).

(** The state after the per-line pass over the whole content. *)
Definition perLinePass (content : str) : ValidateState :=
  forEachFrom validateStep 0 (split_nl content) (mkVState [] 0 0 [] ∅).

(** The issue list after the three adjacent-pair loops and the final
    no-timestamps check. *)
Definition allIssues (content : str) : list LRCValidationIssue :=
  let st := perLinePass content in
  let pairs := adjacent (timedLines st) in
  let issues := fold_left outOfOrderStep pairs (vs_issues st) in
  let issues := fold_left gapStep pairs issues in
  let issues := fold_left overlapStep pairs issues in
  if (length (timedLines st) =? 0) && (0 <? length (trim content))
  then issues ++ [noTimestampsIssue content]
  else issues.

(** [issuesByType[issue.type]++] over the issues, from all zeros. *)
Definition countByType (issues : list LRCValidationIssue) : IssueType -> nat :=
  fold_left
    (fun (tbl : IssueType -> nat) (i : LRCValidationIssue) =>
       fun t => if IssueType_eqb t (type i) then S (tbl t) else tbl t)
    issues (fun _ => 0).

Definition validateLRC (content : str) : LRCValidationResult :=
  let st := perLinePass content in
  let issues := allIssues content in
  mkResult
    (length issues =? 0)
    issues
    (0 <? multiTimestampCount st)
    (0 <? elrcCount st)
    (existsb (fun i => Severity_eqb (severity i) Error) issues)
    (existsb (fun i => Severity_eqb (severity i) Warning) issues)
    (length (List.filter (fun l => negb (isEmpty (trim l))) (split_nl content)))
    (length issues)
    (countByType issues).

Definition validateSyncedLyrics (syncedLyrics : str) : LRCValidationResult :=
  validateLRC syncedLyrics.

(** [lines.join(sep)] for any separator. *)
Fixpoint join_with (sep : str) (ls : list str) : str :=
  match ls with
  | [] => []
  | [l] => l
  | l :: ls' => l ++ sep ++ join_with sep ls'
  end.

(** [hasMultiTimestampIssues]: some line of the content, taken as it is,
    holds more than one timestamp token. *)
Definition hasMultiTimestampIssues (content : str) : bool :=
  existsb (fun line => 1 <? length (map snd (scanTimestamps line)))
          (split_nl content).

(** One part of the summary: the count, the noun and its plural. *)
Definition countPart (n : nat) (noun : str) : str :=
  natToString n ++ noun ++ (if 1 <? n then lit "s" else []).

(** [getValidationSummary] *)
Definition getValidationSummary (result : LRCValidationResult) : str :=
  if isValid result then lit "LRC format is valid"
  else
    let errors :=
      List.filter (fun i => Severity_eqb (severity i) Error) (issues result) in
    let warnings :=
      List.filter (fun i => Severity_eqb (severity i) Warning) (issues result) in
    let parts : list str := [] in
    let parts :=
      if 0 <? length errors
      then parts ++ [countPart (length errors) (lit " error")]
      else parts in
    let parts :=
      if 0 <? length warnings
      then parts ++ [countPart (length warnings) (lit " warning")]
      else parts in
    join_with (lit ", ") parts.

End LrcValidator.

(** ** The pre-submit check of the page *)

Module Page.

Import LrcValidator.

(** The page variables [validateBeforeSubmit] reads and writes. *)
Record PageState : Type := mkPage {
  syncedLyrics : str;
  validationResult : option LRCValidationResult;
  showValidationWarning : bool;
  isSubmitting : bool
}.

(** [validateBeforeSubmit]: the value returned and the page afterwards. *)
Definition validateBeforeSubmit (p : PageState) : bool * PageState :=
  if isEmpty (trim (syncedLyrics p)) then (true, p)
  else
    let r := validateSyncedLyrics (syncedLyrics p) in
    if negb (isValid r) && hasMultiTimestamps r
    then (false, mkPage (syncedLyrics p) (Some r) true false)
    else (true, mkPage (syncedLyrics p) (Some r) (showValidationWarning p)
                       (isSubmitting p)).

End Page.

(** ** The auto-fix handler of the page *)

Module PageForm.

Import LrcValidator.

(** The page variables [handleNormalize] reads and writes beside those of
    [validateBeforeSubmit]. [error] is the banner text [setError] shows;
    the timer that clears it later is a separate event. *)
Record FormPage : Type := mkForm {
  page : Page.PageState;
  plainLyrics : str;
  validationOverridden : bool;
  error : option str
}.

(** The text of the banner: how many lines were rewritten into how many. *)
Definition normalizedMessage (changes expandedLines : nat) (ending : str)
  : str :=
  lit "Normalized " ++ natToString changes ++ lit " line"
  ++ (if changes =? 1 then [] else lit "s")
  ++ lit " into " ++ natToString expandedLines ++ lit " separate line"
  ++ (if expandedLines =? 1 then [] else lit "s")
  ++ lit ". " ++ ending.

(** [handleNormalize] *)
Definition handleNormalize (f : FormPage) : FormPage :=
  if isEmpty (trim (Page.syncedLyrics (page f))) then f
  else
    let result :=
      LrcNormalizer.normalizeAndSortLRC (Page.syncedLyrics (page f)) in
    let syncedLyrics := LrcNormalizer.normalized result in
    let validationResult := validateSyncedLyrics syncedLyrics in
    if negb (isValid validationResult)
    then mkForm
           (Page.mkPage syncedLyrics (Some validationResult) true
                        (Page.isSubmitting (page f)))
           (LrcNormalizer.plainLyrics result) false
           (Some (normalizedMessage (LrcNormalizer.changes result)
                    (LrcNormalizer.expandedLines result)
                    (lit "Please review remaining issues.")))
    else mkForm
           (Page.mkPage syncedLyrics (Some validationResult) false
                        (Page.isSubmitting (page f)))
           (LrcNormalizer.plainLyrics result) false
           (Some (normalizedMessage (LrcNormalizer.changes result)
                    (LrcNormalizer.expandedLines result)
                    (lit "No issues remaining!"))).

(** [validateBeforeSubmit] on the whole form: it touches the variables of
    [Page.PageState] only. *)
Definition validateBeforeSubmit (f : FormPage) : bool * FormPage :=
  let (ok, p) := Page.validateBeforeSubmit (page f) in
  (ok, mkForm p (plainLyrics f) (validationOverridden f) (error f)).

End PageForm.

(** ** The validation banner: issues grouped by type *)

Module ValidationWarning.

Import LrcValidator.

(** The [Map] from issue type to issues, in insertion order. *)
Definition Groups : Type := list (IssueType * list LRCValidationIssue).

(** [grouped.has(type)] *)
Definition has (type : IssueType) (grouped : Groups) : bool :=
  existsb (fun e => IssueType_eqb (fst e) type) grouped.

(** [grouped.get(type)!.push(issue)]: the array stored under [type] grows
    in place. *)
Fixpoint pushTo (type : IssueType) (issue : LRCValidationIssue)
  (grouped : Groups) : Groups :=
  match grouped with
  | [] => []
  | (k, v) :: rest =>
      if IssueType_eqb k type then (k, v ++ [issue]) :: rest
      else (k, v) :: pushTo type issue rest
  end.

(** The body of the [forEach] of [issuesByType]; [grouped.set] of an
    absent key appends it. *)
Definition groupStep (grouped : Groups) (issue : LRCValidationIssue) : Groups :=
  let grouped :=
    if negb (has (type issue) grouped)
    then grouped ++ [(type issue, [])]
    else grouped in
  pushTo (type issue) issue grouped.

(** The derived [issuesByType] of the component. *)
Definition issuesByType (validationResult : LRCValidationResult) : Groups :=
  fold_left groupStep (issues validationResult) [].

End ValidationWarning.

(** A line feed, for multi-line literals. *)
Definition nl : str := [10%N].

(** * Notions used in the statements *)

Import LrcNormalizer.

Module V := LrcValidator.

(** A text without a line feed: a line. *)
Definition noNewline (l : str) : Prop :=
  Forall (fun c => char_eqb c 10%N = false) l.

(** A run of white space, as [trim] strips it. *)
Definition allWhite (ws : str) : Prop := Forall (fun c => isWhite c = true) ws.

(** A class that no white space code unit belongs to. *)
Definition rejectsWhite (f : charClass) : Prop :=
  forall c, isWhite c = true -> f c = false.

(** A text without an opening bracket. *)
Definition noBracket (t : str) : Prop := Forall (fun c => c <> ch "[") t.

(** The text of some match of the timestamp pattern. *)
Definition isToken (tok : str) : Prop := exists s, timestampAt s = Some tok.

(** The text [normalizeLRC] attaches to every expanded line: what follows
    the last match of the scan. *)
Definition textAfterLast (line : str) : str :=
  let e := List.last (scanTimestamps line) (0, []) in
  skipn (fst e + length (snd e)) line.

(** The state [normalizeLRC] starts its loop in. *)
Definition initNorm : NormState := mkNormState [] 0 0.

(** What one line appends and adds, whatever came before it. *)
Definition lineOutput (rawLine : str) : list str :=
  normalizedLines (normalizeStep initNorm rawLine).
Definition lineChanges (rawLine : str) : nat :=
  changesCount (normalizeStep initNorm rawLine).
Definition lineExpanded (rawLine : str) : nat :=
  expandedLinesCount (normalizeStep initNorm rawLine).

(** Plain-lyrics extraction in the words of the specification: metadata
    lines are left out, every other line loses its timestamp prefix when
    it has one, and the lines whose remaining text is not blank are
    joined. *)
Definition stripTimestampPrefix (l : str) : str :=
  match matchTimestamp l with
  | Some m => skipn (length (ts_text m)) l
  | None => l
  end.

Definition remainingText (line : str) : str :=
  trim (stripTimestampPrefix (trim line)).

Definition extractPlainLyrics_spec (syncedLyrics : str) : str :=
  join_nl
    (List.filter (fun t => negb (isEmpty t))
       (map remainingText
          (List.filter (fun l => negb (isMetadata (trim l)))
                  (split_nl syncedLyrics)))).

(** What a line gives to the plain lyrics in the source: the trimmed text
    after a leading timestamp token, when the line is no metadata line,
    starts with a token, holds no line terminator after it and has text
    left; nothing otherwise. *)
Definition timedText (line : str) : list str :=
  let trimmed := trim line in
  if isMetadata trimmed then []
  else match matchTimestamp trimmed with
       | Some m =>
           let rest := skipn (length (ts_text m)) trimmed in
           if hasNoLineTerminator rest && negb (isEmpty (trim rest))
           then [trim rest]
           else []
       | None => []
       end.

(** [l'] is [l] followed by new entries that all satisfy [P]. *)
Definition extends {A : Type} (P : A -> Prop) (l l' : list A) : Prop :=
  exists new, l' = l ++ new /\ Forall P new.

(** The issue types the per-line pass can emit. *)
Definition isPerLineType (t : V.IssueType) : bool :=
  match t with
  | V.ElrcWordTiming | V.MultiTimestamp | V.InvalidTimestamp
  | V.NegativeTimestamp | V.DuplicateTimestamp | V.InvalidFormat => true
  | V.OutOfOrder | V.ExcessiveGap | V.TimestampOverlap | V.NoTimestamps => false
  end.

(** An issue of the per-line pass on line [n]. *)
Definition perLineIssueAt (n : nat) (i : V.LRCValidationIssue) : Prop :=
  V.line i = n /\ isPerLineType (V.type i) = true.

(** The state [validateLRC] starts its per-line pass in. *)
Definition initValidate : V.ValidateState := V.mkVState [] 0 0 [] ∅.

(** An issue of a cross-line loop: its type is one of the three, and its
    line is the line of an entry of the timed-line sequence. *)
Definition crossIssue (timed : list V.TimedLine) (i : V.LRCValidationIssue)
  : Prop :=
  (V.type i = V.OutOfOrder \/ V.type i = V.ExcessiveGap
   \/ V.type i = V.TimestampOverlap)
  /\ exists cur, In cur timed /\ V.line i = V.tl_line cur.

(** A multi-timestamp issue, and how many of them a list holds. *)
Definition isMulti (i : V.LRCValidationIssue) : bool :=
  V.IssueType_eqb (V.type i) V.MultiTimestamp.

Definition countMulti (l : list V.LRCValidationIssue) : nat :=
  length (List.filter isMulti l).

(** A text made of decimal digits. *)
Definition allDigits (s : str) : Prop := forallb isDigit s = true.

(** The text of a token with the given groups. *)
Definition tokenText (mm ss fr : str) : str :=
  ch "[" :: mm ++ ch ":" :: ss ++ ch "." :: fr ++ [ch "]"].

(** The fraction [normalizeTimestamp] prints for the fraction [fr]. *)
Definition normalizedFraction (fr : str) : str :=
  if Nat.eqb (length fr) 3
  then padStart0 2 (toString (roundDiv (parseInt fr) 10))
  else padStart0 2 fr.

(** A line in trimmed form that is empty, a metadata line, or carries at
    most one timestamp token. *)
Definition settled (l : str) : Prop :=
  trim l = l
  /\ (isEmpty l || isMetadata l = true \/ length (scanTimestamps l) <= 1).

(** The three buckets [sortLRCLines] fills from a list of lines. *)
Definition metasOf (lines : list str) : list str :=
  flat_map (fun l => if isMetadata (trim l) then [trim l] else []) lines.

Definition timedOf (lines : list str) : list (Z * str) :=
  flat_map (fun l =>
              if isMetadata (trim l) then []
              else match sortKey (trim l) with
                   | Some k => [(k, trim l)]
                   | None => []
                   end) lines.

Definition othersOf (lines : list str) : list str :=
  flat_map (fun l =>
              if isMetadata (trim l) then []
              else match sortKey (trim l) with
                   | Some _ => []
                   | None => if isEmpty (trim l) then [] else [trim l]
                   end) lines.

(** The lines of the sorted text. *)
Definition sortedLines (lines : list str) : list str :=
  metasOf lines ++ map snd (sortTimed (timedOf lines)) ++ othersOf lines.

(** The order the sorter's comparator [a.timestamp - b.timestamp] induces. *)
Definition keyLe (a b : Z * str) : Prop := (fst a <= fst b)%Z.

(** What the sorter reads from a line it put in a bucket itself. *)
Definition metaLine (t : str) : Prop := trim t = t /\ isMetadata t = true.
Definition timedEntry (e : Z * str) : Prop :=
  trim (snd e) = snd e /\ isMetadata (snd e) = false
  /\ sortKey (snd e) = Some (fst e).
Definition otherLine (t : str) : Prop :=
  trim t = t /\ isMetadata t = false /\ sortKey t = None /\ isEmpty t = false.

(** The first-seen table only names lines of the timed-line sequence. *)
Definition seenFromTimed (st : V.ValidateState) : Prop :=
  forall (ms : Z) (v : nat),
    V.seenTimestamps st !! ms = Some v ->
    exists t, In t (V.timedLines st) /\ V.tl_line t = v.

(** The line, type, severity and message of every issue of a content. *)
Definition issueSummary (content : str)
  : list (nat * V.IssueType * V.Severity * str) :=
  map (fun i => (V.line i, V.type i, V.severity i, V.message i))
      (V.issues (V.validateLRC content)).

(** The issue types [validateLRC] can really emit in its per-line pass:
    the remaining two sit behind tests that never succeed. *)
Definition isReachablePerLineType (t : V.IssueType) : bool :=
  match t with
  | V.ElrcWordTiming | V.MultiTimestamp | V.DuplicateTimestamp
  | V.InvalidFormat => true
  | _ => false
  end.

(** What holds of every entry of the timed-line sequence: its text is a
    trimmed line, no metadata line, with exactly one token, and its
    timestamp is the value parsed from that token. *)
Definition timedOk (t : V.TimedLine) : Prop :=
  trim (V.tl_raw t) = V.tl_raw t
  /\ isMetadata (V.tl_raw t) = false
  /\ exists tok,
       map snd (scanTimestamps (V.tl_raw t)) = [tok]
       /\ V.parseTimestampToMs tok = Some (V.tl_timestamp t).

(** All issue types, as the zero-initialised table lists them. *)
Definition allIssueTypes : list V.IssueType :=
  [V.MultiTimestamp; V.InvalidFormat; V.InvalidTimestamp; V.OutOfOrder;
   V.NegativeTimestamp; V.DuplicateTimestamp; V.ExcessiveGap;
   V.TimestampOverlap; V.NoTimestamps; V.ElrcWordTiming].

(** An ELRC word-timing issue. *)
Definition isElrc (i : V.LRCValidationIssue) : bool :=
  V.IssueType_eqb (V.type i) V.ElrcWordTiming.

(** The severity [validateLRC] gives to an issue of each type. *)
Definition severityOf (t : V.IssueType) : V.Severity :=
  match t with
  | V.MultiTimestamp | V.OutOfOrder | V.DuplicateTimestamp | V.ExcessiveGap
  | V.TimestampOverlap => V.Warning
  | V.InvalidFormat | V.InvalidTimestamp | V.NegativeTimestamp
  | V.NoTimestamps | V.ElrcWordTiming => V.Error
  end.

(** The issues of the three adjacent-pair loops, pair by pair. *)
Definition outOfOrderIssues (timed : list V.TimedLine)
  : list V.LRCValidationIssue :=
  flat_map (fun p : V.TimedLine * V.TimedLine =>
              if (V.tl_timestamp (snd p) <? V.tl_timestamp (fst p))%Z
              then [V.outOfOrderIssue (fst p) (snd p)] else [])
           (V.adjacent timed).

Definition gapIssues (timed : list V.TimedLine) : list V.LRCValidationIssue :=
  flat_map (fun p : V.TimedLine * V.TimedLine =>
              let gap := (V.tl_timestamp (snd p) - V.tl_timestamp (fst p))%Z in
              if (30000 <? gap)%Z then [V.gapIssue gap (snd p)] else [])
           (V.adjacent timed).

Definition overlapIssues (timed : list V.TimedLine)
  : list V.LRCValidationIssue :=
  flat_map (fun p : V.TimedLine * V.TimedLine =>
              let gap := (V.tl_timestamp (snd p) - V.tl_timestamp (fst p))%Z in
              if (0 <? gap)%Z && (gap <? 100)%Z
              then [V.overlapIssue gap (snd p)] else [])
           (V.adjacent timed).

(** The number of issues of type [t] in a list. *)
Definition countType (t : V.IssueType) (l : list V.LRCValidationIssue) : nat :=
  length (List.filter (fun i => V.IssueType_eqb (V.type i) t) l).

(** The line of the first entry of a timed sequence with timestamp [ms]. *)
Definition firstLineOf (timed : list V.TimedLine) (ms : Z) : option nat :=
  option_map V.tl_line
    (find (fun u => (V.tl_timestamp u =? ms)%Z) timed).

(** The duplicate warnings a timed sequence calls for: one for each entry
    whose timestamp an earlier entry ([before], then the entries passed)
    already has, naming the line of the first of those. *)
Fixpoint duplicatesFrom (before timed : list V.TimedLine)
  : list V.LRCValidationIssue :=
  match timed with
  | [] => []
  | t :: rest =>
      match firstLineOf before (V.tl_timestamp t) with
      | Some previousLine =>
          [V.duplicateIssue (V.tl_line t - 1) (V.tl_raw t) previousLine]
      | None => []
      end ++ duplicatesFrom (before ++ [t]) rest
  end.

(** A duplicate-timestamp issue. *)
Definition isDuplicate (i : V.LRCValidationIssue) : bool :=
  V.IssueType_eqb (V.type i) V.DuplicateTimestamp.

(** What the per-line pass keeps true of the first-seen table and of the
    duplicate warnings issued so far. *)
Definition duplicatesTracked (st : V.ValidateState) : Prop :=
  (forall ms, V.seenTimestamps st !! ms = firstLineOf (V.timedLines st) ms)
  /\ List.filter isDuplicate (V.vs_issues st)
     = duplicatesFrom [] (V.timedLines st).

(** Issues of the three cross-line types. *)
Definition isOutOfOrder (i : V.LRCValidationIssue) : bool :=
  V.IssueType_eqb (V.type i) V.OutOfOrder.
Definition isGap (i : V.LRCValidationIssue) : bool :=
  V.IssueType_eqb (V.type i) V.ExcessiveGap.
Definition isOverlap (i : V.LRCValidationIssue) : bool :=
  V.IssueType_eqb (V.type i) V.TimestampOverlap.

(** The timestamps of the timed lines of a content, in document order. *)
Definition timestampsOf (content : str) : list Z :=
  map V.tl_timestamp (V.timedLines (V.perLinePass content)).

(** A line the per-line pass finds nothing wrong with, duplicates apart:
    blank, metadata, or a line without word-level timestamp that holds no
    token, or one token only, at its start and followed by text without
    line terminator. *)
Definition cleanLine (rawLine : str) : Prop :=
  let line := trim rawLine in
  line = [] \/ isMetadata line = true
  \/ (scanFrom V.matchElrc 0 0 line = []
      /\ length (scanTimestamps line) <= 1
      /\ (length (scanTimestamps line) = 1 -> V.testSingleTimestamp line = true)).

(** Consecutive timestamps that are neither too close nor too far apart. *)
Definition wellSpaced (a b : Z) : Prop := (100 <= b - a <= 30000)%Z.

(** An issue of any type but duplicate-timestamp. *)
Definition notDuplicate (i : V.LRCValidationIssue) : bool :=
  negb (isDuplicate i).

(** Every two consecutive entries of a list are related by [R]. *)
Definition consecutive {A : Type} (R : A -> A -> Prop) (l : list A) : Prop :=
  Forall (fun p => R (fst p) (snd p)) (V.adjacent l).

(** The bucket [sortLRCLines] puts a trimmed line in. *)
Definition isTimedLine (l : str) : bool :=
  negb (isMetadata l)
  && match sortKey l with Some _ => true | None => false end.

Definition isOtherLine (l : str) : bool :=
  negb (isMetadata l)
  && match sortKey l with Some _ => false | None => negb (isEmpty l) end.

(** A trimmed line the sorter files under the key [k]. *)
Definition hasKey (k : Z) (l : str) : bool :=
  negb (isMetadata l)
  && match sortKey l with Some k' => (k' =? k)%Z | None => false end.

(** A trimmed text that holds no timestamp token. *)
Definition tokenFree (l : str) : Prop := trim l = l /\ scanTimestamps l = [].

(** An issue of type [t]. *)
Definition typeIs (t : V.IssueType) (i : V.LRCValidationIssue) : bool :=
  V.IssueType_eqb (V.type i) t.

(** What the grouping loop of the banner keeps true of the groups built
    from the issues seen so far. *)
Definition grouped (seen : list V.LRCValidationIssue)
  (G : ValidationWarning.Groups) : Prop :=
  List.NoDup (map fst G)
  /\ Forall (fun e => snd e = List.filter (typeIs (fst e)) seen) G
  /\ forall t, ValidationWarning.has t G = existsb (typeIs t) seen.

(** The entry a line adds to the timed-line sequence, read off the line
    alone: one entry for a line that is neither blank nor metadata and
    holds exactly one token. *)
Definition timedEntryOf (index : nat) (rawLine : str) : list V.TimedLine :=
  let line := trim rawLine in
  if isEmpty line || isMetadata line then []
  else match map snd (scanTimestamps line) with
       | [tok] =>
           match V.parseTimestampToMs tok with
           | Some ms => [V.mkTimed ms (index + 1) line]
           | None => []
           end
       | _ => []
       end.

Fixpoint timedFrom (index : nat) (lines : list str) : list V.TimedLine :=
  match lines with
  | [] => []
  | l :: lines' => timedEntryOf index l ++ timedFrom (index + 1) lines'
  end.


(** * Properties *)

(** ** Lines: [split] and [join] *)

Lemma split_nl_nonempty (s : str) : split_nl s <> [].
Proof.
  destruct s as [|c s]; simpl; [discriminate|].
  destruct (char_eqb c 10%N); [discriminate|].
  destruct (split_nl s); discriminate.
Qed.

Lemma join_split (s : str) : join_nl (split_nl s) = s.
Proof.
  induction s as [|c s IH]; simpl; [reflexivity|].
  destruct (char_eqb c 10%N) eqn:E.
  - apply N.eqb_eq in E. subst c.
    pose proof (split_nl_nonempty s) as Hne.
    destruct (split_nl s) as [|l ls]; [contradiction|].
    simpl in *. now rewrite IH.
  - pose proof (split_nl_nonempty s) as Hne.
    destruct (split_nl s) as [|l ls]; [contradiction|].
    destruct ls; simpl in *; now rewrite <- IH.
Qed.

Lemma split_nl_noNewline (s : str) : Forall noNewline (split_nl s).
Proof.
  induction s as [|c s IH]; simpl.
  - repeat constructor.
  - destruct (char_eqb c 10%N) eqn:E.
    + constructor; [constructor | exact IH].
    + destruct (split_nl s) as [|l ls]; [repeat constructor; exact E|].
      inversion IH; subst. constructor; [constructor; assumption | assumption].
Qed.

Lemma split_nl_line (l : str) : noNewline l -> split_nl l = [l].
Proof.
  induction 1 as [|c l Hc _ IH]; simpl; [reflexivity|].
  now rewrite Hc, IH.
Qed.

Lemma split_nl_app_nl (l s : str) :
  noNewline l -> split_nl (l ++ 10%N :: s) = l :: split_nl s.
Proof.
  induction 1 as [|c l Hc _ IH]; simpl; [reflexivity|].
  now rewrite Hc, IH.
Qed.

Lemma split_join (ls : list str) :
  ls <> [] -> Forall noNewline ls -> split_nl (join_nl ls) = ls.
Proof.
  induction ls as [|l ls IH]; intros Hne Hall; [contradiction|].
  inversion Hall as [|? ? Hl Hls]; subst.
  destruct ls as [|l' ls'].
  - simpl. now apply split_nl_line.
  - change (join_nl (l :: l' :: ls')) with (l ++ 10%N :: join_nl (l' :: ls')).
    rewrite split_nl_app_nl by assumption.
    f_equal. apply IH; [discriminate | assumption].
Qed.

(** ** Trimming *)

Lemma trimStart_decomp (s : str) :
  exists ws, s = ws ++ trimStart s /\ allWhite ws.
Proof.
  induction s as [|c s [ws [E W]]]; simpl.
  - exists []. split; [reflexivity | constructor].
  - destruct (isWhite c) eqn:Hc.
    + exists (c :: ws). split; [simpl; now f_equal | now constructor].
    + exists []. split; [reflexivity | constructor].
Qed.

Lemma trimEnd_decomp (s : str) :
  exists ws, s = trimEnd s ++ ws /\ allWhite ws.
Proof.
  unfold trimEnd.
  destruct (trimStart_decomp (rev s)) as [ws [E W]].
  exists (rev ws). split.
  - rewrite <- rev_app_distr, <- E. symmetry. apply rev_involutive.
  - unfold allWhite. apply Forall_rev. exact W.
Qed.

Lemma trim_decomp (s : str) :
  exists a b, s = a ++ trim s ++ b /\ allWhite a /\ allWhite b.
Proof.
  destruct (trimStart_decomp s) as [a [Ea Wa]].
  destruct (trimEnd_decomp (trimStart s)) as [b [Eb Wb]].
  exists a, b. unfold trim. now rewrite <- Eb.
Qed.

Lemma trimStart_fixed (s : str) :
  trimStart s = s <-> (match s with [] => True | c :: _ => isWhite c = false end).
Proof.
  destruct s as [|c s]; simpl; [tauto|].
  destruct (isWhite c) eqn:Hc.
  - split; [|discriminate]. intros E.
    destruct (trimStart_decomp s) as [ws [E' _]].
    apply (f_equal (@length _)) in E. apply (f_equal (@length _)) in E'.
    rewrite length_app in E'. simpl in E. lia.
  - tauto.
Qed.

Lemma trimStart_idem (s : str) : trimStart (trimStart s) = trimStart s.
Proof.
  induction s as [|c s IH]; simpl; [reflexivity|].
  destruct (isWhite c) eqn:Hc; [exact IH|]. simpl. now rewrite Hc.
Qed.

Lemma trimStart_snoc (a : str) (c : char) :
  isWhite c = false -> trimStart (a ++ [c]) = trimStart a ++ [c].
Proof.
  intros Hc. induction a as [|x a IH]; simpl.
  - now rewrite Hc.
  - destruct (isWhite x); [exact IH | reflexivity].
Qed.

Lemma trimEnd_cons (c : char) (s : str) :
  isWhite c = false -> trimEnd (c :: s) = c :: trimEnd s.
Proof.
  intros Hc. unfold trimEnd. simpl.
  rewrite trimStart_snoc by assumption.
  now rewrite rev_app_distr.
Qed.

Lemma trimEnd_idem (s : str) : trimEnd (trimEnd s) = trimEnd s.
Proof.
  unfold trimEnd. now rewrite rev_involutive, trimStart_idem.
Qed.

Lemma trim_idem (s : str) : trim (trim s) = trim s.
Proof.
  unfold trim.
  assert (H : trimStart (trimEnd (trimStart s)) = trimEnd (trimStart s)).
  { pose proof (trimStart_idem s) as Hi.
    apply trimStart_fixed in Hi.
    destruct (trimStart s) as [|c u]; [reflexivity|].
    rewrite trimEnd_cons by assumption. simpl. now rewrite Hi. }
  rewrite H. apply trimEnd_idem.
Qed.

Lemma noNewline_app (a b : str) :
  noNewline (a ++ b) <-> noNewline a /\ noNewline b.
Proof. unfold noNewline. apply Forall_app. Qed.

Lemma trim_line_noNewline (l : str) : noNewline l -> noNewline (trim l).
Proof.
  intros H. destruct (trim_decomp l) as [a [b [E _]]].
  rewrite E in H. apply noNewline_app in H as [_ H].
  now apply noNewline_app in H as [H _].
Qed.

(** ** Matching a sequence of character classes *)

Lemma isDigit_rejectsWhite : rejectsWhite isDigit.
Proof.
  intros c H. unfold isDigit. unfold isWhite, char_eqb in H.
  destruct (48 <=? c)%N eqn:E1; [|reflexivity].
  destruct (c <=? 57)%N eqn:E2; [|reflexivity].
  apply N.leb_le in E1, E2.
  repeat (apply orb_true_iff in H as [H|H]);
    try (apply andb_true_iff in H as [Ha Hb]; apply N.leb_le in Ha, Hb; lia);
    try (apply N.eqb_eq in H; lia).
Qed.

Lemma exactly_rejectsWhite (a : ascii) :
  isWhite (ch a) = false -> rejectsWhite (exactly a).
Proof.
  intros Ha c Hc. unfold exactly, char_eqb.
  destruct (c =? ch a)%N eqn:E; [|reflexivity].
  apply N.eqb_eq in E. congruence.
Qed.

Lemma tsPattern_rejectsWhite (n : nat) : Forall rejectsWhite (tsPattern n).
Proof.
  unfold tsPattern. apply Forall_app. split; [|apply Forall_app; split].
  - repeat constructor;
      first [apply isDigit_rejectsWhite | now apply exactly_rejectsWhite].
  - induction n; simpl; constructor;
      [apply isDigit_rejectsWhite | assumption].
  - repeat constructor. now apply exactly_rejectsWhite.
Qed.

Lemma matchSeq_length (p : list charClass) (s : str) :
  matchSeq p s = true -> length p <= length s.
Proof.
  revert s. induction p as [|f p IH]; intros [|c s] H; simpl in *;
    try lia; try discriminate.
  apply andb_true_iff in H as [_ H]. apply IH in H. lia.
Qed.

Lemma matchSeq_app_white (p : list charClass) (s ws : str) :
  Forall rejectsWhite p -> allWhite ws ->
  matchSeq p (s ++ ws) = matchSeq p s.
Proof.
  intros Hp Hws. revert s. induction Hp as [|f p Hf _ IH]; intros s.
  - destruct (s ++ ws), s; reflexivity.
  - destruct s as [|c s]; simpl.
    + destruct Hws as [|w ws Hw _]; [reflexivity|].
      now rewrite (Hf w Hw).
    + now rewrite IH.
Qed.

(** A match reads only as many code units as the pattern is long. *)
Lemma matchSeq_firstn (p : list charClass) (s : str) :
  matchSeq p (firstn (length p) s) = matchSeq p s.
Proof.
  revert s. induction p as [|f p IH]; intros [|c s]; simpl; try reflexivity.
  now rewrite IH.
Qed.

Lemma matchSeq_prefix (p : list charClass) (s r : str) :
  matchSeq p s = true -> matchSeq p (firstn (length p) s ++ r) = true.
Proof.
  revert s. induction p as [|f p IH]; intros [|c s] H; simpl in *;
    try reflexivity; try discriminate.
  apply andb_true_iff in H as [Hc H]. rewrite Hc. simpl. now apply IH.
Qed.

Lemma firstn_app_le {A : Type} (n : nat) (s t : list A) :
  n <= length s -> firstn n (s ++ t) = firstn n s.
Proof.
  intros H. rewrite firstn_app.
  replace (n - length s) with 0 by lia. simpl. apply app_nil_r.
Qed.

Lemma slice_app_le (a b : nat) (s t : str) :
  b <= length s -> slice a b (s ++ t) = slice a b s.
Proof.
  intros H. unfold slice.
  destruct (Nat.le_gt_cases a (length s)) as [Ha|Ha].
  - rewrite skipn_app. replace (a - length s) with 0 by lia. simpl.
    apply firstn_app_le. rewrite length_skipn. lia.
  - replace (b - a) with 0 by lia. reflexivity.
Qed.

Lemma matchTimestamp_app_white (s ws : str) :
  allWhite ws -> matchTimestamp (s ++ ws) = matchTimestamp s.
Proof.
  intros Hws. unfold matchTimestamp.
  rewrite !matchSeq_app_white by (auto using tsPattern_rejectsWhite).
  destruct (matchSeq (tsPattern 3) s) eqn:E3.
  - apply matchSeq_length in E3. simpl in E3.
    now rewrite !slice_app_le by lia.
  - destruct (matchSeq (tsPattern 2) s) eqn:E2; [|reflexivity].
    apply matchSeq_length in E2. simpl in E2.
    now rewrite !slice_app_le by lia.
Qed.

Lemma matchTimestamp_white (w : char) (s : str) :
  isWhite w = true -> matchTimestamp (w :: s) = None.
Proof.
  intros Hw. unfold matchTimestamp. simpl.
  assert (E : exactly "[" w = false) by now apply exactly_rejectsWhite.
  now rewrite E.
Qed.

(** ** The global scan *)

Lemma scanFrom_pos_indep (re : str -> option str) (s : str) :
  forall skip pos pos',
    map snd (scanFrom re skip pos s) = map snd (scanFrom re skip pos' s).
Proof.
  induction s as [|c s IH]; intros skip pos pos'; simpl; [reflexivity|].
  destruct skip as [|k]; [|apply IH].
  destruct (re (c :: s)); simpl; [f_equal|]; apply IH.
Qed.

Lemma scanFrom_white (ws : str) :
  allWhite ws -> forall skip pos, scanFrom timestampAt skip pos ws = [].
Proof.
  induction 1 as [|w ws Hw _ IH]; intros skip pos; simpl; [reflexivity|].
  destruct skip; [|apply IH].
  unfold timestampAt. rewrite matchTimestamp_white by assumption. apply IH.
Qed.

Lemma scanFrom_app_white (s ws : str) :
  allWhite ws ->
  forall skip pos,
    scanFrom timestampAt skip pos (s ++ ws) = scanFrom timestampAt skip pos s.
Proof.
  intros Hws. induction s as [|c s IH]; intros skip pos.
  - simpl. rewrite scanFrom_white by assumption. now destruct skip.
  - simpl. destruct skip; [|apply IH].
    unfold timestampAt.
    change (c :: s ++ ws) with ((c :: s) ++ ws).
    rewrite matchTimestamp_app_white by assumption.
    destruct (matchTimestamp (c :: s)); simpl; now rewrite IH.
Qed.

Lemma scanFrom_white_app (ws s : str) :
  allWhite ws ->
  forall pos,
    map snd (scanFrom timestampAt 0 pos (ws ++ s))
    = map snd (scanFrom timestampAt 0 pos s).
Proof.
  induction 1 as [|w ws Hw _ IH]; intros pos; [reflexivity|].
  simpl. unfold timestampAt at 1.
  rewrite matchTimestamp_white by assumption. simpl.
  rewrite IH. apply scanFrom_pos_indep.
Qed.

(** Trimming a line neither adds nor removes a timestamp token. *)
Lemma scanTimestamps_trim (l : str) :
  map snd (scanTimestamps (trim l)) = map snd (scanTimestamps l).
Proof.
  destruct (trim_decomp l) as [a [b [E [Wa Wb]]]].
  unfold scanTimestamps. rewrite E at 2.
  rewrite scanFrom_white_app by assumption.
  now rewrite scanFrom_app_white by assumption.
Qed.

(** ** The normalizer on lines without several timestamps *)

Lemma normalizeStep_single (st : NormState) (rawLine : str) :
  length (scanTimestamps rawLine) <= 1 ->
  normalizeStep st rawLine = pushLine st (trim rawLine).
Proof.
  intros H. unfold normalizeStep.
  destruct (isEmpty (trim rawLine) || isMetadata (trim rawLine));
    [reflexivity|].
  rewrite scanTimestamps_trim, length_map.
  apply Nat.leb_le in H. now rewrite H.
Qed.

Lemma fold_normalizeStep_single (lines : list str) :
  Forall (fun l => length (scanTimestamps l) <= 1) lines ->
  forall st,
    fold_left normalizeStep lines st
    = mkNormState (normalizedLines st ++ map trim lines)
                  (changesCount st) (expandedLinesCount st).
Proof.
  induction 1 as [|l lines Hl _ IH]; intros st; simpl.
  - rewrite app_nil_r. now destruct st.
  - rewrite IH, normalizeStep_single by assumption. simpl.
    now rewrite <- app_assoc.
Qed.

Lemma map_trim_fixed (ls : list str) :
  map trim ls = ls <-> Forall (fun l => trim l = l) ls.
Proof.
  induction ls as [|l ls IH]; simpl.
  - split; [constructor | reflexivity].
  - split.
    + intros E. injection E as E1 E2. constructor; [assumption | now apply IH].
    + intros H. inversion H; subst. f_equal; [assumption | now apply IH].
Qed.

Lemma map_trim_noNewline (ls : list str) :
  Forall noNewline ls -> Forall noNewline (map trim ls).
Proof.
  induction 1; simpl; constructor;
    [now apply trim_line_noNewline | assumption].
Qed.

(** C10. When no line of the input carries more than one bracket
    timestamp token, [normalizeLRC] reports no change and no expanded
    line, its normalized text is the input with every line replaced by its
    trimmed form, and that text equals the input exactly when every input
    line is already free of leading and trailing white space. *)
Theorem normalizeLRC_without_multi (content : str) :
  Forall (fun l => length (scanTimestamps l) <= 1) (split_nl content) ->
  changes (normalizeLRC content) = 0
  /\ expandedLines (normalizeLRC content) = 0
  /\ normalized (normalizeLRC content) = join_nl (map trim (split_nl content))
  /\ (normalized (normalizeLRC content) = content
      <-> Forall (fun l => trim l = l) (split_nl content)).
Proof.
  intros H. unfold normalizeLRC, normalizeLines.
  rewrite fold_normalizeStep_single by assumption. simpl.
  repeat split; try reflexivity.
  - intros E. apply map_trim_fixed.
    apply (f_equal split_nl) in E.
    rewrite split_join in E.
    + exact E.
    + pose proof (split_nl_nonempty content).
      destruct (split_nl content); [contradiction | discriminate].
    + apply map_trim_noNewline, split_nl_noNewline.
  - intros F. apply map_trim_fixed in F. rewrite F. apply join_split.
Qed.

Lemma normalizeLRC_without_multi_witness :
  let content := lit "[00:01.00]a" ++ nl ++ lit " b " in
  Forall (fun l => length (scanTimestamps l) <= 1) (split_nl content)
  /\ changes (normalizeLRC content) = 0
  /\ normalized (normalizeLRC content) = lit "[00:01.00]a" ++ nl ++ lit "b".
Proof.
  intros content.
  assert (H : Forall (fun l => length (scanTimestamps l) <= 1)
                     (split_nl content)).
  { vm_compute. repeat constructor. }
  split; [exact H|].
  destruct (normalizeLRC_without_multi content H) as [Hc [_ [Hn _]]].
  split; [exact Hc|]. rewrite Hn. reflexivity.
Defined.

(** ** The shape of a matched token *)

Lemma matchSeq_app (p q : list charClass) (s : str) :
  matchSeq (p ++ q) s = matchSeq p s && matchSeq q (skipn (length p) s).
Proof.
  revert s. induction p as [|f p IH]; intros s; simpl.
  - now destruct s.
  - destruct s as [|c s]; [reflexivity|].
    simpl. now rewrite IH, andb_assoc.
Qed.

Lemma matchSeq_Forall2 (p : list charClass) (s : str) :
  matchSeq p s = true ->
  Forall2 (fun f c => f c = true) p (firstn (length p) s).
Proof.
  revert s. induction p as [|f p IH]; intros [|c s] H; simpl in *;
    try discriminate; try constructor.
  - now apply andb_true_iff in H as [H _].
  - apply IH. now apply andb_true_iff in H as [_ H].
Qed.

Lemma exactly_true (a : ascii) (c : char) : exactly a c = true -> c = ch a.
Proof. unfold exactly, char_eqb. apply N.eqb_eq. Qed.

(** With two fraction digits matched, the third position holds the
    closing bracket, so the three-digit form does not match. *)
Lemma tsPattern_2_not_3 (s : str) :
  matchSeq (tsPattern 2) s = true -> matchSeq (tsPattern 3) s = false.
Proof.
  change (tsPattern 2) with (tsPattern 2 ++ []).
  change (tsPattern 3) with (firstn 9 (tsPattern 2) ++ [isDigit; exactly "]"]).
  change (tsPattern 2 ++ []) with (firstn 9 (tsPattern 2) ++ [exactly "]"]).
  rewrite !matchSeq_app. intros H.
  apply andb_true_iff in H as [_ H].
  destruct (skipn _ s) as [|c r]; [discriminate|].
  simpl in H. rewrite andb_true_r in H. apply exactly_true in H. subst c.
  simpl. apply andb_false_r.
Qed.

Lemma slice_0 (n : nat) (s : str) : slice 0 n s = firstn n s.
Proof. unfold slice. now rewrite Nat.sub_0_r. Qed.

Lemma timestampAt_inv (s tok : str) :
  timestampAt s = Some tok ->
  exists n, (n = 2 \/ n = 3)
            /\ matchSeq (tsPattern n) s = true
            /\ tok = firstn (length (tsPattern n)) s
            /\ matchTimestamp s
               = Some (mkTs tok (slice 1 3 s) (slice 4 6 s) (slice 7 (7 + n) s)).
Proof.
  unfold timestampAt, matchTimestamp. intros H.
  destruct (matchSeq (tsPattern 3) s) eqn:E3.
  - exists 3. injection H as <-. rewrite slice_0. repeat split; auto.
  - destruct (matchSeq (tsPattern 2) s) eqn:E2; [|discriminate].
    exists 2. injection H as <-. rewrite slice_0. repeat split; auto.
Qed.

Lemma timestampAt_length (s tok : str) :
  timestampAt s = Some tok -> length tok = 10 \/ length tok = 11.
Proof.
  intros H. apply timestampAt_inv in H as [n [Hn [Hm [-> _]]]].
  apply matchSeq_length in Hm. rewrite length_firstn.
  destruct Hn as [-> | ->];
    [change (length (tsPattern 2)) with 10 in * |
     change (length (tsPattern 3)) with 11 in *]; lia.
Qed.

Lemma timestampAt_firstn (s tok : str) :
  timestampAt s = Some tok -> s = tok ++ skipn (length tok) s.
Proof.
  intros H. apply timestampAt_inv in H as [n [_ [_ [-> _]]]].
  rewrite length_firstn.
  destruct (Nat.le_gt_cases (length (tsPattern n)) (length s)).
  - rewrite Nat.min_l by assumption. symmetry. apply firstn_skipn.
  - rewrite Nat.min_r by lia. rewrite firstn_all2 by lia.
    rewrite skipn_all. now rewrite app_nil_r.
Qed.

(** A token is recognised wherever its text occurs. *)
Lemma timestampAt_prefix (s tok r : str) :
  timestampAt s = Some tok -> timestampAt (tok ++ r) = Some tok.
Proof.
  intros H. apply timestampAt_inv in H as [n [Hn [Hm [-> _]]]].
  pose proof (matchSeq_length _ _ Hm) as Hlen.
  pose proof (matchSeq_prefix _ _ r Hm) as Hp.
  unfold timestampAt, matchTimestamp.
  destruct Hn as [-> | ->].
  - rewrite (tsPattern_2_not_3 _ Hp), Hp.
    change (length (tsPattern 2)) with 10 in *.
    cbn [option_map ts_text]. f_equal. rewrite slice_0.
    rewrite firstn_app_le by (rewrite length_firstn; lia).
    rewrite firstn_firstn. now rewrite Nat.min_id.
  - rewrite Hp.
    change (length (tsPattern 3)) with 11 in *.
    cbn [option_map ts_text]. f_equal. rewrite slice_0.
    rewrite firstn_app_le by (rewrite length_firstn; lia).
    rewrite firstn_firstn. now rewrite Nat.min_id.
Qed.

Lemma tsPattern_tail_rejects_bracket (n : nat) :
  Forall (fun f : charClass => f (ch "[") = false) (tl (tsPattern n)).
Proof.
  unfold tsPattern. simpl. repeat (constructor; [reflexivity|]).
  apply Forall_app. split; [|repeat constructor].
  induction n; simpl; constructor; [reflexivity | assumption].
Qed.

(** A token opens with a bracket and holds no other opening bracket. *)
Lemma timestampAt_shape (s tok : str) :
  timestampAt s = Some tok ->
  exists t, tok = ch "[" :: t /\ noBracket t.
Proof.
  intros H. apply timestampAt_inv in H as [n [_ [Hm [-> _]]]].
  apply matchSeq_Forall2 in Hm.
  pose proof (tsPattern_tail_rejects_bracket n) as Ht.
  change (tsPattern n) with (exactly "[" :: tl (tsPattern n)) in Hm |- *.
  revert Hm Ht. generalize (tl (tsPattern n)) as p. intros p Hm Ht.
  inversion Hm as [|f c p' u Hc Hu E1 E2]; subst.
  exists u. split.
  - simpl. rewrite <- E2. f_equal. now apply exactly_true.
  - clear - Hu Ht. induction Hu as [|g c p u Hg _ IH]; [constructor|].
    inversion Ht; subst. constructor; [|now apply IH].
    intros ->. congruence.
Qed.

Lemma isPrefixOf_true (t s : str) :
  isPrefixOf t s = true <-> exists r, s = t ++ r.
Proof.
  revert s. induction t as [|x t IH]; intros s; simpl.
  - split; [intros _; now exists s | reflexivity].
  - destruct s as [|y s].
    + split; [discriminate | intros [r E]; discriminate].
    + rewrite andb_true_iff, IH. unfold char_eqb. rewrite N.eqb_eq.
      split.
      * intros [-> [r ->]]. now exists r.
      * intros [r E]. injection E as -> ->. split; [reflexivity | now exists r].
Qed.

(** ** Where [lastIndexOf] finds the last token *)

Lemma isPrefixOf_token_nil (tok : str) : isToken tok -> isPrefixOf tok [] = false.
Proof.
  intros [s H]. apply timestampAt_shape in H as [t [-> _]]. reflexivity.
Qed.

Lemma isPrefixOf_token_other (tok : str) (c : char) (s : str) :
  isToken tok -> c <> ch "[" -> isPrefixOf tok (c :: s) = false.
Proof.
  intros [s0 H] Hc. apply timestampAt_shape in H as [t [-> _]].
  cbn [isPrefixOf]. unfold char_eqb.
  destruct (N.eqb_spec (ch "[") c); [congruence | reflexivity].
Qed.

Lemma token_tail_noBracket (c : char) (s tok : str) :
  timestampAt (c :: s) = Some tok -> noBracket (firstn (length tok - 1) s).
Proof.
  intros H. pose proof (timestampAt_firstn _ _ H) as E.
  apply timestampAt_shape in H as [t [-> Ht]].
  simpl in E. injection E as _ E. simpl. rewrite Nat.sub_0_r.
  rewrite E. rewrite firstn_app_le by lia. now rewrite firstn_all.
Qed.

(** After the last match, the text holds no further occurrence of a token. *)
Lemma lastIndexFrom_none (tok : str) (s : str) :
  isToken tok ->
  forall skip pos,
    noBracket (firstn skip s) ->
    scanFrom timestampAt skip pos s = [] ->
    lastIndexFrom tok s pos = None.
Proof.
  intros Htok. induction s as [|c s IH]; intros skip pos Hnb Hscan.
  - simpl. now rewrite isPrefixOf_token_nil.
  - simpl in Hscan. destruct skip as [|k].
    + destruct (timestampAt (c :: s)) as [tok'|] eqn:E; [discriminate|].
      cbn [lastIndexFrom]. rewrite (IH 0 (S pos)); [|constructor|assumption].
      destruct (isPrefixOf tok (c :: s)) eqn:P; [|reflexivity].
      apply isPrefixOf_true in P as [r P]. destruct Htok as [s0 H0].
      rewrite P, (timestampAt_prefix _ _ r H0) in E. discriminate.
    + simpl in Hnb. inversion Hnb as [|? ? Hc Hnb']; subst.
      cbn [lastIndexFrom]. rewrite (IH k (S pos)) by assumption.
      now rewrite isPrefixOf_token_other.
Qed.

(** The last occurrence of the last token's text is the last match. *)
Lemma lastIndexFrom_last (s : str) :
  forall skip pos,
    noBracket (firstn skip s) ->
    scanFrom timestampAt skip pos s <> [] ->
    let e := List.last (scanFrom timestampAt skip pos s) (0, []) in
    lastIndexFrom (snd e) s pos = Some (fst e).
Proof.
  induction s as [|c s IH]; intros skip pos Hnb Hne; [now simpl in Hne|].
  cbn [scanFrom] in *. destruct skip as [|k].
  - destruct (timestampAt (c :: s)) as [tok|] eqn:E.
    + pose proof (token_tail_noBracket _ _ _ E) as Hnb'.
      specialize (IH (length tok - 1) (S pos) Hnb').
      destruct (scanFrom timestampAt (length tok - 1) (S pos) s)
        as [|e r] eqn:R.
      * cbn [List.last snd fst lastIndexFrom].
        rewrite (lastIndexFrom_none tok s (ex_intro _ _ E) _ _ Hnb' R).
        assert (P : isPrefixOf tok (c :: s) = true).
        { apply isPrefixOf_true. eexists. apply (timestampAt_firstn _ _ E). }
        now rewrite P.
      * change (List.last ((pos, tok) :: e :: r) (0, []))
          with (List.last (e :: r) (0, [])).
        cbn zeta in IH |- *. cbn [lastIndexFrom].
        now rewrite IH.
    + cbn zeta. cbn [lastIndexFrom].
      rewrite (IH 0 (S pos)); [reflexivity | constructor | assumption].
  - simpl in Hnb. inversion Hnb as [|? ? Hc Hnb']; subst.
    cbn zeta. cbn [lastIndexFrom].
    rewrite (IH k (S pos)); [reflexivity | assumption | assumption].
Qed.

Lemma last_map_snd (l : list (nat * str)) :
  List.last (map snd l) [] = snd (List.last l (0, [])).
Proof.
  induction l as [|e l IH]; [reflexivity|].
  destruct l as [|e' l']; [reflexivity|]. exact IH.
Qed.

Lemma lyricsText_after_last (line : str) :
  scanTimestamps line <> [] ->
  let lastTimestamp := List.last (map snd (scanTimestamps line)) [] in
  substring_from line
    (lastIndexOf line lastTimestamp + Z.of_nat (length lastTimestamp))
  = textAfterLast line.
Proof.
  intros Hne. cbn zeta. rewrite last_map_snd.
  unfold lastIndexOf, textAfterLast, scanTimestamps in *.
  rewrite (lastIndexFrom_last line 0 0) by (assumption || constructor).
  unfold substring_from. f_equal. lia.
Qed.

(** ** The contribution of one line to [normalizeLRC] *)

Lemma fold_expandStep (txt : str) (ts : list str) :
  forall st,
    fold_left (expandStep txt) ts st
    = mkNormState
        (normalizedLines st ++ map (fun t => normalizeTimestamp t ++ txt) ts)
        (changesCount st) (expandedLinesCount st + length ts).
Proof.
  induction ts as [|t ts IH]; intros st; simpl.
  - rewrite app_nil_r, Nat.add_0_r. now destruct st.
  - rewrite IH. simpl. rewrite <- app_assoc. f_equal. lia.
Qed.

Lemma normalizeStep_contribution (st : NormState) (rawLine : str) :
  normalizeStep st rawLine
  = mkNormState (normalizedLines st ++ lineOutput rawLine)
                (changesCount st + lineChanges rawLine)
                (expandedLinesCount st + lineExpanded rawLine).
Proof.
  unfold lineOutput, lineChanges, lineExpanded, normalizeStep.
  destruct (isEmpty (trim rawLine) || isMetadata (trim rawLine)).
  { unfold pushLine. simpl. now rewrite !Nat.add_0_r. }
  destruct (length (map snd (scanTimestamps (trim rawLine))) <=? 1).
  { unfold pushLine. simpl. now rewrite !Nat.add_0_r. }
  rewrite !fold_expandStep. simpl. f_equal; lia.
Qed.

Lemma normalizeLines_contributions (lines : list str) :
  forall st,
    fold_left normalizeStep lines st
    = mkNormState (normalizedLines st ++ concat (map lineOutput lines))
                  (changesCount st + list_sum (map lineChanges lines))
                  (expandedLinesCount st + list_sum (map lineExpanded lines)).
Proof.
  induction lines as [|l lines IH]; intros st; simpl.
  - rewrite app_nil_r, !Nat.add_0_r. now destruct st.
  - rewrite IH, normalizeStep_contribution. simpl.
    rewrite <- app_assoc. f_equal; lia.
Qed.

Lemma scanTimestamps_trim_length (l : str) :
  length (scanTimestamps (trim l)) = length (scanTimestamps l).
Proof.
  rewrite <- (length_map snd (scanTimestamps (trim l))).
  rewrite scanTimestamps_trim. apply length_map.
Qed.





(** ** Timestamp Codec: the validator, the normalizer and the sorter *)

Lemma matchTimestamp_prefix (s r : str) (m : tsMatch) :
  matchTimestamp s = Some m -> matchTimestamp (ts_text m ++ r) = Some m.
Proof.
  intros H.
  assert (Ht : timestampAt s = Some (ts_text m))
    by (unfold timestampAt; now rewrite H).
  pose proof (timestampAt_prefix _ _ r Ht) as Hp.
  destruct (timestampAt_inv _ _ Ht) as [n [Hn [Hm [Etok Em]]]].
  destruct (timestampAt_inv _ _ Hp) as [n' [Hn' [Hm' [Etok' Em']]]].
  rewrite Em'. rewrite H in Em. rewrite Em. cbn [ts_text].
  apply matchSeq_length in Hm. apply matchSeq_length in Hm'.
  rewrite length_app in Hm'.
  assert (Enn : n' = n).
  { apply (f_equal (@length _)) in Etok, Etok'.
    rewrite length_firstn in Etok, Etok'. rewrite length_app in Etok'.
    destruct Hn as [-> | ->], Hn' as [-> | ->]; try reflexivity;
      change (length (tsPattern 2)) with 10 in *;
      change (length (tsPattern 3)) with 11 in *; lia. }
  subst n'. rewrite Etok at 2 3 4.
  assert (Hlen : 8 + n <= length s).
  { destruct Hn as [-> | ->]; exact Hm. }
  assert (Hfl : length (firstn (length (tsPattern n)) s) = 8 + n).
  { rewrite length_firstn.
    destruct Hn as [-> | ->];
      [change (length (tsPattern 2)) with 10 |
       change (length (tsPattern 3)) with 11]; lia. }
  assert (Hs : forall a b, b <= 8 + n ->
                 slice a b (firstn (length (tsPattern n)) s ++ r) = slice a b s).
  { intros a b Hb. rewrite slice_app_le by lia.
    rewrite <- (firstn_skipn (length (tsPattern n)) s) at 2.
    symmetry. apply slice_app_le. lia. }
  rewrite !Hs by lia. reflexivity.
Qed.

Lemma searchTimestamp_unfold (s : str) :
  searchTimestamp s
  = match matchTimestamp s with
    | Some m => Some m
    | None => match s with
              | [] => None
              | _ :: s' => searchTimestamp s'
              end
    end.
Proof. now destruct s. Qed.

Lemma searchTimestamp_token (s : str) (m : tsMatch) :
  matchTimestamp s = Some m -> searchTimestamp (ts_text m) = Some m.
Proof.
  intros H. apply (matchTimestamp_prefix s []) in H.
  rewrite app_nil_r in H.
  now rewrite searchTimestamp_unfold, H.
Qed.



(** C1. On the token [00:01.500] the validator computes 1500 ms (the
    fraction 500 rounded to 50 hundredths) while the sorter computes the
    key 6000 (the fraction read as 500 hundredths); with that key the
    sorter leaves a line at 1.5 s after a line at 5 s. *)
Theorem sortKey_three_digit_fraction :
  LrcValidator.parseTimestampToMs (lit "[00:01.500]") = Some 1500%Z
  /\ sortKey (lit "[00:01.500]") = Some 6000%Z
  /\ sortLRCLines (lit "[00:05.00]b" ++ nl ++ lit "[00:01.500]a")
     = lit "[00:05.00]b" ++ nl ++ lit "[00:01.500]a".
Proof. vm_compute. repeat split; reflexivity. Qed.

(** C3. [normalizeTimestamp] re-emits the token [00:01.995] with the
    three-digit fraction 100: the rounded value 100 is printed as it is,
    without a carry into the seconds. The validator reads the original
    token as 2000 ms and the re-emitted one as 1100 ms. *)
Theorem normalizeTimestamp_995 :
  normalizeTimestamp (lit "[00:01.995]") = lit "[00:01.100]"
  /\ LrcValidator.parseTimestampToMs (lit "[00:01.995]") = Some 2000%Z
  /\ LrcValidator.parseTimestampToMs (normalizeTimestamp (lit "[00:01.995]"))
     = Some 1100%Z.
Proof. vm_compute. repeat split; reflexivity. Qed.

(** ** Plain-lyrics extraction *)

Lemma matchTimestamp_nil : matchTimestamp [] = None.
Proof. reflexivity. Qed.

Lemma extractStep_timedText (plainLines : list str) (line : str) :
  extractStep plainLines line = plainLines ++ timedText line.
Proof.
  unfold extractStep, timedText, matchTimedLine.
  destruct (trim line) as [|c t] eqn:E.
  - cbn [isEmpty]. rewrite matchTimestamp_nil.
    destruct (isMetadata []); now rewrite app_nil_r.
  - cbn [isEmpty]. destruct (isMetadata (c :: t)); [now rewrite app_nil_r|].
    destruct (matchTimestamp (c :: t)) as [m|]; [|now rewrite app_nil_r].
    destruct (hasNoLineTerminator _); cbn [andb]; [|now rewrite app_nil_r].
    destruct (isEmpty _); cbn [negb]; [now rewrite app_nil_r | reflexivity].
Qed.

Lemma fold_extractStep (lines : list str) :
  forall plainLines,
    fold_left extractStep lines plainLines
    = plainLines ++ concat (map timedText lines).
Proof.
  induction lines as [|l ls IH]; intros acc; simpl.
  - now rewrite app_nil_r.
  - now rewrite IH, extractStep_timedText, <- app_assoc.
Qed.

(** C2 (amended). [extractPlainLyrics] joins, in document order, the
    trimmed text that follows the leading timestamp token of each line
    that is no metadata line, starts with such a token and has text after
    it; a line that does not start with a timestamp token gives nothing. *)
Theorem extractPlainLyrics_timed_lines (syncedLyrics : str) :
  extractPlainLyrics syncedLyrics
  = join_nl (concat (map timedText (split_nl syncedLyrics))).
Proof. unfold extractPlainLyrics. now rewrite fold_extractStep. Qed.

Lemma timedText_untimed (line : str) :
  matchTimestamp (trim line) = None -> timedText line = [].
Proof.
  intros H. unfold timedText. rewrite H. now destruct (isMetadata _).
Qed.

(** C2 as stated fails on a line without a timestamp prefix: its text is
    left after the stripping the specification describes, yet the
    extraction returns nothing for it. *)
Lemma extractPlainLyrics_counterexample :
  remainingText (lit "hello") = lit "hello"
  /\ extractPlainLyrics_spec (lit "hello") = lit "hello"
  /\ extractPlainLyrics (lit "hello") = []
  /\ extractPlainLyrics (lit "hello") <> extractPlainLyrics_spec (lit "hello").
Proof. vm_compute. repeat split; try reflexivity. discriminate. Qed.

(** ** The validator: what a pass appends *)

Lemma extends_refl {A : Type} (P : A -> Prop) (l : list A) : extends P l l.
Proof. exists []. split; [now rewrite app_nil_r | constructor]. Qed.

Lemma extends_snoc {A : Type} (P : A -> Prop) (l l' : list A) (a : A) :
  extends P l l' -> P a -> extends P l (l' ++ [a]).
Proof.
  intros [new [-> H]] Ha. exists (new ++ [a]). split.
  - now rewrite app_assoc.
  - apply Forall_app. split; [assumption | now constructor].
Qed.

Lemma extends_trans {A : Type} (P : A -> Prop) (l1 l2 l3 : list A) :
  extends P l1 l2 -> extends P l2 l3 -> extends P l1 l3.
Proof.
  intros [n1 [-> H1]] [n2 [-> H2]]. exists (n1 ++ n2). split.
  - now rewrite app_assoc.
  - apply Forall_app. now split.
Qed.

Lemma extends_weaken {A : Type} (P Q : A -> Prop) (l l' : list A) :
  (forall a, P a -> Q a) -> extends P l l' -> extends Q l l'.
Proof.
  intros HPQ [new [-> H]]. exists new. split; [reflexivity|].
  eapply List.Forall_impl; eassumption.
Qed.

Ltac extends_steps :=
  cbn [V.vs_issues V.timedLines V.pushIssue];
  repeat (apply extends_snoc; [|first [split; reflexivity | reflexivity]]);
  apply extends_refl.

(** One line appends issues and timed lines that carry its own number. *)
Lemma validateStep_extends (st : V.ValidateState) (rawLine : str) (index : nat) :
  extends (perLineIssueAt (index + 1))
          (V.vs_issues st) (V.vs_issues (V.validateStep st rawLine index))
  /\ extends (fun t => V.tl_line t = index + 1)
             (V.timedLines st) (V.timedLines (V.validateStep st rawLine index)).
Proof.
  unfold V.validateStep.
  destruct (isEmpty (trim rawLine)); [split; apply extends_refl|].
  destruct (isMetadata (trim rawLine)); [split; apply extends_refl|].
  destruct (0 <? length (map snd (scanFrom V.matchElrc 0 0 (trim rawLine))));
    destruct (length (map snd (scanTimestamps (trim rawLine))) =? 0);
    try (split; extends_steps);
    destruct (1 <? length (map snd (scanTimestamps (trim rawLine))));
    try (split; extends_steps);
    destruct (V.parseTimestampToMs _) as [ms|];
    try (split; extends_steps);
    destruct (ms <? 0)%Z;
    try (split; extends_steps);
    cbn [V.seenTimestamps V.pushIssue];
    destruct (_ !! ms);
    destruct (negb (V.testSingleTimestamp (trim rawLine)));
    split; extends_steps.
Qed.

Lemma forEachFrom_app {S A : Type} (f : S -> A -> nat -> S) (l1 l2 : list A) :
  forall k st,
    V.forEachFrom f k (l1 ++ l2) st
    = V.forEachFrom f (k + length l1) l2 (V.forEachFrom f k l1 st).
Proof.
  induction l1 as [|x l1 IH]; intros k st; simpl.
  - now rewrite Nat.add_0_r.
  - rewrite IH. f_equal. lia.
Qed.

(** The lines from index [k] on append issues and timed lines numbered
    from [k + 1] to [k + length lines]. *)
Lemma forEachFrom_extends (lines : list str) :
  forall k st,
    let st' := V.forEachFrom V.validateStep k lines st in
    extends (fun i => k + 1 <= V.line i <= k + length lines
                      /\ isPerLineType (V.type i) = true)
            (V.vs_issues st) (V.vs_issues st')
    /\ extends (fun t => k + 1 <= V.tl_line t <= k + length lines)
               (V.timedLines st) (V.timedLines st').
Proof.
  induction lines as [|l lines IH]; intros k st; cbn zeta.
  - split; apply extends_refl.
  - cbn [V.forEachFrom length].
    destruct (validateStep_extends st l k) as [HI HT].
    destruct (IH (k + 1) (V.validateStep st l k)) as [HI' HT'].
    split.
    + eapply extends_trans.
      * eapply extends_weaken; [|exact HI].
        intros i [Hl Ht]. split; [lia | assumption].
      * eapply extends_weaken; [|exact HI'].
        cbn beta. intros i [Hl Ht]. split; [lia | assumption].
    + eapply extends_trans.
      * eapply extends_weaken; [|exact HT]. cbn beta. intros t Hl. lia.
      * eapply extends_weaken; [|exact HT']. cbn beta. intros t Hl. lia.
Qed.

Lemma perLinePass_issues (content : str) :
  Forall (fun i => isPerLineType (V.type i) = true)
         (V.vs_issues (V.perLinePass content)).
Proof.
  destruct (forEachFrom_extends (split_nl content) 0 initValidate)
    as [[new [E H]] _].
  unfold V.perLinePass. fold initValidate. rewrite E. simpl.
  eapply List.Forall_impl; [|exact H]. now intros i [_ Ht].
Qed.

(** ** The adjacent-pair loops *)

Lemma adjacent_In {A : Type} (l : list A) (p : A * A) :
  In p (V.adjacent l) -> In (snd p) l.
Proof.
  induction l as [|a l IH]; [intros []|].
  destruct l as [|b l']; [intros []|].
  cbn [V.adjacent]. intros [<- | H]; [right; now left|].
  right. now apply IH.
Qed.

Lemma fold_pairs_extends (timed : list V.TimedLine)
  (step : list V.LRCValidationIssue -> V.TimedLine * V.TimedLine
          -> list V.LRCValidationIssue) :
  (forall issues p, In (snd p) timed ->
                    extends (crossIssue timed) issues (step issues p)) ->
  forall pairs issues,
    (forall p, In p pairs -> In (snd p) timed) ->
    extends (crossIssue timed) issues (fold_left step pairs issues).
Proof.
  intros Hstep. induction pairs as [|p pairs IH]; intros issues Hin; simpl.
  - apply extends_refl.
  - eapply extends_trans.
    + apply Hstep. apply Hin. now left.
    + apply IH. intros q Hq. apply Hin. now right.
Qed.

Lemma outOfOrderStep_extends (timed : list V.TimedLine) issues p :
  In (snd p) timed -> extends (crossIssue timed) issues (V.outOfOrderStep issues p).
Proof.
  destruct p as [prev cur]. intros Hin. unfold V.outOfOrderStep.
  destruct (_ <? _)%Z; [|apply extends_refl].
  apply extends_snoc; [apply extends_refl|].
  split; [now left | now exists cur].
Qed.

Lemma gapStep_extends (timed : list V.TimedLine) issues p :
  In (snd p) timed -> extends (crossIssue timed) issues (V.gapStep issues p).
Proof.
  destruct p as [prev cur]. intros Hin. unfold V.gapStep.
  destruct (_ <? _)%Z; [|apply extends_refl].
  apply extends_snoc; [apply extends_refl|].
  split; [right; now left | now exists cur].
Qed.

Lemma overlapStep_extends (timed : list V.TimedLine) issues p :
  In (snd p) timed -> extends (crossIssue timed) issues (V.overlapStep issues p).
Proof.
  destruct p as [prev cur]. intros Hin. unfold V.overlapStep.
  destruct (_ =? _)%Z; [apply extends_refl|].
  destruct (_ && _); [|apply extends_refl].
  apply extends_snoc; [apply extends_refl|].
  split; [right; now right | now exists cur].
Qed.

(** The issue list of [validateLRC]: the per-line issues, then the
    cross-line issues, then at most the no-timestamps issue. *)
Lemma allIssues_structure (content : str) :
  let st := V.perLinePass content in
  exists cross final,
    V.allIssues content = V.vs_issues st ++ cross ++ final
    /\ Forall (crossIssue (V.timedLines st)) cross
    /\ final = (if (length (V.timedLines st) =? 0)
                   && (0 <? length (trim content))
                then [V.noTimestampsIssue content] else []).
Proof.
  cbn zeta. unfold V.allIssues.
  set (st := V.perLinePass content).
  set (pairs := V.adjacent (V.timedLines st)).
  assert (Hin : forall p, In p pairs -> In (snd p) (V.timedLines st))
    by (intros p; apply adjacent_In).
  pose proof (fold_pairs_extends _ _ (outOfOrderStep_extends (V.timedLines st))
                pairs (V.vs_issues st) Hin) as [n1 [E1 H1]].
  rewrite E1.
  pose proof (fold_pairs_extends _ _ (gapStep_extends (V.timedLines st))
                pairs (V.vs_issues st ++ n1) Hin) as [n2 [E2 H2]].
  rewrite E2.
  pose proof (fold_pairs_extends _ _ (overlapStep_extends (V.timedLines st))
                pairs ((V.vs_issues st ++ n1) ++ n2) Hin) as [n3 [E3 H3]].
  rewrite E3.
  exists (n1 ++ n2 ++ n3). eexists. split; [|split; [|reflexivity]].
  - destruct (_ && _); rewrite <- ?app_assoc; [reflexivity|].
    now rewrite app_nil_r.
  - repeat (apply Forall_app; split); assumption.
Qed.

Lemma filter_none {A : Type} (p : A -> bool) (l : list A) :
  Forall (fun x => p x = false) l -> List.filter p l = [].
Proof.
  induction 1 as [|x l Hx _ IH]; simpl; [reflexivity|]. now rewrite Hx.
Qed.

Lemma crossIssue_nil (cross : list V.LRCValidationIssue) :
  Forall (crossIssue []) cross -> cross = [].
Proof.
  destruct 1 as [|i l [_ [cur [[] _]]] _]. reflexivity.
Qed.

(** ** The no-timestamps diagnostic *)

(** C6. When the trimmed content is not empty and no line was
    successfully timed, the issues of [validateLRC] hold exactly one
    no-timestamps issue: an error on line 1 whose [raw] field is the first
    100 code units of the content, followed by three dots exactly when the
    content is longer than 100; and the result is not valid. *)
Theorem validateLRC_no_timestamps (content : str) :
  0 < length (trim content) ->
  V.timedLines (V.perLinePass content) = [] ->
  exists issue,
    List.filter (fun i => V.IssueType_eqb (V.type i) V.NoTimestamps)
                (V.issues (V.validateLRC content)) = [issue]
    /\ V.type issue = V.NoTimestamps
    /\ V.severity issue = V.Error
    /\ V.line issue = 1
    /\ V.raw issue
       = firstn 100 content
         ++ (if 100 <? length content then lit "..." else [])
    /\ V.isValid (V.validateLRC content) = false.
Proof.
  intros Htrim Htimed.
  destruct (allIssues_structure content) as [cross [final [E [Hc Hf]]]].
  rewrite Htimed in Hc, Hf. apply crossIssue_nil in Hc. subst cross.
  assert (Hlen : (0 <? length (trim content)) = true)
    by (now apply Nat.ltb_lt).
  rewrite Hlen in Hf. cbn in Hf. subst final.
  exists (V.noTimestampsIssue content).
  cbn [V.validateLRC V.issues V.isValid]. rewrite E. cbn [app].
  split; [|repeat split].
  - rewrite List.filter_app, filter_none; [reflexivity|].
    eapply List.Forall_impl; [|apply perLinePass_issues].
    intros i Hi. cbn beta in *. now destruct (V.type i).
  - rewrite length_app. cbn [length]. apply Nat.eqb_neq. lia.
Qed.

Lemma validateLRC_no_timestamps_witness :
  let content :=
    lit "These are plain lyrics without any timestamp, one long line that runs past one hundred characters in total." in
  exists issue,
    List.filter (fun i => V.IssueType_eqb (V.type i) V.NoTimestamps)
                (V.issues (V.validateLRC content)) = [issue]
    /\ V.raw issue
       = lit "These are plain lyrics without any timestamp, one long line that runs past one hundred characters in..."
    /\ V.isValid (V.validateLRC content) = false.
Proof.
  intros content.
  destruct (validateLRC_no_timestamps content) as [issue [H1 [_ [_ [_ [H2 H3]]]]]];
    [vm_compute; lia | reflexivity |].
  exists issue. split; [exact H1|]. split; [|exact H3].
  rewrite H2. reflexivity.
Defined.

(** ** The multi-timestamp flag and the pre-submit check *)

Lemma countMulti_snoc (l : list V.LRCValidationIssue) (a : V.LRCValidationIssue) :
  countMulti (l ++ [a]) = countMulti l + (if isMulti a then 1 else 0).
Proof.
  unfold countMulti. rewrite List.filter_app, length_app. simpl.
  now destruct (isMulti a).
Qed.

Ltac count_steps :=
  cbn [V.vs_issues V.multiTimestampCount V.pushIssue];
  rewrite ?countMulti_snoc; cbn; lia.

(** The counter behind [hasMultiTimestamps] counts the multi-timestamp
    issues. *)
Lemma validateStep_countMulti (st : V.ValidateState) (rawLine : str) (index : nat) :
  V.multiTimestampCount st = countMulti (V.vs_issues st) ->
  V.multiTimestampCount (V.validateStep st rawLine index)
  = countMulti (V.vs_issues (V.validateStep st rawLine index)).
Proof.
  intros H. unfold V.validateStep.
  destruct (isEmpty (trim rawLine)); [exact H|].
  destruct (isMetadata (trim rawLine)); [exact H|].
  destruct (0 <? length (map snd (scanFrom V.matchElrc 0 0 (trim rawLine))));
    destruct (length (map snd (scanTimestamps (trim rawLine))) =? 0);
    try count_steps;
    destruct (1 <? length (map snd (scanTimestamps (trim rawLine))));
    try count_steps;
    destruct (V.parseTimestampToMs _) as [ms|];
    try count_steps;
    destruct (ms <? 0)%Z;
    try count_steps;
    cbn [V.seenTimestamps V.pushIssue];
    destruct (_ !! ms);
    destruct (negb (V.testSingleTimestamp (trim rawLine)));
    count_steps.
Qed.

Lemma forEachFrom_countMulti (lines : list str) :
  forall k st,
    V.multiTimestampCount st = countMulti (V.vs_issues st) ->
    let st' := V.forEachFrom V.validateStep k lines st in
    V.multiTimestampCount st' = countMulti (V.vs_issues st').
Proof.
  induction lines as [|l lines IH]; intros k st H; [exact H|].
  cbn [V.forEachFrom]. apply IH. now apply validateStep_countMulti.
Qed.

Lemma crossIssue_not_multi (timed : list V.TimedLine) (cross : list V.LRCValidationIssue) :
  Forall (crossIssue timed) cross -> Forall (fun i => isMulti i = false) cross.
Proof.
  apply List.Forall_impl. intros i [[H | [H | H]] _]; unfold isMulti;
    now rewrite H.
Qed.

(** [hasMultiTimestamps] holds exactly when a multi-timestamp issue is
    among the issues. *)
Lemma hasMultiTimestamps_issue (content : str) :
  V.hasMultiTimestamps (V.validateLRC content)
  = existsb isMulti (V.issues (V.validateLRC content)).
Proof.
  cbn [V.validateLRC V.hasMultiTimestamps V.issues].
  destruct (allIssues_structure content) as [cross [final [E [Hc Hf]]]].
  rewrite E.
  pose proof (forEachFrom_countMulti (split_nl content) 0 initValidate eq_refl)
    as Hcount.
  cbn zeta in Hcount. fold (V.perLinePass content) in Hcount.
  unfold initValidate in Hcount. fold (V.perLinePass content) in Hcount.
  rewrite Hcount. unfold countMulti.
  apply crossIssue_not_multi in Hc.
  assert (Hfin : Forall (fun i => isMulti i = false) final).
  { subst final. destruct (_ && _); repeat constructor. }
  rewrite !existsb_app.
  assert (Hno : forall l, Forall (fun i => isMulti i = false) l ->
                          existsb isMulti l = false).
  { induction 1 as [|x l Hx _ IH]; simpl; [reflexivity|]. now rewrite Hx. }
  rewrite (Hno _ Hc), (Hno _ Hfin), !orb_false_r.
  generalize (V.vs_issues (V.perLinePass content)) as l.
  induction l as [|x l IH]; simpl; [reflexivity|].
  destruct (isMulti x); simpl; [reflexivity | exact IH].
Qed.

(** C7. [validateBeforeSubmit] returns false (blocks the submission)
    exactly when the synced-lyrics field is not blank and its validation
    result has issues and has the multi-timestamp flag set; hence, when
    the result has error-severity issues but no multi-timestamp issue,
    it returns true. *)
Theorem validateBeforeSubmit_blocks_iff (p : Page.PageState) :
  let r := V.validateSyncedLyrics (Page.syncedLyrics p) in
  (fst (Page.validateBeforeSubmit p) = false
   <-> trim (Page.syncedLyrics p) <> []
       /\ V.issues r <> []
       /\ V.hasMultiTimestamps r = true)
  /\ (V.hasErrors r = true ->
      existsb isMulti (V.issues r) = false ->
      fst (Page.validateBeforeSubmit p) = true).
Proof.
  cbn zeta. unfold Page.validateBeforeSubmit, V.validateSyncedLyrics.
  rewrite <- hasMultiTimestamps_issue.
  set (r := V.validateLRC (Page.syncedLyrics p)).
  assert (Hvalid : V.isValid r = true <-> V.issues r = []).
  { subst r. cbn [V.validateLRC V.isValid V.issues].
    rewrite Nat.eqb_eq. apply length_zero_iff_nil. }
  destruct (trim (Page.syncedLyrics p)) as [|c t]; cbn [isEmpty].
  - split; [|reflexivity]. split; [discriminate | now intros [[] _]].
  - destruct (V.isValid r) eqn:Ev; cbn [negb andb].
    + split; [|reflexivity]. split; [discriminate|].
      intros [_ [Hi _]]. elim Hi. now apply Hvalid.
    + destruct (V.hasMultiTimestamps r) eqn:Em; cbn [fst].
      * split; [|discriminate]. split; [|reflexivity].
        intros _. repeat split; [discriminate|].
        intros Hi. apply Hvalid in Hi. congruence.
      * split; [|reflexivity]. split; [discriminate|].
        intros [_ [_ H]]. discriminate.
Qed.

Lemma validateBeforeSubmit_blocks_iff_witness :
  let p := Page.mkPage (lit "[00:01.00]la <00:01.50>la" ++ nl ++ lit "x[00:02.00]y")
             None false true in
  V.hasErrors (V.validateSyncedLyrics (Page.syncedLyrics p)) = true
  /\ fst (Page.validateBeforeSubmit p) = true.
Proof.
  intros p. split; [reflexivity|].
  apply (validateBeforeSubmit_blocks_iff p); reflexivity.
Defined.

(** ** The first-seen table *)

Ltac seen_steps Hinv :=
  let k := fresh "k" in
  let v := fresh "v" in
  let Hk := fresh "Hk" in
  let t := fresh "t" in
  let Hin := fresh "Hin" in
  let Ht := fresh "Ht" in
  intros k v Hk;
  cbn [V.seenTimestamps V.timedLines V.pushIssue] in Hk |- *;
  first
    [ apply lookup_insert_Some in Hk as [[<- <-] | [_ Hk]];
      [ eexists; split; [apply in_or_app; right; left; reflexivity | reflexivity]
      | destruct (Hinv k v Hk) as [t [Hin Ht]]; exists t;
        split; [apply in_or_app; now left | exact Ht] ]
    | destruct (Hinv k v Hk) as [t [Hin Ht]]; exists t;
      split; [first [exact Hin | apply in_or_app; now left] | exact Ht] ].

Lemma validateStep_seenFromTimed (st : V.ValidateState) (rawLine : str) (index : nat) :
  seenFromTimed st -> seenFromTimed (V.validateStep st rawLine index).
Proof.
  intros Hinv. unfold V.validateStep.
  destruct (isEmpty (trim rawLine)); [exact Hinv|].
  destruct (isMetadata (trim rawLine)); [exact Hinv|].
  destruct (0 <? length (map snd (scanFrom V.matchElrc 0 0 (trim rawLine))));
    destruct (length (map snd (scanTimestamps (trim rawLine))) =? 0);
    try (seen_steps Hinv);
    destruct (1 <? length (map snd (scanTimestamps (trim rawLine))));
    try (seen_steps Hinv);
    destruct (V.parseTimestampToMs _) as [ms|];
    try (seen_steps Hinv);
    destruct (ms <? 0)%Z;
    try (seen_steps Hinv);
    cbn [V.seenTimestamps V.pushIssue];
    destruct (_ !! ms);
    destruct (negb (V.testSingleTimestamp (trim rawLine)));
    seen_steps Hinv.
Qed.

Lemma forEachFrom_seenFromTimed (lines : list str) :
  forall k st,
    seenFromTimed st ->
    seenFromTimed (V.forEachFrom V.validateStep k lines st).
Proof.
  induction lines as [|l lines IH]; intros k st H; [exact H|].
  cbn [V.forEachFrom]. apply IH. now apply validateStep_seenFromTimed.
Qed.

Lemma perLinePass_seenFromTimed (content : str) :
  seenFromTimed (V.perLinePass content).
Proof.
  apply forEachFrom_seenFromTimed. intros ms v H.
  cbn [V.seenTimestamps] in H. rewrite lookup_empty in H. discriminate.
Qed.

(** ** A line with several timestamps in the validator *)

Lemma validateStep_multi (st : V.ValidateState) (rawLine : str) (index : nat) :
  isMetadata (trim rawLine) = false ->
  1 < length (scanTimestamps rawLine) ->
  exists elrcPart,
    Forall (fun i => V.type i = V.ElrcWordTiming) elrcPart
    /\ V.validateStep st rawLine index
       = V.mkVState
           (V.vs_issues st ++ elrcPart
            ++ [V.multiIssue index (trim rawLine)
                  (map snd (scanTimestamps (trim rawLine)))])
           (S (V.multiTimestampCount st))
           (V.elrcCount st + length elrcPart)
           (V.timedLines st) (V.seenTimestamps st).
Proof.
  intros Hmeta HN. unfold V.validateStep.
  rewrite <- scanTimestamps_trim_length in HN.
  assert (Hemp : isEmpty (trim rawLine) = false).
  { destruct (trim rawLine); [simpl in HN; lia | reflexivity]. }
  rewrite Hemp, Hmeta.
  assert (H0 : (length (map snd (scanTimestamps (trim rawLine))) =? 0) = false)
    by (rewrite length_map; apply Nat.eqb_neq; lia).
  assert (H1 : (1 <? length (map snd (scanTimestamps (trim rawLine)))) = true)
    by (rewrite length_map; now apply Nat.ltb_lt).
  rewrite H0, H1.
  destruct (0 <? length (map snd (scanFrom V.matchElrc 0 0 (trim rawLine)))).
  - exists [V.elrcIssue index (trim rawLine)
              (map snd (scanFrom V.matchElrc 0 0 (trim rawLine)))].
    split; [repeat constructor|].
    cbn [V.vs_issues V.multiTimestampCount V.elrcCount
         V.timedLines V.seenTimestamps length].
    rewrite <- app_assoc. f_equal. lia.
  - exists []. split; [constructor|].
    cbn [app length]. f_equal. lia.
Qed.

(** C8. For a line that is not a metadata line and on which the global
    scan finds more than one bracket timestamp token, [validateLRC] emits
    exactly one multi-timestamp issue for that line, a warning; the line
    is not entered into the timed-line sequence nor into the table of
    first-seen timestamps; and no issue on that line
    is of another type than ELRC word timing (checked before the scan),
    multi-timestamp, or the content-wide no-timestamps issue that always
    names line 1: in particular none is a duplicate, out-of-order,
    excessive-gap or overlap diagnostic. *)
Theorem validateLRC_multi_timestamp_line (content : str)
  (pre post : list str) (rawLine : str) :
  split_nl content = pre ++ rawLine :: post ->
  isMetadata (trim rawLine) = false ->
  1 < length (scanTimestamps rawLine) ->
  let lineNo := length pre + 1 in
  let r := V.validateLRC content in
  (exists issue,
     List.filter (fun i => isMulti i && (V.line i =? lineNo)) (V.issues r)
     = [issue]
     /\ V.severity issue = V.Warning
     /\ V.raw issue = trim rawLine
     /\ V.timestamps issue = Some (map snd (scanTimestamps (trim rawLine))))
  /\ Forall (fun t => V.tl_line t <> lineNo) (V.timedLines (V.perLinePass content))
  /\ (forall ms, V.seenTimestamps (V.perLinePass content) !! ms <> Some lineNo)
  /\ Forall (fun i => V.line i = lineNo ->
                      V.type i = V.ElrcWordTiming
                      \/ V.type i = V.MultiTimestamp
                      \/ V.type i = V.NoTimestamps)
            (V.issues r).
Proof.
  intros Hsplit Hmeta HN lineNo r.
  destruct (allIssues_structure content) as [cross [final [E [Hc Hf]]]].
  (* the per-line pass, cut at the line *)
  assert (Hpass : exists I1 I3 T1 T3 elrcPart,
    V.vs_issues (V.perLinePass content)
    = I1 ++ elrcPart
      ++ [V.multiIssue (length pre) (trim rawLine)
            (map snd (scanTimestamps (trim rawLine)))] ++ I3
    /\ V.timedLines (V.perLinePass content) = T1 ++ T3
    /\ Forall (fun i => V.line i < lineNo) I1
    /\ Forall (fun i => V.type i = V.ElrcWordTiming) elrcPart
    /\ Forall (fun i => lineNo < V.line i) I3
    /\ Forall (fun t => V.tl_line t < lineNo) T1
    /\ Forall (fun t => lineNo < V.tl_line t) T3).
  { unfold V.perLinePass. rewrite Hsplit. fold initValidate.
    rewrite forEachFrom_app. cbn [V.forEachFrom Nat.add].
    destruct (forEachFrom_extends pre 0 initValidate)
      as [[I1 [EI1 HI1]] [T1 [ET1 HT1]]].
    set (st1 := V.forEachFrom V.validateStep 0 pre initValidate) in *.
    destruct (validateStep_multi st1 rawLine (length pre) Hmeta HN)
      as [elrcPart [Helrc Estep]].
    rewrite Estep.
    match goal with
    | |- context [V.forEachFrom V.validateStep ?k post ?st] =>
        destruct (forEachFrom_extends post k st)
          as [[I3 [EI3 HI3]] [T3 [ET3 HT3]]]
    end.
    exists I1, I3, T1, T3, elrcPart.
    rewrite EI3, ET3. cbn [V.vs_issues V.timedLines].
    rewrite EI1, ET1. cbn [initValidate V.vs_issues V.timedLines app].
    repeat split.
    - now rewrite <- !app_assoc.
    - eapply List.Forall_impl; [|exact HI1]. cbn beta. unfold lineNo. lia.
    - exact Helrc.
    - eapply List.Forall_impl; [|exact HI3]. cbn beta. unfold lineNo. lia.
    - eapply List.Forall_impl; [|exact HT1]. cbn beta. unfold lineNo. lia.
    - eapply List.Forall_impl; [|exact HT3]. cbn beta. unfold lineNo. lia. }
  destruct Hpass as [I1 [I3 [T1 [T3 [elrcPart
    [EI [ET [HI1 [Helrc [HI3 [HT1 HT3]]]]]]]]]]].
  assert (Htimed : Forall (fun t => V.tl_line t <> lineNo)
                          (V.timedLines (V.perLinePass content))).
  { rewrite ET. apply Forall_app. split.
    - eapply List.Forall_impl; [|exact HT1]. cbn beta. lia.
    - eapply List.Forall_impl; [|exact HT3]. cbn beta. lia. }
  assert (Hcross : Forall (fun i => V.line i <> lineNo /\ isMulti i = false) cross).
  { eapply List.Forall_impl; [|exact Hc].
    intros i [Ht [cur [Hin El]]]. split.
    - rewrite El. clear El. revert cur Hin. apply List.Forall_forall.
      exact Htimed.
    - unfold isMulti. destruct Ht as [Ht | [Ht | Ht]]; now rewrite Ht. }
  assert (Hfinal : Forall (fun i => V.type i = V.NoTimestamps) final).
  { subst final. destruct (_ && _); repeat constructor. }
  assert (Hseen : forall ms,
            V.seenTimestamps (V.perLinePass content) !! ms <> Some lineNo).
  { intros ms Hms.
    destruct (perLinePass_seenFromTimed content ms lineNo Hms) as [t [Hin Ht]].
    rewrite List.Forall_forall in Htimed. now apply (Htimed t Hin). }
  subst r. cbn [V.validateLRC V.issues]. rewrite E, EI.
  split; [|split; [exact Htimed|split; [exact Hseen|]]].
  - exists (V.multiIssue (length pre) (trim rawLine)
              (map snd (scanTimestamps (trim rawLine)))).
    split; [|repeat split].
    rewrite !List.filter_app.
    rewrite (filter_none _ I1), (filter_none _ elrcPart), (filter_none _ I3),
      (filter_none _ cross), (filter_none _ final).
    + cbn [List.filter V.multiIssue isMulti V.type V.line V.IssueType_eqb andb app].
      fold lineNo. now rewrite Nat.eqb_refl.
    + eapply List.Forall_impl; [|exact Hfinal]. intros i Hi. cbn beta.
      unfold isMulti. now rewrite Hi.
    + eapply List.Forall_impl; [|exact Hcross]. intros i [_ Hi]. cbn beta.
      now rewrite Hi.
    + eapply List.Forall_impl; [|exact HI3]. intros i Hi. cbn beta in *.
      apply andb_false_iff. right. apply Nat.eqb_neq. lia.
    + eapply List.Forall_impl; [|exact Helrc]. intros i Hi. cbn beta.
      unfold isMulti. now rewrite Hi.
    + eapply List.Forall_impl; [|exact HI1]. intros i Hi. cbn beta in *.
      apply andb_false_iff. right. apply Nat.eqb_neq. lia.
  - repeat (apply Forall_app; split).
    + eapply List.Forall_impl; [|exact HI1]. cbn beta. intros i Hi. lia.
    + eapply List.Forall_impl; [|exact Helrc]. cbn beta. intros i Hi _. now left.
    + constructor; [intros _; right; now left | constructor].
    + eapply List.Forall_impl; [|exact HI3]. cbn beta. intros i Hi. lia.
    + eapply List.Forall_impl; [|exact Hcross]. cbn beta. intros i [Hi _] Hl.
      contradiction.
    + eapply List.Forall_impl; [|exact Hfinal]. cbn beta. intros i Hi _.
      right. now right.
Qed.

Lemma validateLRC_multi_timestamp_line_witness :
  let content := lit "[00:01.00]a" ++ nl ++ lit "[00:02.00][00:03.00] chorus"
                 ++ nl ++ lit "[00:02.00]b" in
  (exists issue,
     List.filter (fun i => isMulti i && (V.line i =? 2))
                 (V.issues (V.validateLRC content)) = [issue]
     /\ V.severity issue = V.Warning)
  /\ Forall (fun t => V.tl_line t <> 2) (V.timedLines (V.perLinePass content)).
Proof.
  intros content.
  destruct (validateLRC_multi_timestamp_line content [lit "[00:01.00]a"]
              [lit "[00:02.00]b"] (lit "[00:02.00][00:03.00] chorus"))
    as [[issue [H1 [H2 _]]] [H3 _]];
    [reflexivity | reflexivity | vm_compute; lia |].
  split; [exists issue; split; assumption | exact H3].
Defined.

(** ** The groups of a match, digit by digit *)

Ltac peel H s :=
  let c := fresh "c" in
  let Hc := fresh "Hc" in
  destruct s as [|c s]; cbn [matchSeq] in H; [discriminate H|];
  apply andb_true_iff in H as [Hc H].

Lemma matchSeq_tsPattern_inv (n : nat) (s : str) :
  n = 2 \/ n = 3 ->
  matchSeq (tsPattern n) s = true ->
  exists m1 m2 s1 s2 fr rest,
    s = tokenText [m1; m2] [s1; s2] fr ++ rest
    /\ length fr = n
    /\ allDigits [m1; m2] /\ allDigits [s1; s2] /\ allDigits fr.
Proof.
  intros [-> | ->] H; unfold tsPattern in H; cbn [app repeat] in H.
  - do 10 peel H s.
    apply exactly_true in Hc, Hc2, Hc5, Hc8. subst.
    exists c0, c1, c3, c4, [c6; c7], s. unfold allDigits. cbn [forallb].
    rewrite Hc0, Hc1, Hc3, Hc4, Hc6, Hc7. repeat split.
  - do 11 peel H s.
    apply exactly_true in Hc, Hc2, Hc5, Hc9. subst.
    exists c0, c1, c3, c4, [c6; c7; c8], s. unfold allDigits. cbn [forallb].
    rewrite Hc0, Hc1, Hc3, Hc4, Hc6, Hc7, Hc8. repeat split.
Qed.

Lemma isDigit_not_bracket (c : char) : isDigit c = true -> exactly "]" c = false.
Proof.
  intros H. destruct (exactly "]" c) eqn:E; [|reflexivity].
  apply exactly_true in E. subst c. discriminate H.
Qed.

(** A text built from digit groups is matched, with these groups. *)
Lemma matchTimestamp_build (m1 m2 s1 s2 : char) (fr rest : str) :
  length fr = 2 \/ length fr = 3 ->
  allDigits [m1; m2] -> allDigits [s1; s2] -> allDigits fr ->
  matchTimestamp (tokenText [m1; m2] [s1; s2] fr ++ rest)
  = Some (mkTs (tokenText [m1; m2] [s1; s2] fr) [m1; m2] [s1; s2] fr).
Proof.
  unfold allDigits. cbn [forallb]. intros Hlen Hm Hs Hf.
  apply andb_true_iff in Hm as [Hm1 Hm]. apply andb_true_iff in Hm as [Hm2 _].
  apply andb_true_iff in Hs as [Hs1 Hs]. apply andb_true_iff in Hs as [Hs2 _].
  destruct fr as [|f1 [|f2 [|f3 [|f4 fr]]]];
    try (destruct Hlen as [Hlen | Hlen]; discriminate Hlen).
  - cbn [forallb] in Hf.
    apply andb_true_iff in Hf as [Hf1 Hf]. apply andb_true_iff in Hf as [Hf2 _].
    unfold matchTimestamp, tsPattern, tokenText.
    cbn [app repeat matchSeq].
    rewrite Hm1, Hm2, Hs1, Hs2, Hf1, Hf2.
    change (exactly "[" (ch "[")) with true.
    change (exactly ":" (ch ":")) with true.
    change (exactly "." (ch ".")) with true.
    change (exactly "]" (ch "]")) with true.
    change (isDigit (ch "]")) with false.
    cbn [andb]. reflexivity.
  - cbn [forallb] in Hf.
    apply andb_true_iff in Hf as [Hf1 Hf]. apply andb_true_iff in Hf as [Hf2 Hf].
    apply andb_true_iff in Hf as [Hf3 _].
    unfold matchTimestamp, tsPattern, tokenText.
    cbn [app repeat matchSeq].
    rewrite Hm1, Hm2, Hs1, Hs2, Hf1, Hf2, Hf3.
    change (exactly "[" (ch "[")) with true.
    change (exactly ":" (ch ":")) with true.
    change (exactly "." (ch ".")) with true.
    change (exactly "]" (ch "]")) with true.
    cbn [andb]. reflexivity.
Qed.

Lemma matchTimestamp_groups (s : str) (m : tsMatch) :
  matchTimestamp s = Some m ->
  exists m1 m2 s1 s2 fr rest,
    s = tokenText [m1; m2] [s1; s2] fr ++ rest
    /\ m = mkTs (tokenText [m1; m2] [s1; s2] fr) [m1; m2] [s1; s2] fr
    /\ (length fr = 2 \/ length fr = 3)
    /\ allDigits [m1; m2] /\ allDigits [s1; s2] /\ allDigits fr.
Proof.
  intros H.
  assert (Hn : exists n, (n = 2 \/ n = 3) /\ matchSeq (tsPattern n) s = true).
  { unfold matchTimestamp in H.
    destruct (matchSeq (tsPattern 3) s) eqn:E3; [exists 3; auto|].
    destruct (matchSeq (tsPattern 2) s) eqn:E2; [exists 2; auto | discriminate]. }
  destruct Hn as [n [Hn Hm]].
  destruct (matchSeq_tsPattern_inv n s Hn Hm)
    as [m1 [m2 [s1 [s2 [fr [rest [Es [Hl [Hm12 [Hs12 Hfr]]]]]]]]]].
  assert (Hlen : length fr = 2 \/ length fr = 3) by (rewrite Hl; exact Hn).
  exists m1, m2, s1, s2, fr, rest.
  pose proof (matchTimestamp_build m1 m2 s1 s2 fr rest Hlen Hm12 Hs12 Hfr) as B.
  rewrite <- Es, H in B. injection B as ->. auto 10.
Qed.

(** ** What [normalizeTimestamp] does to the fraction *)

Lemma normalizeTimestamp_tokenText (m1 m2 s1 s2 : char) (fr : str) :
  length fr = 2 \/ length fr = 3 ->
  allDigits [m1; m2] -> allDigits [s1; s2] -> allDigits fr ->
  normalizeTimestamp (tokenText [m1; m2] [s1; s2] fr)
  = tokenText [m1; m2] [s1; s2] (normalizedFraction fr).
Proof.
  intros Hl Hm Hs Hf.
  pose proof (matchTimestamp_build m1 m2 s1 s2 fr [] Hl Hm Hs Hf) as B.
  rewrite app_nil_r in B.
  unfold normalizeTimestamp. rewrite searchTimestamp_unfold, B.
  reflexivity.
Qed.

Lemma digitVal_bounds (c : char) : isDigit c = true -> (0 <= digitVal c <= 9)%Z.
Proof.
  unfold isDigit, digitVal. intros H.
  apply andb_true_iff in H as [H1 H2]. apply N.leb_le in H1, H2. lia.
Qed.

Lemma parseInt_3 (f1 f2 f3 : char) :
  parseInt [f1; f2; f3]
  = (digitVal f1 * 100 + digitVal f2 * 10 + digitVal f3)%Z.
Proof. unfold parseInt. cbn [fold_left]. lia. Qed.

Lemma parseInt_3_bounds (fr : str) :
  length fr = 3 -> allDigits fr -> (0 <= parseInt fr <= 999)%Z.
Proof.
  destruct fr as [|f1 [|f2 [|f3 [|f4 fr]]]]; try discriminate. intros _ H.
  unfold allDigits in H. cbn [forallb] in H.
  apply andb_true_iff in H as [H1 H]. apply andb_true_iff in H as [H2 H].
  apply andb_true_iff in H as [H3 _].
  apply digitVal_bounds in H1, H2, H3. rewrite parseInt_3. lia.
Qed.

(** Values below 100 print as two digits after padding. *)
Lemma padStart_toString_small (k : nat) :
  k < 100 ->
  let ms := padStart0 2 (toString (Z.of_nat k)) in
  length ms = 2 /\ allDigits ms /\ parseInt ms = Z.of_nat k.
Proof.
  intros H.
  do 100 (destruct k as [|k]; [vm_compute; repeat split; reflexivity|]).
  lia.
Qed.

Lemma roundDiv_10_bounds (v : Z) :
  (0 <= v <= 999)%Z ->
  (0 <= roundDiv v 10 <= 100)%Z
  /\ ((v < 995)%Z -> (roundDiv v 10 < 100)%Z)
  /\ ((995 <= v)%Z -> roundDiv v 10 = 100%Z).
Proof.
  intros Hv. unfold roundDiv.
  change (2 * 10)%Z with 20%Z.
  pose proof (Z.div_mod (2 * v + 10) 20 ltac:(lia)) as D.
  pose proof (Z.mod_pos_bound (2 * v + 10) 20 ltac:(lia)) as M.
  repeat split; try lia.
Qed.

(** The fraction printed is made of digits; it has two digits unless the
    input fraction is one of 995 to 999, when it is the three digits 100. *)
Lemma normalizedFraction_spec (fr : str) :
  length fr = 2 \/ length fr = 3 -> allDigits fr ->
  allDigits (normalizedFraction fr)
  /\ (length fr = 2 -> normalizedFraction fr = fr)
  /\ (length fr = 3 -> (parseInt fr < 995)%Z ->
      length (normalizedFraction fr) = 2
      /\ parseInt (normalizedFraction fr) = roundDiv (parseInt fr) 10)
  /\ (length fr = 3 -> (995 <= parseInt fr)%Z ->
      normalizedFraction fr = lit "100").
Proof.
  intros [Hl | Hl] Hd; unfold normalizedFraction; rewrite Hl; cbn [Nat.eqb].
  - assert (E : padStart0 2 fr = fr).
    { unfold padStart0. rewrite Hl. reflexivity. }
    rewrite E. repeat split; try (intros; discriminate); auto.
  - pose proof (parseInt_3_bounds fr Hl Hd) as Hv.
    destruct (roundDiv_10_bounds _ Hv) as [Hr [Hlt Hge]].
    destruct (Z.lt_ge_cases (parseInt fr) 995) as [C | C].
    + specialize (Hlt C).
      pose proof (padStart_toString_small (Z.to_nat (roundDiv (parseInt fr) 10))
                    ltac:(lia)) as P.
      cbn zeta in P. rewrite Z2Nat.id in P by lia.
      destruct P as [P1 [P2 P3]].
      repeat split; try (intros; discriminate); auto; intros; lia.
    + rewrite (Hge C).
      repeat split; try (intros; discriminate); try reflexivity; intros; lia.
Qed.

Lemma normalizedFraction_length (fr : str) :
  length fr = 2 \/ length fr = 3 -> allDigits fr ->
  length (normalizedFraction fr) = 2 \/ length (normalizedFraction fr) = 3.
Proof.
  intros Hl Hd.
  destruct (normalizedFraction_spec fr Hl Hd) as [_ [H2 [H3 H3']]].
  destruct Hl as [Hl | Hl].
  - left. now rewrite (H2 Hl).
  - destruct (Z.lt_ge_cases (parseInt fr) 995) as [C | C].
    + left. now apply H3.
    + right. now rewrite (H3' Hl C).
Qed.

(** For a token whose fraction has two digits, or three digits with a
    value below 995, the re-emitted token has a two-digit fraction and
    the validator reads the same millisecond value from both. *)
Lemma normalizeTimestamp_two_digits (s : str) (m : tsMatch) :
  matchTimestamp s = Some m ->
  length (ts_millis m) = 2 \/ (parseInt (ts_millis m) < 995)%Z ->
  exists m',
    matchTimestamp (normalizeTimestamp (ts_text m)) = Some m'
    /\ ts_text m' = normalizeTimestamp (ts_text m)
    /\ length (ts_millis m') = 2
    /\ V.parseTimestampToMs (normalizeTimestamp (ts_text m))
       = V.parseTimestampToMs (ts_text m).
Proof.
  intros H Hcase.
  pose proof (searchTimestamp_token _ _ H) as Hsearch.
  destruct (matchTimestamp_groups _ _ H)
    as [m1 [m2 [s1 [s2 [fr [rest [_ [-> [Hl [Hm [Hs Hf]]]]]]]]]]].
  cbn [ts_text ts_millis] in *.
  rewrite normalizeTimestamp_tokenText by assumption.
  destruct (normalizedFraction_spec fr Hl Hf) as [Hd [H2 [H3 _]]].
  assert (Hl' : length (normalizedFraction fr) = 2).
  { destruct Hl as [Hl | Hl]; [now rewrite H2|].
    destruct Hcase as [C | C]; [congruence | now apply H3]. }
  pose proof (matchTimestamp_build m1 m2 s1 s2 (normalizedFraction fr) []
                (or_introl Hl') Hm Hs Hd) as B.
  rewrite app_nil_r in B.
  eexists. split; [exact B|]. cbn [ts_text ts_millis].
  split; [reflexivity|]. split; [exact Hl'|].
  unfold V.parseTimestampToMs.
  rewrite Hsearch, (searchTimestamp_unfold (tokenText _ _ _)), B.
  cbn [ts_minutes ts_seconds ts_millis]. rewrite Hl'. cbn [Nat.eqb].
  destruct Hl as [Hl | Hl].
  - rewrite Hl. cbn [Nat.eqb]. now rewrite (H2 Hl).
  - rewrite Hl. cbn [Nat.eqb].
    destruct Hcase as [C | C]; [congruence|].
    destruct (H3 Hl C) as [_ ->]. reflexivity.
Qed.

(** ** Texts that trimming leaves alone *)

Lemma trimEnd_snoc (a : str) (c : char) :
  isWhite c = false -> trimEnd (a ++ [c]) = a ++ [c].
Proof.
  intros Hc. unfold trimEnd. rewrite rev_app_distr. cbn [rev app trimStart].
  rewrite Hc. cbn [rev]. now rewrite rev_involutive.
Qed.

Lemma trimEnd_snoc_white (a : str) (c : char) :
  isWhite c = true -> trimEnd (a ++ [c]) = trimEnd a.
Proof.
  intros Hc. unfold trimEnd. rewrite rev_app_distr. cbn [rev app trimStart].
  now rewrite Hc.
Qed.

Lemma trimEnd_length (s : str) : length (trimEnd s) <= length s.
Proof.
  destruct (trimEnd_decomp s) as [ws [E _]].
  apply (f_equal (@length _)) in E. rewrite length_app in E. lia.
Qed.

Lemma exists_last_or_nil {A : Type} (l : list A) :
  l = [] \/ exists a c, l = a ++ [c].
Proof.
  rewrite <- (rev_involutive l). destruct (rev l) as [|c r]; [now left|].
  right. exists (rev r), c. reflexivity.
Qed.

(** A text is free of trailing white space exactly when it is empty or
    ends with a code unit that is not white space. *)
Lemma trimEnd_fixed (s : str) :
  trimEnd s = s <-> s = [] \/ exists a c, s = a ++ [c] /\ isWhite c = false.
Proof.
  split.
  - intros E. destruct (exists_last_or_nil s) as [-> | [a [c ->]]]; [now left|].
    right. exists a, c. split; [reflexivity|].
    destruct (isWhite c) eqn:Hc; [|reflexivity].
    rewrite trimEnd_snoc_white in E by assumption.
    pose proof (trimEnd_length a) as L. rewrite E, length_app in L.
    simpl in L. lia.
  - intros [-> | [a [c [-> Hc]]]]; [reflexivity | now apply trimEnd_snoc].
Qed.

Lemma trim_fixed (s : str) : trim s = s <-> trimStart s = s /\ trimEnd s = s.
Proof.
  unfold trim. split.
  - intros E. assert (E2 : trimEnd s = s).
    { rewrite <- E at 1. rewrite trimEnd_idem. exact E. }
    split; [|exact E2].
    apply trimStart_fixed. destruct s as [|c s]; [exact I|].
    destruct (isWhite c) eqn:Hc; [|reflexivity].
    cbn [trimStart] in E. rewrite Hc in E.
    pose proof (trimEnd_length (trimStart s)) as L.
    destruct (trimStart_decomp s) as [ws [E' _]].
    apply (f_equal (@length _)) in E'. rewrite length_app in E'.
    rewrite E in L. simpl in L. lia.
  - intros [E1 E2]. now rewrite E1.
Qed.

(** A token text followed by the tail of a trimmed line is trimmed. *)
Lemma trim_token_then_suffix (t line : str) (k : nat) :
  trim line = line ->
  trim (ch "[" :: t ++ ch "]" :: skipn k line)
  = ch "[" :: t ++ ch "]" :: skipn k line.
Proof.
  intros Hline. apply trim_fixed. split.
  - apply trimStart_fixed. reflexivity.
  - apply trimEnd_fixed. right.
    apply trim_fixed in Hline as [_ Hend].
    destruct (exists_last_or_nil (skipn k line)) as [E | [a [c E]]].
    + rewrite E. exists (ch "[" :: t), (ch "]").
      split; [now rewrite <- app_comm_cons | reflexivity].
    + rewrite E. exists (ch "[" :: t ++ ch "]" :: a), c. split.
      * cbn [app]. f_equal. rewrite <- app_assoc. reflexivity.
      * apply trimEnd_fixed in Hend as [Hnil | [a' [c' [El Hc']]]].
        { rewrite Hnil, skipn_nil in E. now destruct a. }
        assert (Ec : c = c').
        { pose proof (firstn_skipn k line) as F. rewrite E, El in F.
          rewrite app_assoc in F. now apply app_inj_tail in F as [_ F]. }
        now subst c'.
Qed.

(** ** The scan after the last match *)

Lemma scanFrom_skip (re : str -> option str) (s : str) :
  forall skip pos,
    scanFrom re skip pos s = scanFrom re 0 (pos + skip) (skipn skip s).
Proof.
  induction s as [|c s IH]; intros skip pos.
  - now rewrite skipn_nil.
  - destruct skip as [|k]; [now rewrite Nat.add_0_r|].
    cbn [scanFrom skipn]. rewrite IH. f_equal. lia.
Qed.

Lemma scanFrom_nil_pos (re : str -> option str) (s : str) (skip pos pos' : nat) :
  scanFrom re skip pos s = [] -> scanFrom re skip pos' s = [].
Proof.
  intros H. apply (f_equal (map snd)) in H.
  rewrite (scanFrom_pos_indep re s skip pos pos') in H.
  now apply map_eq_nil in H.
Qed.

Lemma scanFrom_tokens (s : str) :
  forall skip pos,
    Forall (fun e => isToken (snd e)) (scanFrom timestampAt skip pos s).
Proof.
  induction s as [|c s IH]; intros skip pos; cbn [scanFrom]; [constructor|].
  destruct skip as [|k]; [|apply IH].
  destruct (timestampAt (c :: s)) as [tok|] eqn:E; [|apply IH].
  constructor; [now exists (c :: s) | apply IH].
Qed.

(** No token is found in the text that follows the last match. *)
Lemma scanFrom_after_last (s : str) :
  forall skip pos,
    scanFrom timestampAt skip pos s <> [] ->
    let e := List.last (scanFrom timestampAt skip pos s) (0, []) in
    pos <= fst e
    /\ scanFrom timestampAt 0 0 (skipn (fst e + length (snd e) - pos) s) = [].
Proof.
  induction s as [|c s IH]; intros skip pos Hne; [now simpl in Hne|].
  cbn [scanFrom] in *.
  assert (Hrec : forall k,
    scanFrom timestampAt k (S pos) s <> [] ->
    let e := List.last (scanFrom timestampAt k (S pos) s) (0, []) in
    pos <= fst e
    /\ scanFrom timestampAt 0 0 (skipn (fst e + length (snd e) - pos) (c :: s))
       = []).
  { intros k Hk. destruct (IH k (S pos) Hk) as [Hp Hs]. cbn zeta.
    split; [lia|].
    replace (fst (List.last (scanFrom timestampAt k (S pos) s) (0, []))
             + length (snd (List.last (scanFrom timestampAt k (S pos) s) (0, [])))
             - pos)
      with (S (fst (List.last (scanFrom timestampAt k (S pos) s) (0, []))
               + length (snd (List.last (scanFrom timestampAt k (S pos) s) (0, [])))
               - S pos)) by lia.
    exact Hs. }
  destruct skip as [|k]; [|now apply Hrec].
  destruct (timestampAt (c :: s)) as [tok|] eqn:E; [|now apply Hrec].
  destruct (scanFrom timestampAt (length tok - 1) (S pos) s) as [|e r] eqn:R.
  - cbn [List.last fst snd]. split; [lia|].
    pose proof (timestampAt_length _ _ E) as Hlen.
    replace (pos + length tok - pos) with (S (length tok - 1)) by lia.
    cbn [skipn]. rewrite scanFrom_skip in R.
    now apply (scanFrom_nil_pos _ _ _ _ 0) in R.
  - change (List.last ((pos, tok) :: e :: r) (0, []))
      with (List.last (e :: r) (0, [])).
    rewrite <- R. apply Hrec. rewrite R. discriminate.
Qed.

Lemma textAfterLast_no_token (line : str) :
  scanTimestamps line <> [] -> scanTimestamps (textAfterLast line) = [].
Proof.
  intros Hne. unfold textAfterLast, scanTimestamps in *.
  destruct (scanFrom_after_last line 0 0 Hne) as [_ H].
  now rewrite Nat.sub_0_r in H.
Qed.

(** A token text followed by a text without tokens holds one token. *)
Lemma scanTimestamps_token_then (tok rest : str) :
  (forall x, timestampAt (tok ++ x) = Some tok) ->
  scanTimestamps rest = [] ->
  scanTimestamps (tok ++ rest) = [(0, tok)].
Proof.
  intros Htok Hrest. unfold scanTimestamps in *.
  pose proof (timestampAt_length _ _ (Htok [])) as Hlen.
  destruct tok as [|c t]; [simpl in Hlen; lia|].
  cbn [app scanFrom]. change (c :: t ++ rest) with ((c :: t) ++ rest).
  rewrite Htok. f_equal.
  rewrite scanFrom_skip.
  replace (length (c :: t) - 1) with (length t) by (cbn [length]; lia).
  rewrite skipn_app, skipn_all, Nat.sub_diag. cbn [app skipn].
  now apply (scanFrom_nil_pos _ _ _ 0).
Qed.

(** ** Lines the normalizer has nothing to do on *)

Lemma normalizeStep_settled (st : NormState) (l : str) :
  settled l -> normalizeStep st l = pushLine st l.
Proof.
  intros [Ht Hc]. unfold normalizeStep. rewrite Ht.
  destruct (isEmpty l || isMetadata l); [reflexivity|].
  destruct Hc as [Hc | Hc]; [discriminate|].
  rewrite length_map. apply Nat.leb_le in Hc. now rewrite Hc.
Qed.

Lemma fold_normalizeStep_settled (lines : list str) :
  Forall settled lines ->
  forall st,
    fold_left normalizeStep lines st
    = mkNormState (normalizedLines st ++ lines)
                  (changesCount st) (expandedLinesCount st).
Proof.
  induction 1 as [|l lines Hl _ IH]; intros st; simpl.
  - rewrite app_nil_r. now destruct st.
  - rewrite IH, normalizeStep_settled by assumption. simpl.
    now rewrite <- app_assoc.
Qed.

Lemma isToken_groups (tok : str) :
  isToken tok ->
  exists m1 m2 s1 s2 fr,
    tok = tokenText [m1; m2] [s1; s2] fr
    /\ (length fr = 2 \/ length fr = 3)
    /\ allDigits [m1; m2] /\ allDigits [s1; s2] /\ allDigits fr.
Proof.
  intros [s H]. unfold timestampAt in H.
  destruct (matchTimestamp s) as [m|] eqn:E; [|discriminate].
  injection H as <-.
  destruct (matchTimestamp_groups _ _ E)
    as [m1 [m2 [s1 [s2 [fr [rest [_ [-> H]]]]]]]].
  exists m1, m2, s1, s2, fr. auto.
Qed.

(** An expanded line: trimmed, and with exactly one token. *)
Lemma expanded_line_settled (tok line : str) :
  isToken tok -> trim line = line -> scanTimestamps line <> [] ->
  settled (normalizeTimestamp tok ++ textAfterLast line).
Proof.
  intros Htok Hline Hne.
  destruct (isToken_groups _ Htok)
    as [m1 [m2 [s1 [s2 [fr [-> [Hl [Hm [Hs Hf]]]]]]]]].
  rewrite normalizeTimestamp_tokenText by assumption.
  destruct (normalizedFraction_spec fr Hl Hf) as [Hd _].
  pose proof (normalizedFraction_length fr Hl Hf) as Hl'.
  split.
  - assert (E : forall rest,
               tokenText [m1; m2] [s1; s2] (normalizedFraction fr) ++ rest
               = ch "[" :: (m1 :: m2 :: ch ":" :: s1 :: s2 :: ch "."
                              :: normalizedFraction fr) ++ ch "]" :: rest).
    { intros rest. unfold tokenText. cbn [app]. now rewrite <- app_assoc. }
    rewrite E. unfold textAfterLast. now apply trim_token_then_suffix.
  - right. rewrite scanTimestamps_token_then; [simpl; lia | |].
    + intros x. unfold timestampAt.
      now rewrite matchTimestamp_build.
    + now apply textAfterLast_no_token.
Qed.

(** Every line [normalizeLRC] emits is settled. *)
Lemma lineOutput_settled (rawLine : str) : Forall settled (lineOutput rawLine).
Proof.
  unfold lineOutput, normalizeStep.
  destruct (isEmpty (trim rawLine) || isMetadata (trim rawLine)) eqn:Em.
  { cbn [pushLine normalizedLines initNorm app].
    constructor; [|constructor]. split; [apply trim_idem | now left]. }
  destruct (length (map snd (scanTimestamps (trim rawLine))) <=? 1) eqn:El.
  { cbn [pushLine normalizedLines initNorm app].
    constructor; [|constructor]. split; [apply trim_idem|]. right.
    rewrite length_map in El. now apply Nat.leb_le. }
  assert (Hne : scanTimestamps (trim rawLine) <> []).
  { intros E. rewrite E in El. discriminate. }
  rewrite (lyricsText_after_last _ Hne), fold_expandStep.
  cbn [normalizedLines initNorm app].
  apply List.Forall_forall. intros e He.
  apply in_map_iff in He as [tok [<- Hin]].
  apply in_map_iff in Hin as [[p tok'] [<- Hin]].
  apply expanded_line_settled; [|apply trim_idem | exact Hne].
  pose proof (scanFrom_tokens (trim rawLine) 0 0) as Ht.
  rewrite List.Forall_forall in Ht. exact (Ht _ Hin).
Qed.

Lemma normalizeLines_settled (lines : list str) :
  Forall settled (normalizedLines (normalizeLines lines)).
Proof.
  unfold normalizeLines. rewrite normalizeLines_contributions.
  cbn [normalizedLines initNorm app].
  induction lines as [|l lines IH]; [constructor|].
  cbn [map concat]. apply Forall_app. split; [apply lineOutput_settled | exact IH].
Qed.

(** ** The sorter *)

Lemma fold_sortStep (lines : list str) :
  forall st,
    fold_left sortStep lines st
    = mkSortState (metadataLines st ++ metasOf lines)
                  (timedLines st ++ timedOf lines)
                  (otherLines st ++ othersOf lines).
Proof.
  induction lines as [|l lines IH]; intros st.
  - simpl. rewrite !app_nil_r. now destruct st.
  - cbn [fold_left]. rewrite IH. unfold sortStep, metasOf, timedOf, othersOf.
    cbn [flat_map].
    destruct (isMetadata (trim l)).
    { cbn [metadataLines timedLines otherLines app].
      now rewrite <- app_assoc. }
    destruct (sortKey (trim l)) as [k|].
    { cbn [metadataLines timedLines otherLines app].
      now rewrite <- app_assoc. }
    destruct (isEmpty (trim l)).
    { reflexivity. }
    cbn [metadataLines timedLines otherLines app].
    now rewrite <- app_assoc.
Qed.

Lemma sortLRCLines_sortedLines (content : str) :
  sortLRCLines content = join_nl (sortedLines (split_nl content)).
Proof. unfold sortLRCLines. now rewrite fold_sortStep. Qed.

Lemma insertTimed_sorted (x : Z * str) (l : list (Z * str)) :
  Sorted keyLe l -> Sorted keyLe (insertTimed x l).
Proof.
  induction 1 as [|y l Hs IH Hd]; cbn [insertTimed].
  - repeat constructor.
  - destruct (fst x <=? fst y)%Z eqn:E.
    + apply Z.leb_le in E. repeat constructor; assumption.
    + apply Z.leb_gt in E. constructor; [exact IH|].
      destruct l as [|z l]; cbn [insertTimed].
      * constructor. unfold keyLe. lia.
      * inversion Hd; subst.
        destruct (fst x <=? fst z)%Z; constructor; unfold keyLe in *; lia.
Qed.

Lemma sortTimed_sorted (l : list (Z * str)) : Sorted keyLe (sortTimed l).
Proof.
  induction l as [|x l IH]; [constructor|].
  cbn [sortTimed fold_right]. now apply insertTimed_sorted.
Qed.

(** A stable sort leaves a sorted sequence as it is. *)
Lemma sortTimed_fixed (l : list (Z * str)) : Sorted keyLe l -> sortTimed l = l.
Proof.
  induction 1 as [|x l Hs IH Hd]; [reflexivity|].
  cbn [sortTimed fold_right]. fold (sortTimed l). rewrite IH.
  destruct Hd as [|y l Hxy]; [reflexivity|].
  cbn [insertTimed]. unfold keyLe in Hxy. apply Z.leb_le in Hxy.
  now rewrite Hxy.
Qed.

Lemma sortTimed_idem (l : list (Z * str)) : sortTimed (sortTimed l) = sortTimed l.
Proof. apply sortTimed_fixed, sortTimed_sorted. Qed.

Lemma insertTimed_Forall (P : Z * str -> Prop) (x : Z * str) (l : list (Z * str)) :
  P x -> Forall P l -> Forall P (insertTimed x l).
Proof.
  intros Hx. induction 1 as [|y l Hy Hl IH]; cbn [insertTimed].
  - now repeat constructor.
  - destruct (fst x <=? fst y)%Z; repeat constructor; assumption.
Qed.

Lemma sortTimed_Forall (P : Z * str -> Prop) (l : list (Z * str)) :
  Forall P l -> Forall P (sortTimed l).
Proof.
  induction 1 as [|x l Hx Hl IH]; [constructor|].
  cbn [sortTimed fold_right]. now apply insertTimed_Forall.
Qed.

Lemma buckets_classified (lines : list str) :
  Forall metaLine (metasOf lines)
  /\ Forall timedEntry (timedOf lines)
  /\ Forall otherLine (othersOf lines).
Proof.
  unfold metasOf, timedOf, othersOf.
  induction lines as [|l lines [IH1 [IH2 IH3]]]; cbn [flat_map].
  - repeat split; constructor.
  - destruct (isMetadata (trim l)) eqn:Em.
    { repeat split; cbn [app]; try assumption.
      constructor; [|assumption]. split; [apply trim_idem | exact Em]. }
    destruct (sortKey (trim l)) as [k|] eqn:Ek.
    { repeat split; cbn [app]; try assumption.
      constructor; [|assumption]. repeat split; cbn [fst snd];
        [apply trim_idem | exact Em | exact Ek]. }
    destruct (isEmpty (trim l)) eqn:Ee.
    { repeat split; assumption. }
    repeat split; cbn [app]; try assumption.
    constructor; [|assumption].
    repeat split; [apply trim_idem | exact Em | exact Ek | exact Ee].
Qed.

Lemma buckets_of_metas (ms : list str) :
  Forall metaLine ms ->
  metasOf ms = ms /\ timedOf ms = [] /\ othersOf ms = [].
Proof.
  unfold metasOf, timedOf, othersOf.
  induction 1 as [|t ms [Ht Hm] _ [IH1 [IH2 IH3]]]; cbn [flat_map].
  - auto.
  - rewrite Ht, Hm, IH1, IH2, IH3. auto.
Qed.

Lemma buckets_of_timed (ts : list (Z * str)) :
  Forall timedEntry ts ->
  metasOf (map snd ts) = [] /\ timedOf (map snd ts) = ts
  /\ othersOf (map snd ts) = [].
Proof.
  unfold metasOf, timedOf, othersOf.
  induction 1 as [|[k t] ts [Ht [Hm Hk]] _ [IH1 [IH2 IH3]]];
    cbn [flat_map map].
  - auto.
  - cbn [fst snd] in *. rewrite Ht, Hm, Hk, IH1, IH2, IH3. auto.
Qed.

Lemma buckets_of_others (os : list str) :
  Forall otherLine os ->
  metasOf os = [] /\ timedOf os = [] /\ othersOf os = os.
Proof.
  unfold metasOf, timedOf, othersOf.
  induction 1 as [|t os [Ht [Hm [Hk He]]] _ [IH1 [IH2 IH3]]]; cbn [flat_map].
  - auto.
  - rewrite Ht, Hm, Hk, He, IH1, IH2, IH3. auto.
Qed.

Lemma buckets_app (a b : list str) :
  metasOf (a ++ b) = metasOf a ++ metasOf b
  /\ timedOf (a ++ b) = timedOf a ++ timedOf b
  /\ othersOf (a ++ b) = othersOf a ++ othersOf b.
Proof. unfold metasOf, timedOf, othersOf. now rewrite !flat_map_app. Qed.

(** Sorting the lines of a sorted text gives the same lines. *)
Lemma sortedLines_idem (lines : list str) :
  sortedLines (sortedLines lines) = sortedLines lines.
Proof.
  destruct (buckets_classified lines) as [Hm [Ht Ho]].
  apply (sortTimed_Forall timedEntry) in Ht.
  destruct (buckets_of_metas _ Hm) as [M1 [M2 M3]].
  destruct (buckets_of_timed _ Ht) as [T1 [T2 T3]].
  destruct (buckets_of_others _ Ho) as [O1 [O2 O3]].
  unfold sortedLines at 1.
  set (A := metasOf lines) in *.
  set (B := map snd (sortTimed (timedOf lines))) in *.
  set (C := othersOf lines) in *.
  unfold sortedLines. fold A B C.
  destruct (buckets_app A (B ++ C)) as [E1 [E2 E3]].
  destruct (buckets_app B C) as [F1 [F2 F3]].
  rewrite E1, E2, E3, F1, F2, F3.
  rewrite M1, M2, M3, T1, T2, T3, O1, O2, O3.
  cbn [app]. rewrite !app_nil_r. now rewrite sortTimed_idem.
Qed.

(** ** The pipeline applied to its own output *)

Lemma isDigit_not_nl (c : char) : isDigit c = true -> char_eqb c 10%N = false.
Proof.
  unfold isDigit, char_eqb. intros H.
  apply andb_true_iff in H as [H1 H2]. apply N.leb_le in H1, H2.
  apply N.eqb_neq. lia.
Qed.

Lemma allDigits_noNewline (s : str) : allDigits s -> noNewline s.
Proof.
  unfold allDigits, noNewline. induction s as [|c s IH]; [constructor|].
  cbn [forallb]. intros H. apply andb_true_iff in H as [Hc Hs].
  constructor; [now apply isDigit_not_nl | now apply IH].
Qed.

Lemma tokenText_noNewline (mm ss fr : str) :
  allDigits mm -> allDigits ss -> allDigits fr -> noNewline (tokenText mm ss fr).
Proof.
  intros Hm Hs Hf. unfold tokenText, noNewline.
  apply allDigits_noNewline in Hm, Hs, Hf.
  constructor; [reflexivity|].
  apply Forall_app. split; [exact Hm|]. constructor; [reflexivity|].
  apply Forall_app. split; [exact Hs|]. constructor; [reflexivity|].
  apply Forall_app. split; [exact Hf|]. now repeat constructor.
Qed.

Lemma noNewline_skipn (k : nat) (s : str) : noNewline s -> noNewline (skipn k s).
Proof.
  intros H. rewrite <- (firstn_skipn k s) in H.
  now apply noNewline_app in H as [_ H].
Qed.

Lemma lineOutput_noNewline (rawLine : str) :
  noNewline rawLine -> Forall noNewline (lineOutput rawLine).
Proof.
  intros Hraw. pose proof (trim_line_noNewline _ Hraw) as Hline.
  unfold lineOutput, normalizeStep.
  destruct (isEmpty (trim rawLine) || isMetadata (trim rawLine)).
  { cbn [pushLine normalizedLines initNorm app]. now repeat constructor. }
  destruct (length (map snd (scanTimestamps (trim rawLine))) <=? 1) eqn:El.
  { cbn [pushLine normalizedLines initNorm app]. now repeat constructor. }
  assert (Hne : scanTimestamps (trim rawLine) <> []).
  { intros E. rewrite E in El. discriminate. }
  rewrite (lyricsText_after_last _ Hne), fold_expandStep.
  cbn [normalizedLines initNorm app].
  apply List.Forall_forall. intros e He.
  apply in_map_iff in He as [tok [<- Hin]].
  apply in_map_iff in Hin as [[p tok'] [<- Hin]].
  pose proof (scanFrom_tokens (trim rawLine) 0 0) as Ht.
  rewrite List.Forall_forall in Ht. specialize (Ht _ Hin). cbn [snd] in *.
  destruct (isToken_groups _ Ht)
    as [m1 [m2 [s1 [s2 [fr [-> [Hl [Hm [Hs Hf]]]]]]]]].
  rewrite normalizeTimestamp_tokenText by assumption.
  apply noNewline_app. split.
  - apply tokenText_noNewline; try assumption.
    now apply normalizedFraction_spec.
  - unfold textAfterLast. now apply noNewline_skipn.
Qed.

Lemma lineOutput_nonempty (rawLine : str) : lineOutput rawLine <> [].
Proof.
  unfold lineOutput, normalizeStep.
  destruct (isEmpty (trim rawLine) || isMetadata (trim rawLine));
    [discriminate|].
  destruct (length (map snd (scanTimestamps (trim rawLine))) <=? 1) eqn:El;
    [discriminate|].
  rewrite fold_expandStep. cbn [normalizedLines initNorm app].
  destruct (map snd (scanTimestamps (trim rawLine))); discriminate.
Qed.

Lemma concat_lineOutput_noNewline (lines : list str) :
  Forall noNewline lines -> Forall noNewline (concat (map lineOutput lines)).
Proof.
  induction 1 as [|l ls Hl _ IH]; [constructor|].
  cbn [map concat]. apply Forall_app.
  split; [now apply lineOutput_noNewline | exact IH].
Qed.

(** The lines of the normalized text are the lines the normalizer pushed. *)
Lemma normalizeLRC_lines (content : str) :
  split_nl (normalized (normalizeLRC content))
  = normalizedLines (normalizeLines (split_nl content)).
Proof.
  unfold normalizeLRC. cbn [normalized].
  unfold normalizeLines. rewrite normalizeLines_contributions.
  cbn [normalizedLines initNorm app].
  apply split_join.
  - pose proof (split_nl_nonempty content) as Hne.
    destruct (split_nl content) as [|l ls]; [contradiction|].
    cbn [map concat]. pose proof (lineOutput_nonempty l).
    destruct (lineOutput l); [contradiction | discriminate].
  - apply concat_lineOutput_noNewline, split_nl_noNewline.
Qed.

(** Every line of the sorted text is the trimmed form of an input line,
    and is not empty. *)
Lemma sortedLines_from (lines : list str) :
  Forall (fun o => exists l, In l lines /\ o = trim l /\ o <> [])
         (sortedLines lines).
Proof.
  set (P := fun o : str => exists l, In l lines /\ o = trim l /\ o <> []).
  assert (Hall : forall ls, (forall l, In l ls -> In l lines) ->
            Forall P (metasOf ls)
            /\ Forall (fun e => P (snd e)) (timedOf ls)
            /\ Forall P (othersOf ls)).
  { unfold metasOf, timedOf, othersOf.
    induction ls as [|l ls IH]; intros Hin; cbn [flat_map].
    - repeat split; constructor.
    - destruct IH as [IH1 [IH2 IH3]]; [intros x Hx; apply Hin; now right|].
      assert (Hl : In l lines) by (apply Hin; now left).
      destruct (isMetadata (trim l)) eqn:Em.
      { repeat split; cbn [app]; try assumption.
        constructor; [|assumption]. exists l. repeat split; auto.
        intros E. rewrite E in Em. discriminate. }
      destruct (sortKey (trim l)) as [k|] eqn:Ek.
      { repeat split; cbn [app]; try assumption.
        constructor; [|assumption]. exists l. repeat split; auto.
        cbn [snd]. intros E. rewrite E in Ek. discriminate. }
      destruct (isEmpty (trim l)) eqn:Ee.
      { repeat split; assumption. }
      repeat split; cbn [app]; try assumption.
      constructor; [|assumption]. exists l. repeat split; auto.
      intros E. rewrite E in Ee. discriminate. }
  destruct (Hall lines (fun l H => H)) as [H1 [H2 H3]].
  unfold sortedLines. apply Forall_app. split; [exact H1|].
  apply Forall_app. split; [|exact H3].
  apply (sortTimed_Forall (fun e => P (snd e))) in H2.
  clear - H2. induction H2; cbn [map]; constructor; assumption.
Qed.

(** The output of [normalizeAndSortLRC] is a text that [normalizeLRC] and
    [sortLRCLines] both leave as it is, and in which the normalizer
    rewrites no line. *)
Lemma pipeline_output_settled (content : str) :
  let out := normalized (normalizeAndSortLRC content) in
  normalizeLRC out
  = mkNormalizationResult out (extractPlainLyrics out) 0 0
  /\ sortLRCLines out = out.
Proof.
  cbn zeta. unfold normalizeAndSortLRC. cbn [normalized].
  rewrite sortLRCLines_sortedLines, normalizeLRC_lines.
  set (NL := normalizedLines (normalizeLines (split_nl content))).
  assert (Hset : Forall settled NL) by apply normalizeLines_settled.
  assert (Hnl : Forall noNewline NL).
  { subst NL. rewrite <- normalizeLRC_lines. apply split_nl_noNewline. }
  set (O := sortedLines NL).
  assert (HO : Forall (fun o => settled o /\ noNewline o) O).
  { eapply List.Forall_impl; [|apply sortedLines_from].
    cbn beta. intros o [l [Hin [-> Hne]]].
    rewrite List.Forall_forall in Hset, Hnl.
    destruct (Hset l Hin) as [Ht Hc]. rewrite Ht. split; [|now apply Hnl].
    split; assumption. }
  destruct O as [|o O'] eqn:EO.
  - split; reflexivity.
  - rewrite <- EO in *.
    assert (Hsplit : split_nl (join_nl O) = O).
    { apply split_join; [rewrite EO; discriminate|].
      eapply List.Forall_impl; [|exact HO]. now intros x [_ Hx]. }
    split.
    + unfold normalizeLRC. rewrite Hsplit. unfold normalizeLines.
      rewrite fold_normalizeStep_settled.
      * reflexivity.
      * eapply List.Forall_impl; [|exact HO]. now intros x [Hx _].
    + rewrite sortLRCLines_sortedLines, Hsplit. subst O.
      now rewrite sortedLines_idem.
Qed.

(** The pipeline is idempotent: applied to its own output it returns the
    same text and reports no change. *)
Lemma normalizeAndSortLRC_idempotent (content : str) :
  let out := normalized (normalizeAndSortLRC content) in
  normalized (normalizeAndSortLRC out) = out
  /\ changes (normalizeAndSortLRC out) = 0
  /\ expandedLines (normalizeAndSortLRC out) = 0.
Proof.
  cbn zeta. destruct (pipeline_output_settled content) as [Hn Hs].
  cbn zeta in Hn, Hs.
  set (out := normalized (normalizeAndSortLRC content)) in *.
  unfold normalizeAndSortLRC. rewrite Hn.
  cbn [normalized changes expandedLines]. auto.
Qed.

(** ** The pipeline on a normalized and sorted text *)






(** ** Plain lyrics of a text of timed lines *)

(** On a text whose lines are blank, metadata or start with a timestamp
    token (with no line terminator left inside the line), the extraction
    is what the specification words: every line loses its prefix and the
    non-blank remainders are joined. *)
Lemma extractPlainLyrics_spec_on_timed (syncedLyrics : str) :
  Forall (fun l => isMetadata (trim l) = true
                   \/ trim l = []
                   \/ exists rest, matchTimedLine (trim l) = Some rest)
         (split_nl syncedLyrics) ->
  extractPlainLyrics syncedLyrics = extractPlainLyrics_spec syncedLyrics.
Proof.
  intros H. unfold extractPlainLyrics. rewrite fold_extractStep.
  unfold extractPlainLyrics_spec. cbn [app]. f_equal.
  induction H as [|l ls Hl _ IH]; [reflexivity|].
  cbn [map concat List.filter]. rewrite IH. clear IH.
  unfold timedText, remainingText, stripTimestampPrefix, matchTimedLine in *.
  destruct (isMetadata (trim l)) eqn:Em; [reflexivity|].
  cbn [negb map List.filter].
  destruct Hl as [Hl | [Hl | [rest Hl]]]; [discriminate | |].
  - rewrite Hl. reflexivity.
  - destruct (matchTimestamp (trim l)) as [m|]; [|discriminate].
    destruct (hasNoLineTerminator _); [|discriminate].
    cbn [andb]. now destruct (isEmpty (trim _)).
Qed.

(** ** The examples of the specification *)

(** Monotonic-order test. *)
Example out_of_order_example :
  issueSummary (lit "[00:10.00]A" ++ nl ++ lit "[00:05.00]B")
  = [(2, V.OutOfOrder, V.Warning,
      lit "Timestamp is earlier than previous line (1)")].
Proof. vm_compute. reflexivity. Qed.

(** Duplicate test: two lines at 5000 ms. *)
Example duplicate_example :
  issueSummary (lit "[00:05.00]A" ++ nl ++ lit "[00:05.000]B")
  = [(2, V.DuplicateTimestamp, V.Warning,
      lit "Duplicate timestamp (also on line 1)")].
Proof. vm_compute. reflexivity. Qed.

(** Gap test: 0 ms and 35000 ms. *)
Example gap_example :
  issueSummary (lit "[00:00.00]A" ++ nl ++ lit "[00:35.00]B")
  = [(2, V.ExcessiveGap, V.Warning,
      lit "Large gap (35s) from previous line")].
Proof. vm_compute. reflexivity. Qed.

(** The transformation of the doc comment of [normalizeLRC]. *)
Example normalizeLRC_doc_example :
  normalizeLRC (lit "[00:29.52][01:29.47][02:09.54] Repeated chorus line")
  = mkNormalizationResult
      (lit "[00:29.52] Repeated chorus line" ++ nl
       ++ lit "[01:29.47] Repeated chorus line" ++ nl
       ++ lit "[02:09.54] Repeated chorus line")
      (lit "Repeated chorus line" ++ nl ++ lit "Repeated chorus line" ++ nl
       ++ lit "Repeated chorus line")
      1 3.
Proof. vm_compute. reflexivity. Qed.

(** Metadata first, timed lines by time, other text last; blank lines go. *)
Example sortLRCLines_example :
  sortLRCLines (lit "x" ++ nl ++ lit "[00:05.00]b" ++ nl ++ lit "[ti:t]" ++ nl
                ++ nl ++ lit " [00:01.00]a")
  = lit "[ti:t]" ++ nl ++ lit "[00:01.00]a" ++ nl ++ lit "[00:05.00]b" ++ nl
    ++ lit "x".
Proof. vm_compute. reflexivity. Qed.

(** * Further properties of the code *)

(** ** The range of a parsed timestamp *)

Lemma searchTimestamp_some (s : str) (m : tsMatch) :
  searchTimestamp s = Some m -> exists s', matchTimestamp s' = Some m.
Proof.
  induction s as [|c s IH]; rewrite searchTimestamp_unfold.
  - destruct (matchTimestamp []) eqn:E; [|discriminate].
    intros H. injection H as <-. now exists [].
  - destruct (matchTimestamp (c :: s)) eqn:E.
    + intros H. injection H as <-. now exists (c :: s).
    + exact IH.
Qed.

Lemma parseInt_2_bounds (a b : char) :
  allDigits [a; b] -> (0 <= parseInt [a; b] <= 99)%Z.
Proof.
  unfold allDigits. cbn [forallb]. intros H.
  apply andb_true_iff in H as [Ha H]. apply andb_true_iff in H as [Hb _].
  apply digitVal_bounds in Ha, Hb. unfold parseInt. cbn [fold_left]. lia.
Qed.

Lemma parseInt_fraction_bounds (fr : str) :
  length fr = 2 \/ length fr = 3 -> allDigits fr ->
  (0 <= (if Nat.eqb (length fr) 3 then roundDiv (parseInt fr) 10
         else parseInt fr) <= 100)%Z.
Proof.
  intros [Hl | Hl] Hd; rewrite Hl; cbn [Nat.eqb].
  - destruct fr as [|a [|b [|c fr]]]; try discriminate.
    pose proof (parseInt_2_bounds a b Hd). lia.
  - pose proof (parseInt_3_bounds fr Hl Hd) as Hv.
    destruct (roundDiv_10_bounds _ Hv) as [Hr _]. exact Hr.
Qed.

Lemma parseTimestampToMs_bounds (timestamp : str) (ms : Z) :
  V.parseTimestampToMs timestamp = Some ms ->
  (0 <= ms <= 6040000)%Z /\ (ms mod 10 = 0)%Z.
Proof.
  unfold V.parseTimestampToMs.
  destruct (searchTimestamp timestamp) as [m|] eqn:E; [|discriminate].
  intros H. injection H as <-.
  destruct (searchTimestamp_some _ _ E) as [s' Hm].
  destruct (matchTimestamp_groups _ _ Hm)
    as [m1 [m2 [s1 [s2 [fr [rest [_ [-> [Hl [Hmm [Hss Hfr]]]]]]]]]]].
  cbn [ts_minutes ts_seconds ts_millis].
  pose proof (parseInt_2_bounds _ _ Hmm) as B1.
  pose proof (parseInt_2_bounds _ _ Hss) as B2.
  pose proof (parseInt_fraction_bounds fr Hl Hfr) as B3.
  set (f := if Nat.eqb (length fr) 3 then roundDiv (parseInt fr) 10
            else parseInt fr) in *.
  split; [lia|].
  replace (parseInt [m1; m2] * 60000 + parseInt [s1; s2] * 1000 + f * 10)%Z
    with ((parseInt [m1; m2] * 6000 + parseInt [s1; s2] * 100 + f) * 10)%Z
    by lia.
  apply Z.mod_mul. lia.
Qed.

(** X1. Whatever text [parseTimestampToMs] is given, a value it returns is
    a whole number of milliseconds between 0 and 6040000 (99 minutes, 99
    seconds and a fraction rounded up to a full second) and a multiple
    of 10. *)
Theorem parseTimestampToMs_range (timestamp : str) (ms : Z) :
  V.parseTimestampToMs timestamp = Some ms ->
  (0 <= ms <= 6040000)%Z /\ (ms mod 10 = 0)%Z.
Proof. apply parseTimestampToMs_bounds. Qed.

Lemma parseTimestampToMs_range_witness :
  V.parseTimestampToMs (lit "at [99:99.999] sharp") = Some 6040000%Z
  /\ (0 <= 6040000 <= 6040000)%Z /\ (6040000 mod 10 = 0)%Z.
Proof.
  split; [reflexivity|].
  apply (parseTimestampToMs_range (lit "at [99:99.999] sharp")). reflexivity.
Defined.

(** ** Tests of the per-line pass that never succeed *)

Lemma isToken_parse (tok : str) :
  isToken tok ->
  exists ms, V.parseTimestampToMs tok = Some ms /\ (0 <= ms)%Z.
Proof.
  intros Htok.
  destruct (isToken_groups _ Htok)
    as [m1 [m2 [s1 [s2 [fr [-> [Hl [Hm [Hs Hf]]]]]]]]].
  pose proof (matchTimestamp_build m1 m2 s1 s2 fr [] Hl Hm Hs Hf) as B.
  rewrite app_nil_r in B.
  destruct (V.parseTimestampToMs (tokenText [m1; m2] [s1; s2] fr))
    as [ms|] eqn:E.
  - exists ms. split; [reflexivity|].
    apply parseTimestampToMs_bounds in E. lia.
  - unfold V.parseTimestampToMs in E.
    rewrite searchTimestamp_unfold, B in E. discriminate.
Qed.

Lemma scan_hd_token (line : str) :
  (length (map snd (scanTimestamps line)) =? 0) = false ->
  isToken (hd [] (map snd (scanTimestamps line))).
Proof.
  intros H. pose proof (scanFrom_tokens line 0 0) as Ht.
  unfold scanTimestamps in *.
  destruct (scanFrom timestampAt 0 0 line) as [|e r]; [discriminate|].
  now inversion Ht.
Qed.

Lemma singleton_hd {A : Type} (d : A) (l : list A) :
  (length l =? 0) = false -> (1 <? length l) = false -> l = [hd d l].
Proof.
  intros H0 H1. apply Nat.eqb_neq in H0. apply Nat.ltb_ge in H1.
  destruct l as [|a [|b l]]; simpl in *; try lia. reflexivity.
Qed.

Ltac reach_steps :=
  cbn [V.vs_issues V.timedLines V.pushIssue];
  repeat (apply extends_snoc; [|repeat split; reflexivity]);
  apply extends_refl.

(** One line appends issues of the four reachable types only, and a timed
    line only for a trimmed line with exactly one token, with the
    timestamp parsed from it. *)
Lemma validateStep_reachable (st : V.ValidateState) (rawLine : str) (index : nat) :
  extends (fun i => V.line i = index + 1
                    /\ isReachablePerLineType (V.type i) = true
                    /\ V.severity i = severityOf (V.type i))
          (V.vs_issues st) (V.vs_issues (V.validateStep st rawLine index))
  /\ extends (fun t => V.tl_line t = index + 1 /\ timedOk t)
             (V.timedLines st) (V.timedLines (V.validateStep st rawLine index)).
Proof.
  unfold V.validateStep.
  destruct (isEmpty (trim rawLine)); [split; apply extends_refl|].
  destruct (isMetadata (trim rawLine)) eqn:Em; [split; apply extends_refl|].
  set (tss := map snd (scanTimestamps (trim rawLine))).
  assert (Hsingle :
    (length tss =? 0) = false -> (1 <? length tss) = false ->
    exists ms, V.parseTimestampToMs (hd [] tss) = Some ms
               /\ (ms <? 0)%Z = false
               /\ timedOk (V.mkTimed ms (index + 1) (trim rawLine))).
  { intros H0 H1. destruct (isToken_parse _ (scan_hd_token _ H0)) as [ms [Hp Hms]].
    exists ms. split; [exact Hp|]. split; [now apply Z.ltb_ge|].
    unfold timedOk. cbn [V.tl_raw V.tl_timestamp].
    split; [apply trim_idem|]. split; [exact Em|].
    exists (hd [] tss). split; [now apply singleton_hd | exact Hp]. }
  destruct (0 <? length (map snd (scanFrom V.matchElrc 0 0 (trim rawLine))));
    destruct (length tss =? 0) eqn:E0;
    try (split; reach_steps);
    destruct (1 <? length tss) eqn:E1;
    try (split; reach_steps);
    destruct (Hsingle eq_refl eq_refl) as [ms [Hp [Hneg Hok]]];
    rewrite Hp, Hneg; cbn [V.seenTimestamps V.pushIssue];
    destruct (_ !! ms);
    destruct (negb (V.testSingleTimestamp (trim rawLine)));
    (split;
     [ reach_steps
     | cbn [V.vs_issues V.timedLines V.pushIssue];
       apply extends_snoc; [apply extends_refl | split; [reflexivity | exact Hok]] ]).
Qed.

Lemma forEachFrom_reachable (lines : list str) :
  forall k st,
    let st' := V.forEachFrom V.validateStep k lines st in
    extends (fun i => isReachablePerLineType (V.type i) = true
                      /\ V.severity i = severityOf (V.type i))
            (V.vs_issues st) (V.vs_issues st')
    /\ extends timedOk (V.timedLines st) (V.timedLines st').
Proof.
  induction lines as [|l lines IH]; intros k st; cbn zeta.
  - split; apply extends_refl.
  - cbn [V.forEachFrom].
    destruct (validateStep_reachable st l k) as [HI HT].
    destruct (IH (k + 1) (V.validateStep st l k)) as [HI' HT'].
    split.
    + eapply extends_trans; [|exact HI'].
      eapply extends_weaken; [|exact HI]. now intros i [_ Hi].
    + eapply extends_trans; [|exact HT'].
      eapply extends_weaken; [|exact HT]. now intros t [_ Ht].
Qed.

Lemma perLinePass_reachable (content : str) :
  Forall (fun i => isReachablePerLineType (V.type i) = true
                   /\ V.severity i = severityOf (V.type i))
         (V.vs_issues (V.perLinePass content))
  /\ Forall timedOk (V.timedLines (V.perLinePass content)).
Proof.
  destruct (forEachFrom_reachable (split_nl content) 0 initValidate)
    as [[nI [EI HI]] [nT [ET HT]]].
  unfold V.perLinePass. fold initValidate. rewrite EI, ET. now split.
Qed.

(** X2. [validateLRC] never emits an invalid-timestamp or a
    negative-timestamp issue: the token it parses was found by the same
    pattern, so [parseTimestampToMs] returns a value for it, and that
    value is not negative. Every issue is of one of the other eight
    types. *)
Theorem validateLRC_never_invalid_or_negative (content : str) :
  Forall (fun i => V.type i <> V.InvalidTimestamp
                   /\ V.type i <> V.NegativeTimestamp)
         (V.issues (V.validateLRC content)).
Proof.
  cbn [V.validateLRC V.issues].
  destruct (allIssues_structure content) as [cross [final [E [Hc Hf]]]].
  rewrite E. repeat (apply Forall_app; split).
  - eapply List.Forall_impl; [|apply perLinePass_reachable].
    intros i [Hi _]. destruct (V.type i); split; discriminate.
  - eapply List.Forall_impl; [|exact Hc].
    intros i [[H | [H | H]] _]; rewrite H; split; discriminate.
  - subst final. destruct (_ && _); repeat constructor; discriminate.
Qed.

(** The timestamp of every successfully timed line lies between 0 and
    6040000 ms and is a multiple of 10; its text is the trimmed line, which
    is no metadata line and holds exactly one token. *)
Lemma timedLines_well_formed (content : str) :
  Forall (fun t => (0 <= V.tl_timestamp t <= 6040000)%Z
                   /\ (V.tl_timestamp t mod 10 = 0)%Z
                   /\ trim (V.tl_raw t) = V.tl_raw t
                   /\ isMetadata (V.tl_raw t) = false
                   /\ length (scanTimestamps (V.tl_raw t)) = 1)
         (V.timedLines (V.perLinePass content)).
Proof.
  eapply List.Forall_impl; [|apply perLinePass_reachable].
  intros t [Ht [Hm [tok [Hs Hp]]]].
  destruct (parseTimestampToMs_bounds _ _ Hp) as [Hr Hmod].
  repeat split; try assumption; try lia.
  rewrite <- (length_map snd), Hs. reflexivity.
Qed.

(** ** The issue list, part by part *)

Lemma fold_outOfOrderStep (pairs : list (V.TimedLine * V.TimedLine)) :
  forall issues,
    fold_left V.outOfOrderStep pairs issues
    = issues
      ++ flat_map (fun p : V.TimedLine * V.TimedLine =>
                     if (V.tl_timestamp (snd p) <? V.tl_timestamp (fst p))%Z
                     then [V.outOfOrderIssue (fst p) (snd p)] else []) pairs.
Proof.
  induction pairs as [|[prev cur] pairs IH]; intros issues; cbn [fold_left flat_map].
  - now rewrite app_nil_r.
  - rewrite IH. unfold V.outOfOrderStep. cbn [fst snd].
    destruct (_ <? _)%Z; [now rewrite <- app_assoc | reflexivity].
Qed.

Lemma fold_gapStep (pairs : list (V.TimedLine * V.TimedLine)) :
  forall issues,
    fold_left V.gapStep pairs issues
    = issues
      ++ flat_map (fun p : V.TimedLine * V.TimedLine =>
                     let gap :=
                       (V.tl_timestamp (snd p) - V.tl_timestamp (fst p))%Z in
                     if (30000 <? gap)%Z then [V.gapIssue gap (snd p)] else [])
                  pairs.
Proof.
  induction pairs as [|[prev cur] pairs IH]; intros issues; cbn [fold_left flat_map].
  - now rewrite app_nil_r.
  - rewrite IH. unfold V.gapStep. cbn [fst snd]. cbn zeta.
    destruct (_ <? _)%Z; [now rewrite <- app_assoc | reflexivity].
Qed.

Lemma fold_overlapStep (pairs : list (V.TimedLine * V.TimedLine)) :
  forall issues,
    fold_left V.overlapStep pairs issues
    = issues
      ++ flat_map (fun p : V.TimedLine * V.TimedLine =>
                     let gap :=
                       (V.tl_timestamp (snd p) - V.tl_timestamp (fst p))%Z in
                     if (0 <? gap)%Z && (gap <? 100)%Z
                     then [V.overlapIssue gap (snd p)] else [])
                  pairs.
Proof.
  induction pairs as [|[prev cur] pairs IH]; intros issues; cbn [fold_left flat_map].
  - now rewrite app_nil_r.
  - rewrite IH. unfold V.overlapStep. cbn [fst snd]. cbn zeta.
    destruct (V.tl_timestamp cur =? V.tl_timestamp prev)%Z eqn:E.
    + apply Z.eqb_eq in E. rewrite E, Z.sub_diag. reflexivity.
    + destruct (_ && _); [now rewrite <- app_assoc | reflexivity].
Qed.

(** The issues of [validateLRC] in the order they are pushed. *)
Lemma allIssues_exact (content : str) :
  let st := V.perLinePass content in
  V.allIssues content
  = V.vs_issues st
    ++ outOfOrderIssues (V.timedLines st)
    ++ gapIssues (V.timedLines st)
    ++ overlapIssues (V.timedLines st)
    ++ (if (length (V.timedLines st) =? 0) && (0 <? length (trim content))
        then [V.noTimestampsIssue content] else []).
Proof.
  cbn zeta. unfold V.allIssues, outOfOrderIssues, gapIssues, overlapIssues.
  rewrite fold_outOfOrderStep, fold_gapStep, fold_overlapStep.
  destruct (_ && _); rewrite <- ?app_assoc; [reflexivity|].
  now rewrite !app_nil_r.
Qed.

Lemma flat_map_Forall {A B : Type} (P : B -> Prop) (f : A -> list B)
  (l : list A) :
  (forall a, Forall P (f a)) -> Forall P (flat_map f l).
Proof.
  intros H. induction l as [|a l IH]; cbn [flat_map]; [constructor|].
  apply Forall_app. now split.
Qed.

(** ** Severities, flags and counters *)

Lemma crossLists_severity (timed : list V.TimedLine) :
  Forall (fun i => V.type i = V.OutOfOrder /\ V.severity i = V.Warning)
         (outOfOrderIssues timed)
  /\ Forall (fun i => V.type i = V.ExcessiveGap /\ V.severity i = V.Warning)
            (gapIssues timed)
  /\ Forall (fun i => V.type i = V.TimestampOverlap /\ V.severity i = V.Warning)
            (overlapIssues timed).
Proof.
  unfold outOfOrderIssues, gapIssues, overlapIssues.
  repeat split; apply flat_map_Forall; intros [prev cur]; cbn [fst snd];
    cbn zeta.
  - destruct (_ <? _)%Z; repeat constructor.
  - destruct (_ <? _)%Z; repeat constructor.
  - destruct (_ && _); repeat constructor.
Qed.

Lemma issues_severityOf (content : str) :
  Forall (fun i => V.severity i = severityOf (V.type i))
         (V.issues (V.validateLRC content)).
Proof.
  cbn [V.validateLRC V.issues]. rewrite allIssues_exact.
  destruct (crossLists_severity (V.timedLines (V.perLinePass content)))
    as [H1 [H2 H3]].
  repeat (apply Forall_app; split).
  - eapply List.Forall_impl; [|apply perLinePass_reachable]. now intros i [_ H].
  - eapply List.Forall_impl; [|exact H1]. intros i [Ht Hs]. now rewrite Ht, Hs.
  - eapply List.Forall_impl; [|exact H2]. intros i [Ht Hs]. now rewrite Ht, Hs.
  - eapply List.Forall_impl; [|exact H3]. intros i [Ht Hs]. now rewrite Ht, Hs.
  - destruct (_ && _); repeat constructor.
Qed.

(** X3. The severity of an issue is fixed by its type: multi-timestamp,
    out-of-order, duplicate, excessive-gap and overlap issues are
    warnings, all others are errors. (The banner colours a whole group of
    issues of one type by the severity of its first issue.) *)
Theorem severity_determined_by_type (content : str) :
  Forall (fun i => V.severity i = severityOf (V.type i))
         (V.issues (V.validateLRC content)).
Proof. apply issues_severityOf. Qed.

Lemma existsb_severity (l : list V.LRCValidationIssue) :
  existsb (fun i => V.Severity_eqb (V.severity i) V.Error) l
  || existsb (fun i => V.Severity_eqb (V.severity i) V.Warning) l
  = negb (length l =? 0).
Proof.
  destruct l as [|i l]; [reflexivity|]. cbn [existsb length Nat.eqb negb].
  destruct (V.severity i); cbn [V.Severity_eqb orb]; [|reflexivity].
  apply orb_true_r.
Qed.

Lemma fold_countByType (l : list V.LRCValidationIssue) :
  forall (tbl : V.IssueType -> nat) (t : V.IssueType),
    fold_left
      (fun (tbl : V.IssueType -> nat) (i : V.LRCValidationIssue) =>
         fun t => if V.IssueType_eqb t (V.type i) then S (tbl t) else tbl t)
      l tbl t
    = tbl t + countType t l.
Proof.
  unfold countType.
  induction l as [|i l IH]; intros tbl t; cbn [fold_left List.filter length].
  - lia.
  - rewrite IH.
    assert (E : V.IssueType_eqb (V.type i) t = V.IssueType_eqb t (V.type i))
      by (destruct (V.type i), t; reflexivity).
    rewrite E. destruct (V.IssueType_eqb t (V.type i)); cbn [length]; lia.
Qed.

Lemma countType_total (l : list V.LRCValidationIssue) :
  list_sum (map (fun t => countType t l) allIssueTypes) = length l.
Proof.
  unfold countType, allIssueTypes. cbn [map list_sum fold_right].
  induction l as [|i l IH]; [reflexivity|].
  cbn [List.filter length].
  destruct (V.type i); cbn [V.IssueType_eqb length]; lia.
Qed.

(** X4. The table [issuesByType] of a result holds, for each of the ten
    types, the number of issues of that type, and its entries add up to
    [affectedLines], the number of issues. *)
Theorem issuesByType_counts (content : str) :
  let r := V.validateLRC content in
  (forall t, V.issuesByType r t = countType t (V.issues r))
  /\ list_sum (map (V.issuesByType r) allIssueTypes) = V.affectedLines r
  /\ V.affectedLines r = length (V.issues r).
Proof.
  cbn zeta. cbn [V.validateLRC V.issuesByType V.issues V.affectedLines].
  unfold V.countByType.
  assert (H : forall t, fold_left
      (fun (tbl : V.IssueType -> nat) (i : V.LRCValidationIssue) =>
         fun t => if V.IssueType_eqb t (V.type i) then S (tbl t) else tbl t)
      (V.allIssues content) (fun _ => 0) t = countType t (V.allIssues content)).
  { intros t. now rewrite fold_countByType. }
  split; [exact H|]. split; [|reflexivity].
  rewrite <- countType_total. f_equal.
  unfold allIssueTypes. cbn [map]. now rewrite !H.
Qed.

Lemma countType_snoc (t : V.IssueType) (l : list V.LRCValidationIssue)
  (a : V.LRCValidationIssue) :
  countType t (l ++ [a])
  = countType t l + (if V.IssueType_eqb (V.type a) t then 1 else 0).
Proof.
  unfold countType. rewrite List.filter_app, length_app. simpl.
  now destruct (V.IssueType_eqb (V.type a) t).
Qed.

Ltac count_elrc_steps :=
  cbn [V.vs_issues V.elrcCount V.pushIssue];
  rewrite ?countType_snoc; cbn; lia.

(** The counter behind [hasELRC] counts the ELRC issues. *)
Lemma validateStep_countElrc (st : V.ValidateState) (rawLine : str) (index : nat) :
  V.elrcCount st = countType V.ElrcWordTiming (V.vs_issues st) ->
  V.elrcCount (V.validateStep st rawLine index)
  = countType V.ElrcWordTiming (V.vs_issues (V.validateStep st rawLine index)).
Proof.
  intros H. unfold V.validateStep.
  destruct (isEmpty (trim rawLine)); [exact H|].
  destruct (isMetadata (trim rawLine)); [exact H|].
  destruct (0 <? length (map snd (scanFrom V.matchElrc 0 0 (trim rawLine))));
    destruct (length (map snd (scanTimestamps (trim rawLine))) =? 0);
    try count_elrc_steps;
    destruct (1 <? length (map snd (scanTimestamps (trim rawLine))));
    try count_elrc_steps;
    destruct (V.parseTimestampToMs _) as [ms|];
    try count_elrc_steps;
    destruct (ms <? 0)%Z;
    try count_elrc_steps;
    cbn [V.seenTimestamps V.pushIssue];
    destruct (_ !! ms);
    destruct (negb (V.testSingleTimestamp (trim rawLine)));
    count_elrc_steps.
Qed.

Lemma perLinePass_countElrc (content : str) :
  V.elrcCount (V.perLinePass content)
  = countType V.ElrcWordTiming (V.vs_issues (V.perLinePass content)).
Proof.
  unfold V.perLinePass.
  assert (H : forall lines k st,
             V.elrcCount st = countType V.ElrcWordTiming (V.vs_issues st) ->
             V.elrcCount (V.forEachFrom V.validateStep k lines st)
             = countType V.ElrcWordTiming
                 (V.vs_issues (V.forEachFrom V.validateStep k lines st))).
  { induction lines as [|l lines IH]; intros k st Hst; [exact Hst|].
    cbn [V.forEachFrom]. apply IH. now apply validateStep_countElrc. }
  now apply H.
Qed.

Lemma existsb_count (t : V.IssueType) (l : list V.LRCValidationIssue) :
  existsb (fun i => V.IssueType_eqb (V.type i) t) l = (0 <? countType t l).
Proof.
  unfold countType. induction l as [|i l IH]; [reflexivity|].
  cbn [existsb List.filter]. destruct (V.IssueType_eqb (V.type i) t);
    [reflexivity | exact IH].
Qed.

Lemma hasELRC_issue (content : str) :
  V.hasELRC (V.validateLRC content)
  = existsb isElrc (V.issues (V.validateLRC content)).
Proof.
  cbn [V.validateLRC V.hasELRC V.issues]. unfold isElrc.
  rewrite existsb_count, perLinePass_countElrc, allIssues_exact.
  destruct (crossLists_severity (V.timedLines (V.perLinePass content)))
    as [H1 [H2 H3]].
  unfold countType. rewrite !List.filter_app, !length_app.
  rewrite (filter_none _ (outOfOrderIssues _)), (filter_none _ (gapIssues _)),
    (filter_none _ (overlapIssues _)).
  - destruct (_ && _); cbn; now rewrite ?Nat.add_0_r.
  - eapply List.Forall_impl; [|exact H3]. intros i [Ht _]. now rewrite Ht.
  - eapply List.Forall_impl; [|exact H2]. intros i [Ht _]. now rewrite Ht.
  - eapply List.Forall_impl; [|exact H1]. intros i [Ht _]. now rewrite Ht.
Qed.

Lemma existsb_type_severity (s : V.Severity) (t : V.IssueType)
  (l : list V.LRCValidationIssue) :
  Forall (fun i => V.severity i = severityOf (V.type i)) l ->
  severityOf t = s ->
  existsb (fun i => V.IssueType_eqb (V.type i) t) l = true ->
  existsb (fun i => V.Severity_eqb (V.severity i) s) l = true.
Proof.
  intros Hall Hs. induction Hall as [|i l Hi _ IH]; [discriminate|].
  cbn [existsb]. intros H. apply orb_true_iff in H as [H | H].
  - apply orb_true_iff. left. rewrite Hi.
    assert (E : V.type i = t) by (destruct (V.type i), t; try discriminate; reflexivity).
    rewrite E, Hs. now destruct s.
  - apply orb_true_iff. right. now apply IH.
Qed.

(** X5. The flags of a result agree with its issue list: the result is
    valid exactly when it has neither errors nor warnings; [hasELRC] and
    [hasMultiTimestamps] hold exactly when an issue of that type is in
    the list; an ELRC result has errors and a multi-timestamp result has
    warnings. *)
Theorem result_flags_agree (content : str) :
  let r := V.validateLRC content in
  V.isValid r = negb (V.hasErrors r || V.hasWarnings r)
  /\ V.hasELRC r = existsb isElrc (V.issues r)
  /\ V.hasMultiTimestamps r = existsb isMulti (V.issues r)
  /\ (V.hasELRC r = true -> V.hasErrors r = true)
  /\ (V.hasMultiTimestamps r = true -> V.hasWarnings r = true).
Proof.
  cbn zeta. split; [|split; [apply hasELRC_issue|split;
                              [apply hasMultiTimestamps_issue|split]]].
  - cbn [V.validateLRC V.isValid V.hasErrors V.hasWarnings].
    rewrite existsb_severity. now rewrite negb_involutive.
  - rewrite hasELRC_issue. cbn [V.validateLRC V.hasErrors V.issues].
    apply (existsb_type_severity V.Error V.ElrcWordTiming);
      [apply issues_severityOf | reflexivity].
  - rewrite hasMultiTimestamps_issue. cbn [V.validateLRC V.hasWarnings V.issues].
    apply (existsb_type_severity V.Warning V.MultiTimestamp);
      [apply issues_severityOf | reflexivity].
Qed.

(** ** Duplicate timestamps *)

Lemma firstLineOf_snoc (timed : list V.TimedLine) (t : V.TimedLine) (ms : Z) :
  firstLineOf (timed ++ [t]) ms
  = match firstLineOf timed ms with
    | Some v => Some v
    | None => if (V.tl_timestamp t =? ms)%Z then Some (V.tl_line t) else None
    end.
Proof.
  unfold firstLineOf. induction timed as [|u timed IH]; cbn [app find].
  - now destruct (V.tl_timestamp t =? ms)%Z.
  - destruct (V.tl_timestamp u =? ms)%Z; [reflexivity | exact IH].
Qed.

Lemma duplicatesFrom_snoc (timed : list V.TimedLine) (t : V.TimedLine) :
  forall before,
    duplicatesFrom before (timed ++ [t])
    = duplicatesFrom before timed
      ++ match firstLineOf (before ++ timed) (V.tl_timestamp t) with
         | Some previousLine =>
             [V.duplicateIssue (V.tl_line t - 1) (V.tl_raw t) previousLine]
         | None => []
         end.
Proof.
  induction timed as [|u timed IH]; intros before; cbn [app duplicatesFrom].
  - now rewrite !app_nil_r.
  - rewrite IH, <- !app_assoc. reflexivity.
Qed.

Ltac dup_same_timed H :=
  destruct H as [Hseen Hdup];
  split; cbn [V.vs_issues V.timedLines V.seenTimestamps V.pushIssue];
  [ exact Hseen
  | rewrite ?List.filter_app; cbn [List.filter isDuplicate V.type
      V.elrcIssue V.multiIssue V.IssueType_eqb];
    rewrite ?app_nil_r; exact Hdup ].

Lemma validateStep_duplicatesTracked (st : V.ValidateState) (rawLine : str)
  (index : nat) :
  duplicatesTracked st -> duplicatesTracked (V.validateStep st rawLine index).
Proof.
  intros H. unfold V.validateStep.
  destruct (isEmpty (trim rawLine)); [exact H|].
  destruct (isMetadata (trim rawLine)) eqn:Em; [exact H|].
  set (tss := map snd (scanTimestamps (trim rawLine))).
  assert (Hsingle :
    (length tss =? 0) = false ->
    exists ms, V.parseTimestampToMs (hd [] tss) = Some ms
               /\ (ms <? 0)%Z = false).
  { intros H0. destruct (isToken_parse _ (scan_hd_token _ H0)) as [ms [Hp Hms]].
    exists ms. split; [exact Hp | now apply Z.ltb_ge]. }
  destruct (0 <? length (map snd (scanFrom V.matchElrc 0 0 (trim rawLine))));
    destruct (length tss =? 0) eqn:E0;
    try (dup_same_timed H);
    destruct (1 <? length tss) eqn:E1;
    try (dup_same_timed H);
    destruct (Hsingle eq_refl) as [ms [Hp Hneg]];
    rewrite Hp, Hneg; cbn [V.seenTimestamps V.pushIssue];
    destruct H as [Hseen Hdup];
    destruct (V.seenTimestamps st !! ms) as [prev|] eqn:Es;
    destruct (negb (V.testSingleTimestamp (trim rawLine)));
    (split;
     [ intros ms';
       cbn [V.seenTimestamps V.timedLines V.pushIssue V.vs_issues];
       rewrite firstLineOf_snoc; cbn [V.tl_timestamp V.tl_line];
       try (rewrite lookup_insert; destruct (decide (ms = ms')) as [->|Hne];
            [ rewrite <- Hseen, Es, Z.eqb_refl; reflexivity
            | rewrite <- Hseen; destruct (V.seenTimestamps st !! ms');
              [reflexivity | apply Z.eqb_neq in Hne; now rewrite Hne] ]);
       try (rewrite <- Hseen;
            destruct (V.seenTimestamps st !! ms') as [v|] eqn:Es';
            [ reflexivity
            | destruct (Z.eqb_spec ms ms') as [->|Hne];
              [congruence | reflexivity] ])
     | cbn [V.seenTimestamps V.timedLines V.pushIssue V.vs_issues];
       rewrite duplicatesFrom_snoc; cbn [app V.tl_timestamp V.tl_line V.tl_raw];
       rewrite <- Hseen, Es;
       rewrite ?List.filter_app;
       cbn [List.filter isDuplicate V.type V.elrcIssue V.duplicateIssue
            V.invalidFormatIssue V.IssueType_eqb];
       rewrite ?app_nil_r, Hdup;
       replace (index + 1 - 1) with index by lia; reflexivity ]).
Qed.

Lemma perLinePass_duplicatesTracked (content : str) :
  duplicatesTracked (V.perLinePass content).
Proof.
  unfold V.perLinePass.
  assert (H : forall lines k st,
             duplicatesTracked st ->
             duplicatesTracked (V.forEachFrom V.validateStep k lines st)).
  { induction lines as [|l lines IH]; intros k st Hst; [exact Hst|].
    cbn [V.forEachFrom]. apply IH. now apply validateStep_duplicatesTracked. }
  apply H. split; [|reflexivity].
  intros ms. cbn [V.seenTimestamps V.timedLines]. apply lookup_empty.
Qed.

Lemma filter_all {A : Type} (p : A -> bool) (l : list A) :
  Forall (fun x => p x = true) l -> List.filter p l = l.
Proof.
  induction 1 as [|x l Hx _ IH]; simpl; [reflexivity|]. now rewrite Hx, IH.
Qed.

Lemma filter_type_parts (content : str) (p : V.LRCValidationIssue -> bool) :
  List.filter p (V.issues (V.validateLRC content))
  = List.filter p (V.vs_issues (V.perLinePass content))
    ++ List.filter p (outOfOrderIssues (V.timedLines (V.perLinePass content)))
    ++ List.filter p (gapIssues (V.timedLines (V.perLinePass content)))
    ++ List.filter p (overlapIssues (V.timedLines (V.perLinePass content)))
    ++ List.filter p
         (if (length (V.timedLines (V.perLinePass content)) =? 0)
             && (0 <? length (trim content))
          then [V.noTimestampsIssue content] else []).
Proof.
  cbn [V.validateLRC V.issues]. rewrite allIssues_exact.
  now rewrite !List.filter_app.
Qed.

(** X6. A timed line gets a duplicate-timestamp warning exactly when an
    earlier timed line has the same millisecond value, and the warning
    names the line of the first timed line with that value; the table of
    first-seen timestamps maps each value to that first line. *)
Theorem duplicate_warnings (content : str) :
  let st := V.perLinePass content in
  (forall ms, V.seenTimestamps st !! ms = firstLineOf (V.timedLines st) ms)
  /\ List.filter isDuplicate (V.issues (V.validateLRC content))
     = duplicatesFrom [] (V.timedLines st).
Proof.
  cbn zeta. destruct (perLinePass_duplicatesTracked content) as [Hseen Hdup].
  split; [exact Hseen|].
  rewrite filter_type_parts, Hdup.
  destruct (crossLists_severity (V.timedLines (V.perLinePass content)))
    as [H1 [H2 H3]].
  rewrite (filter_none _ (outOfOrderIssues _)), (filter_none _ (gapIssues _)),
    (filter_none _ (overlapIssues _)).
  - destruct (_ && _); cbn; now rewrite ?app_nil_r.
  - eapply List.Forall_impl; [|exact H3]. intros i [Ht _].
    unfold isDuplicate. now rewrite Ht.
  - eapply List.Forall_impl; [|exact H2]. intros i [Ht _].
    unfold isDuplicate. now rewrite Ht.
  - eapply List.Forall_impl; [|exact H1]. intros i [Ht _].
    unfold isDuplicate. now rewrite Ht.
Qed.

(** ** The cross-line checks *)

Lemma perLine_not_cross (content : str) (p : V.LRCValidationIssue -> bool) :
  (forall i, isReachablePerLineType (V.type i) = true -> p i = false) ->
  List.filter p (V.vs_issues (V.perLinePass content)) = [].
Proof.
  intros H. apply filter_none.
  eapply List.Forall_impl; [|apply perLinePass_reachable].
  intros i [Hi _]. now apply H.
Qed.

Lemma outOfOrderIssues_nil (timed : list V.TimedLine) :
  outOfOrderIssues timed = [] <-> Sorted Z.le (map V.tl_timestamp timed).
Proof.
  unfold outOfOrderIssues.
  induction timed as [|a timed IH]; [split; [constructor | reflexivity]|].
  destruct timed as [|b timed]; [split; [repeat constructor | reflexivity]|].
  cbn [V.adjacent flat_map fst snd map] in *.
  destruct (V.tl_timestamp b <? V.tl_timestamp a)%Z eqn:E.
  - apply Z.ltb_lt in E. split; [discriminate|].
    intros S. inversion S as [|? ? _ Hd]; subst. inversion Hd; subst. lia.
  - apply Z.ltb_ge in E. cbn [app]. rewrite IH. split.
    + intros S. constructor; [exact S | now constructor].
    + intros S. now inversion S.
Qed.

(** X7. The out-of-order, excessive-gap and overlap issues of a result
    are those of the adjacent pairs of timed lines, in document order, and
    nothing else; in particular a result holds no out-of-order issue
    exactly when the timestamps of its timed lines never decrease. *)
Theorem cross_line_issues (content : str) :
  let timed := V.timedLines (V.perLinePass content) in
  let issues := V.issues (V.validateLRC content) in
  List.filter isOutOfOrder issues = outOfOrderIssues timed
  /\ List.filter isGap issues = gapIssues timed
  /\ List.filter isOverlap issues = overlapIssues timed
  /\ (List.filter isOutOfOrder issues = []
      <-> Sorted Z.le (timestampsOf content)).
Proof.
  cbn zeta.
  destruct (crossLists_severity (V.timedLines (V.perLinePass content)))
    as [H1 [H2 H3]].
  assert (E1 : List.filter isOutOfOrder (V.issues (V.validateLRC content))
               = outOfOrderIssues (V.timedLines (V.perLinePass content))).
  { rewrite filter_type_parts, perLine_not_cross
      by (intros i; unfold isOutOfOrder; now destruct (V.type i)).
    rewrite (filter_all _ (outOfOrderIssues _)), (filter_none _ (gapIssues _)),
      (filter_none _ (overlapIssues _)).
    - destruct (_ && _); cbn; now rewrite ?app_nil_r.
    - eapply List.Forall_impl; [|exact H3]. intros i [Ht _].
      unfold isOutOfOrder. now rewrite Ht.
    - eapply List.Forall_impl; [|exact H2]. intros i [Ht _].
      unfold isOutOfOrder. now rewrite Ht.
    - eapply List.Forall_impl; [|exact H1]. intros i [Ht _].
      unfold isOutOfOrder. now rewrite Ht. }
  split; [exact E1|]. split; [|split].
  - rewrite filter_type_parts, perLine_not_cross
      by (intros i; unfold isGap; now destruct (V.type i)).
    rewrite (filter_none _ (outOfOrderIssues _)), (filter_all _ (gapIssues _)),
      (filter_none _ (overlapIssues _)).
    + destruct (_ && _); cbn; now rewrite ?app_nil_r.
    + eapply List.Forall_impl; [|exact H3]. intros i [Ht _].
      unfold isGap. now rewrite Ht.
    + eapply List.Forall_impl; [|exact H2]. intros i [Ht _].
      unfold isGap. now rewrite Ht.
    + eapply List.Forall_impl; [|exact H1]. intros i [Ht _].
      unfold isGap. now rewrite Ht.
  - rewrite filter_type_parts, perLine_not_cross
      by (intros i; unfold isOverlap; now destruct (V.type i)).
    rewrite (filter_none _ (outOfOrderIssues _)), (filter_none _ (gapIssues _)),
      (filter_all _ (overlapIssues _)).
    + destruct (_ && _); cbn; now rewrite ?app_nil_r.
    + eapply List.Forall_impl; [|exact H3]. intros i [Ht _].
      unfold isOverlap. now rewrite Ht.
    + eapply List.Forall_impl; [|exact H2]. intros i [Ht _].
      unfold isOverlap. now rewrite Ht.
    + eapply List.Forall_impl; [|exact H1]. intros i [Ht _].
      unfold isOverlap. now rewrite Ht.
  - rewrite E1. apply outOfOrderIssues_nil.
Qed.

(** ** Line numbers *)

(** X8. Every issue names a line of the content: its line number lies
    between 1 and the number of lines. *)
Theorem issue_lines_in_range (content : str) :
  Forall (fun i => 1 <= V.line i <= length (split_nl content))
         (V.issues (V.validateLRC content)).
Proof.
  cbn [V.validateLRC V.issues].
  destruct (allIssues_structure content) as [cross [final [E [Hc Hf]]]].
  destruct (forEachFrom_extends (split_nl content) 0 initValidate)
    as [[nI [EI HI]] [nT [ET HT]]].
  fold (V.perLinePass content) in EI, ET.
  unfold V.perLinePass in EI, ET. fold initValidate in EI, ET.
  unfold V.perLinePass in E, Hc. fold initValidate in E, Hc.
  rewrite E, EI. cbn [initValidate V.vs_issues app].
  rewrite ET in Hc. cbn [initValidate V.timedLines app] in Hc.
  repeat (apply Forall_app; split).
  - eapply List.Forall_impl; [|exact HI]. cbn beta. intros i [Hi _]. lia.
  - eapply List.Forall_impl; [|exact Hc].
    intros i [_ [cur [Hin Hl]]]. rewrite Hl.
    rewrite List.Forall_forall in HT. specialize (HT cur Hin). cbn beta in HT.
    lia.
  - subst final. pose proof (split_nl_nonempty content) as Hne.
    destruct (_ && _); repeat constructor; cbn [V.noTimestampsIssue V.line].
    destruct (split_nl content); [contradiction | simpl; lia].
Qed.

(** ** Which contents are valid *)

Lemma filter_snoc_keep {A : Type} (p : A -> bool) (l : list A) (a : A) :
  p a = true -> List.filter p (l ++ [a]) = List.filter p l ++ [a].
Proof. intros H. rewrite List.filter_app. cbn. now rewrite H. Qed.

Lemma filter_snoc_drop {A : Type} (p : A -> bool) (l : list A) (a : A) :
  p a = false -> List.filter p (l ++ [a]) = List.filter p l.
Proof. intros H. rewrite List.filter_app. cbn. now rewrite H, app_nil_r. Qed.

Lemma isEmpty_false (s : str) : isEmpty s = false -> s <> [].
Proof. now destruct s. Qed.

Ltac clean_new :=
  cbn [V.vs_issues V.pushIssue];
  repeat first [ rewrite filter_snoc_keep by reflexivity
               | rewrite filter_snoc_drop by reflexivity ];
  rewrite <- ?app_assoc;
  match goal with
  | |- exists new, ?F = ?F ++ new /\ _ =>
      exists []; split; [now rewrite app_nil_r|]
  | |- _ => eexists; split; [reflexivity|]
  end.

Ltac clean_iff :=
  repeat match goal with
         | H : (_ =? _) = true |- _ => apply Nat.eqb_eq in H
         | H : (_ =? _) = false |- _ => apply Nat.eqb_neq in H
         | H : (_ <? _) = true |- _ => apply Nat.ltb_lt in H
         | H : (_ <? _) = false |- _ => apply Nat.ltb_ge in H
         end;
  split;
  [ try discriminate; intros _; right; right;
    (split; [reflexivity|]); (split; [lia|]); intros; first [lia | assumption]
  | first
      [ reflexivity
      | intros [H|[H|[H1 [H2 H3]]]];
        [ contradiction | congruence
        | try discriminate; try lia;
          try (match type of H3 with
               | _ -> ?t = true =>
                   assert (Hx : t = true) by (apply H3; lia); congruence
               end) ] ] ].

(** One line appends an issue other than a duplicate warning exactly when
    it is not clean. *)
Lemma validateStep_clean (st : V.ValidateState) (rawLine : str) (index : nat) :
  exists new,
    List.filter notDuplicate (V.vs_issues (V.validateStep st rawLine index))
    = List.filter notDuplicate (V.vs_issues st) ++ new
    /\ (new = [] <-> cleanLine rawLine).
Proof.
  unfold V.validateStep, cleanLine. cbn zeta.
  destruct (isEmpty (trim rawLine)) eqn:Ee.
  { exists []. rewrite app_nil_r. split; [reflexivity|].
    split; [|reflexivity]. intros _. left. now destruct (trim rawLine). }
  apply isEmpty_false in Ee.
  destruct (isMetadata (trim rawLine)) eqn:Em.
  { exists []. rewrite app_nil_r. split; [reflexivity|].
    split; [|reflexivity]. intros _. right. now left. }
  set (tss := map snd (scanTimestamps (trim rawLine))).
  assert (Hlen : length tss = length (scanTimestamps (trim rawLine)))
    by apply length_map.
  assert (Hsingle :
    (length tss =? 0) = false ->
    exists ms, V.parseTimestampToMs (hd [] tss) = Some ms
               /\ (ms <? 0)%Z = false).
  { intros H0. destruct (isToken_parse _ (scan_hd_token _ H0)) as [ms [Hp Hms]].
    exists ms. split; [exact Hp | now apply Z.ltb_ge]. }
  destruct (scanFrom V.matchElrc 0 0 (trim rawLine)) as [|e es] eqn:El;
    [ change (0 <? length (map snd (@nil (nat * str)))) with false
    | change (0 <? length (map snd (e :: es))) with true ];
    cbv iota;
    (destruct (length tss =? 0) eqn:E0; [clean_new; clean_iff|]);
    (destruct (1 <? length tss) eqn:E1; [clean_new; clean_iff|]);
    destruct (Hsingle eq_refl) as [ms [Hp Hneg]];
    rewrite Hp, Hneg; cbn [V.seenTimestamps V.pushIssue];
    destruct (_ !! ms);
    destruct (V.testSingleTimestamp (trim rawLine)) eqn:Et;
    cbn [negb]; clean_new; clean_iff.
Qed.

Lemma forEachFrom_clean (lines : list str) :
  forall k st,
  exists new,
    List.filter notDuplicate
      (V.vs_issues (V.forEachFrom V.validateStep k lines st))
    = List.filter notDuplicate (V.vs_issues st) ++ new
    /\ (new = [] <-> Forall cleanLine lines).
Proof.
  induction lines as [|l lines IH]; intros k st; cbn [V.forEachFrom].
  - exists []. rewrite app_nil_r. split; [reflexivity|].
    split; [constructor | reflexivity].
  - destruct (IH (k + 1) (V.validateStep st l k)) as [new2 [E2 H2]].
    destruct (validateStep_clean st l k) as [new1 [E1 H1]].
    exists (new1 ++ new2). rewrite E2, E1, <- app_assoc.
    split; [reflexivity|]. split.
    + intros H. apply app_eq_nil in H as [Ha Hb].
      constructor; [now apply H1 | now apply H2].
    + intros H. inversion H as [|? ? Ha Hb]; subst.
      apply H1 in Ha; apply H2 in Hb. now subst.
Qed.

Lemma firstLineOf_none (timed : list V.TimedLine) (ms : Z) :
  firstLineOf timed ms = None <-> ~ In ms (map V.tl_timestamp timed).
Proof.
  unfold firstLineOf. induction timed as [|u timed IH]; cbn [find map In].
  - split; [tauto | reflexivity].
  - destruct (V.tl_timestamp u =? ms)%Z eqn:E.
    + apply Z.eqb_eq in E. split; [discriminate | tauto].
    + apply Z.eqb_neq in E. rewrite IH. tauto.
Qed.

Lemma duplicatesFrom_nil (timed : list V.TimedLine) :
  forall before,
    duplicatesFrom before timed = []
    <-> List.NoDup (map V.tl_timestamp timed)
        /\ (forall ms, In ms (map V.tl_timestamp timed) ->
                       ~ In ms (map V.tl_timestamp before)).
Proof.
  induction timed as [|t timed IH]; intros before; cbn [duplicatesFrom map].
  - split; [intros _; split; [constructor | intros ms []] | reflexivity].
  - split.
    + intros H. apply app_eq_nil in H as [Ha Hb].
      apply IH in Hb as [Hn Hd].
      assert (Hf : firstLineOf before (V.tl_timestamp t) = None)
        by (destruct (firstLineOf before (V.tl_timestamp t)); [discriminate | reflexivity]).
      apply firstLineOf_none in Hf.
      split.
      * constructor; [|exact Hn]. intros Hin. apply (Hd _ Hin).
        rewrite map_app, in_app_iff. right. now left.
      * intros ms [<-|Hin]; [exact Hf|].
        intros Hb. apply (Hd _ Hin). rewrite map_app, in_app_iff. now left.
    + intros [Hn Hd]. inversion Hn as [|? ? Hnot Hn']; subst.
      assert (Hf : firstLineOf before (V.tl_timestamp t) = None)
        by (apply firstLineOf_none, Hd; now left).
      rewrite Hf. cbn [app]. apply IH. split; [exact Hn'|].
      intros ms Hin. rewrite map_app, in_app_iff. cbn [map In].
      intros [Hb|[Hb|[]]].
      * apply (Hd ms); [now right | exact Hb].
      * subst. contradiction.
Qed.

Lemma consecutive_cons {A : Type} (R : A -> A -> Prop) (a b : A) (l : list A) :
  consecutive R (a :: b :: l) <-> R a b /\ consecutive R (b :: l).
Proof.
  unfold consecutive. cbn [V.adjacent]. split.
  - intros H. inversion H as [|? ? Ha Hb]; subst. now split.
  - intros [H1 H2]. now constructor.
Qed.

Lemma flat_map_nil {A B : Type} (f : A -> list B) (l : list A) :
  flat_map f l = [] <-> Forall (fun x => f x = []) l.
Proof.
  induction l as [|x l IH]; cbn [flat_map].
  - split; [constructor | reflexivity].
  - split.
    + intros H. apply app_eq_nil in H as [Ha Hb]. constructor; [exact Ha | now apply IH].
    + intros H. inversion H as [|? ? Ha Hb]; subst. rewrite Ha. now apply IH.
Qed.

Lemma adjacent_map {A B : Type} (f : A -> B) (l : list A) :
  V.adjacent (map f l) = map (fun p => (f (fst p), f (snd p))) (V.adjacent l).
Proof.
  induction l as [|a l IH]; [reflexivity|].
  destruct l as [|b l]; [reflexivity|].
  cbn [map V.adjacent fst snd] in *. now rewrite IH.
Qed.

Lemma wellSpaced_lt_all (a : Z) (l : list Z) :
  consecutive wellSpaced (a :: l) -> Forall (fun b => (a < b)%Z) l.
Proof.
  revert a. induction l as [|b l IH]; intros a H; [constructor|].
  apply consecutive_cons in H as [Hab H].
  constructor; [unfold wellSpaced in Hab; lia|].
  eapply List.Forall_impl; [|apply IH, H].
  unfold wellSpaced in Hab. cbn beta. intros c Hc. lia.
Qed.

Lemma wellSpaced_NoDup (l : list Z) :
  consecutive wellSpaced l -> List.NoDup l.
Proof.
  induction l as [|a l IH]; intros H; [constructor|].
  constructor.
  - intros Hin. pose proof (wellSpaced_lt_all _ _ H) as Hlt.
    rewrite List.Forall_forall in Hlt. specialize (Hlt _ Hin). lia.
  - apply IH. destruct l as [|b l]; [constructor|].
    now apply consecutive_cons in H.
Qed.

(** The timestamps are well spaced exactly when no check on them, the
    duplicate check or one of the three pair checks, finds anything. *)
Lemma wellSpaced_no_issue (timed : list V.TimedLine) :
  consecutive wellSpaced (map V.tl_timestamp timed)
  <-> duplicatesFrom [] timed = [] /\ outOfOrderIssues timed = []
      /\ gapIssues timed = [] /\ overlapIssues timed = [].
Proof.
  rewrite duplicatesFrom_nil.
  unfold outOfOrderIssues, gapIssues, overlapIssues.
  rewrite !flat_map_nil. split.
  - intros H. split; [split; [now apply wellSpaced_NoDup | intros ms _ []]|].
    unfold consecutive in H. rewrite adjacent_map, Forall_map in H.
    repeat split; (eapply List.Forall_impl; [|exact H]);
      intros [a b]; unfold wellSpaced; cbn [fst snd]; cbn zeta; intros Hw.
    + destruct (Z.ltb_spec (V.tl_timestamp b) (V.tl_timestamp a));
        [lia | reflexivity].
    + destruct (Z.ltb_spec 30000 (V.tl_timestamp b - V.tl_timestamp a));
        [lia | reflexivity].
    + destruct (Z.ltb_spec (V.tl_timestamp b - V.tl_timestamp a) 100);
        [lia | now rewrite andb_false_r].
  - intros [[Hn _] [Ho [Hg Hv]]].
    induction timed as [|a timed IH]; [constructor|].
    destruct timed as [|b timed]; [constructor|].
    cbn [map]. apply consecutive_cons.
    cbn [V.adjacent map] in *.
    inversion Ho as [|? ? Ho1 Ho2]; inversion Hg as [|? ? Hg1 Hg2];
      inversion Hv as [|? ? Hv1 Hv2]; subst.
    inversion Hn as [|? ? Hnot Hn']; subst.
    split; [|now apply IH].
    cbn [fst snd] in *. cbn zeta in *. unfold wellSpaced.
    assert (V.tl_timestamp a <> V.tl_timestamp b)
      by (intros E; apply Hnot; now left).
    destruct (Z.ltb_spec (V.tl_timestamp b) (V.tl_timestamp a));
      [discriminate|].
    destruct (Z.ltb_spec 30000 (V.tl_timestamp b - V.tl_timestamp a));
      [discriminate|].
    destruct (Z.ltb_spec 0 (V.tl_timestamp b - V.tl_timestamp a));
      destruct (Z.ltb_spec (V.tl_timestamp b - V.tl_timestamp a) 100);
      cbn in Hv1; try discriminate; lia.
Qed.

Lemma filter_partition_nil {A : Type} (p : A -> bool) (l : list A) :
  l = [] <-> List.filter p l = [] /\ List.filter (fun x => negb (p x)) l = [].
Proof.
  split; [intros ->; now split|]. intros [H1 H2].
  destruct l as [|x l]; [reflexivity|]. cbn in *.
  destruct (p x); discriminate.
Qed.

(** X9. A content is valid exactly when three things hold. Every line,
    once trimmed, is empty, or a metadata line, or a line without
    word-level timestamp that holds either no timestamp token at all or
    exactly one, at its very start and with no line terminator (carriage
    return, line or paragraph separator) anywhere after it. Each timed
    line is at least 100 ms and at most 30000 ms later than the timed line
    before it. A content that is not blank has a timed line. *)
Theorem validateLRC_valid_iff (content : str) :
  V.isValid (V.validateLRC content) = true
  <-> Forall cleanLine (split_nl content)
      /\ consecutive wellSpaced (timestampsOf content)
      /\ (timestampsOf content = [] -> trim content = []).
Proof.
  cbn [V.validateLRC V.isValid]. rewrite Nat.eqb_eq, length_zero_iff_nil.
  rewrite allIssues_exact. cbn zeta. unfold timestampsOf.
  destruct (forEachFrom_clean (split_nl content) 0 initValidate)
    as [new [En Hnew]].
  fold (V.perLinePass content) in En.
  change (V.forEachFrom V.validateStep 0 (split_nl content) initValidate)
    with (V.perLinePass content) in En.
  cbn [initValidate V.vs_issues List.filter app] in En.
  destruct (perLinePass_duplicatesTracked content) as [_ Hdup].
  rewrite wellSpaced_no_issue, <- Hdup, <- Hnew, <- En.
  set (st := V.perLinePass content).
  assert (Hfin :
    (if (length (V.timedLines st) =? 0) && (0 <? length (trim content))
     then [V.noTimestampsIssue content] else []) = []
    <-> (map V.tl_timestamp (V.timedLines st) = [] -> trim content = [])).
  { destruct (V.timedLines st) as [|t ts]; cbn [length Nat.eqb andb map].
    - destruct (trim content); cbn; split; try discriminate; try reflexivity.
      intros H. now specialize (H eq_refl).
    - split; [discriminate | reflexivity]. }
  rewrite <- Hfin.
  split.
  - intros H. apply app_eq_nil in H as [H1 H].
    apply app_eq_nil in H as [H2 H]. apply app_eq_nil in H as [H3 H].
    apply app_eq_nil in H as [H4 H5]. rewrite H1. cbn [List.filter].
    repeat split; assumption.
  - intros [Hn [[Hd [Ho [Hg Hv]]] Hf]].
    rewrite Ho, Hg, Hv, Hf.
    assert (V.vs_issues st = []) as ->
      by (apply (filter_partition_nil isDuplicate); now split).
    reflexivity.
Qed.

(** The line-terminator condition is needed: a carriage return after the
    token makes the line fail the single-timestamp pattern, and the
    content is reported with an invalid-format error. *)
Example carriage_return_after_token :
  let content := lit "[00:01.00]a" ++ [13%N] ++ lit "b" in
  V.testSingleTimestamp (trim content) = false
  /\ map V.type (V.issues (V.validateLRC content)) = [V.InvalidFormat]
  /\ V.isValid (V.validateLRC content) = false.
Proof. vm_compute. repeat split; reflexivity. Qed.

(** ** The normalizer and the validator on the same content *)

(** The validator counts a multi-timestamp line where the normalizer
    counts a change. *)
Lemma validateStep_multiCount (st : V.ValidateState) (rawLine : str)
  (index : nat) :
  V.multiTimestampCount (V.validateStep st rawLine index)
  = V.multiTimestampCount st + lineChanges rawLine.
Proof.
  unfold lineChanges, normalizeStep, V.validateStep.
  destruct (isEmpty (trim rawLine)); [cbn; lia|].
  destruct (isMetadata (trim rawLine)); [cbn; lia|].
  cbn [orb]. rewrite fold_expandStep.
  set (tss := map snd (scanTimestamps (trim rawLine))).
  destruct (0 <? length (map snd (scanFrom V.matchElrc 0 0 (trim rawLine))));
    destruct tss as [|t1 [|t2 tss']]; cbn [length Nat.eqb Nat.ltb Nat.leb];
    cbn [V.multiTimestampCount pushLine changesCount initNorm hd]; try lia;
    destruct (V.parseTimestampToMs t1) as [ms|];
    cbn [V.pushIssue V.multiTimestampCount]; try lia;
    destruct (ms <? 0)%Z; cbn [V.pushIssue V.multiTimestampCount]; try lia;
    cbn [V.seenTimestamps];
    destruct (_ !! ms); cbn [V.pushIssue V.multiTimestampCount V.vs_issues
      V.elrcCount V.timedLines V.seenTimestamps];
    destruct (negb (V.testSingleTimestamp (trim rawLine)));
    cbn [V.pushIssue V.multiTimestampCount]; lia.
Qed.

Lemma forEachFrom_multiCount (lines : list str) :
  forall k st,
    V.multiTimestampCount (V.forEachFrom V.validateStep k lines st)
    = V.multiTimestampCount st + list_sum (map lineChanges lines).
Proof.
  induction lines as [|l lines IH]; intros k st; cbn [V.forEachFrom map].
  - cbn. lia.
  - rewrite IH, validateStep_multiCount.
    unfold list_sum. cbn [fold_right]. lia.
Qed.

Lemma multiCount_changes (content : str) :
  V.multiTimestampCount (V.perLinePass content)
  = changes (normalizeLRC content).
Proof.
  unfold V.perLinePass. rewrite forEachFrom_multiCount.
  unfold normalizeLRC, normalizeLines. cbn [changes].
  rewrite normalizeLines_contributions. reflexivity.
Qed.

Lemma filter_perLine_type (content : str) (p : V.LRCValidationIssue -> bool) :
  (forall i, isPerLineType (V.type i) = false -> p i = false) ->
  List.filter p (V.issues (V.validateLRC content))
  = List.filter p (V.vs_issues (V.perLinePass content)).
Proof.
  intros Hp. rewrite filter_type_parts.
  destruct (crossLists_severity (V.timedLines (V.perLinePass content)))
    as [H1 [H2 H3]].
  rewrite (filter_none _ (outOfOrderIssues _)), (filter_none _ (gapIssues _)),
    (filter_none _ (overlapIssues _)).
  - destruct (_ && _); cbn [List.filter app]; rewrite ?app_nil_r; [|reflexivity].
    rewrite Hp by reflexivity. apply app_nil_r.
  - eapply List.Forall_impl; [|exact H3]. intros i [Ht _].
    apply Hp. now rewrite Ht.
  - eapply List.Forall_impl; [|exact H2]. intros i [Ht _].
    apply Hp. now rewrite Ht.
  - eapply List.Forall_impl; [|exact H1]. intros i [Ht _].
    apply Hp. now rewrite Ht.
Qed.

Lemma countMulti_changes (content : str) :
  countType V.MultiTimestamp (V.issues (V.validateLRC content))
  = changes (normalizeLRC content).
Proof.
  unfold countType. rewrite filter_perLine_type
    by (intros i; now destruct (V.type i)).
  rewrite <- multiCount_changes.
  pose proof (forEachFrom_countMulti (split_nl content) 0 initValidate eq_refl)
    as Hcount.
  cbn zeta in Hcount. symmetry. exact Hcount.
Qed.

(** X10. The number of changes [normalizeLRC] reports is the number of
    multi-timestamp issues [validateLRC] reports for the same content,
    and the multi-timestamp flag of the result is set exactly when that
    number is positive. *)
Theorem changes_are_multi_issues (content : str) :
  changes (normalizeLRC content)
  = countType V.MultiTimestamp (V.issues (V.validateLRC content))
  /\ V.hasMultiTimestamps (V.validateLRC content)
     = (0 <? changes (normalizeLRC content)).
Proof.
  split; [symmetry; apply countMulti_changes|].
  cbn [V.validateLRC V.hasMultiTimestamps]. now rewrite multiCount_changes.
Qed.

(** ** The quick check *)

Lemma hasMultiTimestampIssues_false (content : str) :
  V.hasMultiTimestampIssues content = false ->
  Forall (fun l => length (scanTimestamps l) <= 1) (split_nl content).
Proof.
  unfold V.hasMultiTimestampIssues. intros H.
  apply List.Forall_forall. intros l Hl.
  destruct (Nat.leb_spec (length (scanTimestamps l)) 1) as [|Hgt]; [assumption|].
  assert (Ht : existsb (fun line => 1 <? length (map snd (scanTimestamps line)))
                       (split_nl content) = true).
  { apply existsb_exists. exists l. split; [exact Hl|].
    rewrite length_map. now apply Nat.ltb_lt. }
  congruence.
Qed.

(** X11. When the quick check [hasMultiTimestampIssues] answers false,
    [normalizeLRC] changes nothing but the white space around the lines
    and [validateLRC] does not set the multi-timestamp flag. *)
Theorem quick_check_negative (content : str) :
  V.hasMultiTimestampIssues content = false ->
  changes (normalizeLRC content) = 0
  /\ expandedLines (normalizeLRC content) = 0
  /\ normalized (normalizeLRC content) = join_nl (map trim (split_nl content))
  /\ V.hasMultiTimestamps (V.validateLRC content) = false.
Proof.
  intros H. apply hasMultiTimestampIssues_false in H.
  assert (E : normalizeLines (split_nl content)
              = mkNormState (map trim (split_nl content)) 0 0).
  { unfold normalizeLines. now rewrite fold_normalizeStep_single. }
  assert (Hc : changes (normalizeLRC content) = 0)
    by (unfold normalizeLRC; now rewrite E).
  repeat split.
  - exact Hc.
  - unfold normalizeLRC. now rewrite E.
  - unfold normalizeLRC. now rewrite E.
  - cbn [V.validateLRC V.hasMultiTimestamps].
    now rewrite multiCount_changes, Hc.
Qed.

Lemma quick_check_negative_witness :
  V.hasMultiTimestampIssues (lit "[00:01.00] one" ++ nl ++ lit " plain ")
  = false
  /\ normalized (normalizeLRC (lit "[00:01.00] one" ++ nl ++ lit " plain "))
     = lit "[00:01.00] one" ++ nl ++ lit "plain".
Proof.
  split; [vm_compute; reflexivity|].
  destruct (quick_check_negative
              (lit "[00:01.00] one" ++ nl ++ lit " plain "))
    as [_ [_ [E _]]]; [vm_compute; reflexivity|].
  rewrite E. vm_compute. reflexivity.
Defined.

(** The quick check reads metadata lines too, which neither the
    normalizer nor the validator do: it can answer true for a content
    they leave alone. *)
Example quick_check_metadata_line :
  let content := lit "[ti:[00:01.00][00:02.00]" in
  V.hasMultiTimestampIssues content = true
  /\ changes (normalizeLRC content) = 0
  /\ V.hasMultiTimestamps (V.validateLRC content) = false.
Proof. vm_compute. repeat split. Qed.

(** ** Normalizing twice *)

Lemma normalizeLRC_settled (lines : list str) :
  lines <> [] -> Forall settled lines -> Forall noNewline lines ->
  normalizeLRC (join_nl lines)
  = mkNormalizationResult (join_nl lines) (extractPlainLyrics (join_nl lines))
                          0 0.
Proof.
  intros Hne Hs Hn. unfold normalizeLRC, normalizeLines.
  rewrite split_join by assumption.
  rewrite fold_normalizeStep_settled by assumption. reflexivity.
Qed.

Lemma normalizeLRC_output (content : str) :
  let out := normalized (normalizeLRC content) in
  normalizeLRC out = mkNormalizationResult out (extractPlainLyrics out) 0 0.
Proof.
  cbn zeta.
  assert (E : normalized (normalizeLRC content)
              = join_nl (normalizedLines (normalizeLines (split_nl content))))
    by reflexivity.
  rewrite E. apply normalizeLRC_settled.
  - rewrite <- normalizeLRC_lines. apply split_nl_nonempty.
  - apply normalizeLines_settled.
  - rewrite <- normalizeLRC_lines. apply split_nl_noNewline.
Qed.

(** X12. [normalizeLRC] is idempotent: run on its own output it returns
    the same text and the same plain lyrics and reports no change and no
    expanded line. *)
Theorem normalizeLRC_idempotent (content : str) :
  let r := normalizeLRC content in
  normalizeLRC (normalized r)
  = mkNormalizationResult (normalized r) (plainLyrics r) 0 0.
Proof. cbn zeta. now rewrite normalizeLRC_output. Qed.

(** X13. After the auto-fix, of [normalizeLRC] alone or of the whole
    pipeline, the validator reports no multi-timestamp issue. *)
Theorem normalized_has_no_multi (content : str) :
  let r1 := V.validateLRC (normalized (normalizeLRC content)) in
  let r2 := V.validateLRC (normalized (normalizeAndSortLRC content)) in
  V.hasMultiTimestamps r1 = false
  /\ countType V.MultiTimestamp (V.issues r1) = 0
  /\ V.hasMultiTimestamps r2 = false
  /\ countType V.MultiTimestamp (V.issues r2) = 0.
Proof.
  cbn zeta. rewrite !countMulti_changes.
  cbn [V.validateLRC V.hasMultiTimestamps]. rewrite !multiCount_changes.
  rewrite normalizeLRC_output.
  destruct (pipeline_output_settled content) as [-> _].
  cbn [changes]. repeat split.
Qed.

(** ** The auto-fix handler and the pre-submit check *)

Lemma pipeline_twice (content : str) :
  let r := normalizeAndSortLRC content in
  normalizeAndSortLRC (normalized r)
  = mkNormalizationResult (normalized r) (plainLyrics r) 0 0.
Proof.
  cbn zeta. destruct (pipeline_output_settled content) as [Hn Hs].
  cbn zeta in Hn, Hs.
  set (out := normalized (normalizeAndSortLRC content)) in *.
  unfold normalizeAndSortLRC at 1. rewrite Hn. cbn [normalized changes expandedLines].
  rewrite Hs. reflexivity.
Qed.

(** X14. After the auto-fix the pre-submit check lets the form through,
    whatever the form held before. *)
Theorem handleNormalize_then_submit (f : PageForm.FormPage) :
  fst (PageForm.validateBeforeSubmit (PageForm.handleNormalize f)) = true.
Proof.
  unfold PageForm.handleNormalize.
  destruct (isEmpty (trim (Page.syncedLyrics (PageForm.page f)))) eqn:Ee.
  - unfold PageForm.validateBeforeSubmit, Page.validateBeforeSubmit.
    now rewrite Ee.
  - cbn zeta.
    set (out := normalized
                  (normalizeAndSortLRC (Page.syncedLyrics (PageForm.page f)))).
    assert (Hm : V.hasMultiTimestamps (V.validateLRC out) = false).
    { cbn [V.validateLRC V.hasMultiTimestamps]. rewrite multiCount_changes.
      subst out.
      destruct (pipeline_output_settled (Page.syncedLyrics (PageForm.page f)))
        as [-> _]. reflexivity. }
    unfold V.validateSyncedLyrics.
    destruct (negb (V.isValid (V.validateLRC out)));
      unfold PageForm.validateBeforeSubmit, Page.validateBeforeSubmit;
      cbn [PageForm.page Page.syncedLyrics];
      (destruct (isEmpty (trim out)); [reflexivity|]);
      unfold V.validateSyncedLyrics; rewrite Hm, andb_false_r; reflexivity.
Qed.

(** X15. The auto-fix handler applied twice leaves the lyrics fields, the
    validation result and the warning flag as after the first time; only
    the banner text changes. *)
Theorem handleNormalize_twice (f : PageForm.FormPage) :
  let f1 := PageForm.handleNormalize f in
  let f2 := PageForm.handleNormalize f1 in
  PageForm.page f2 = PageForm.page f1
  /\ PageForm.plainLyrics f2 = PageForm.plainLyrics f1
  /\ PageForm.validationOverridden f2 = PageForm.validationOverridden f1.
Proof.
  cbn zeta. remember (PageForm.handleNormalize f) as f1 eqn:E1.
  unfold PageForm.handleNormalize in E1.
  destruct (isEmpty (trim (Page.syncedLyrics (PageForm.page f)))) eqn:Ee.
  { subst f1. unfold PageForm.handleNormalize. rewrite Ee. auto. }
  cbn zeta in E1.
  pose proof (pipeline_twice (Page.syncedLyrics (PageForm.page f))) as Htw.
  cbn zeta in Htw.
  set (r := normalizeAndSortLRC (Page.syncedLyrics (PageForm.page f))) in *.
  unfold V.validateSyncedLyrics in E1.
  destruct (V.isValid (V.validateLRC (normalized r))) eqn:Ev; cbn [negb] in E1;
    subst f1; unfold PageForm.handleNormalize;
    cbn [PageForm.page Page.syncedLyrics];
    (destruct (isEmpty (trim (normalized r))); [auto|]);
    cbn zeta; rewrite Htw; cbn [normalized plainLyrics];
    unfold V.validateSyncedLyrics; rewrite Ev; cbn [negb];
    cbn [PageForm.page PageForm.plainLyrics PageForm.validationOverridden
         Page.isSubmitting]; auto.
Qed.

(** ** What the sorter keeps *)

Lemma metasOf_filter (lines : list str) :
  metasOf lines = List.filter isMetadata (map trim lines).
Proof.
  unfold metasOf. induction lines as [|l lines IH]; [reflexivity|].
  cbn [flat_map map List.filter]. rewrite IH.
  now destruct (isMetadata (trim l)).
Qed.

Lemma timedOf_filter (lines : list str) :
  map snd (timedOf lines) = List.filter isTimedLine (map trim lines).
Proof.
  unfold timedOf, isTimedLine.
  induction lines as [|l lines IH]; [reflexivity|].
  cbn [flat_map map List.filter]. rewrite map_app, IH.
  destruct (isMetadata (trim l)); [reflexivity|].
  now destruct (sortKey (trim l)).
Qed.

Lemma othersOf_filter (lines : list str) :
  othersOf lines = List.filter isOtherLine (map trim lines).
Proof.
  unfold othersOf, isOtherLine.
  induction lines as [|l lines IH]; [reflexivity|].
  cbn [flat_map map List.filter]. rewrite IH.
  destruct (isMetadata (trim l)); [reflexivity|].
  destruct (sortKey (trim l)); [reflexivity|].
  now destruct (isEmpty (trim l)).
Qed.

Lemma insertTimed_perm (x : Z * str) (l : list (Z * str)) :
  Permutation (insertTimed x l) (x :: l).
Proof.
  induction l as [|y l IH]; cbn [insertTimed]; [reflexivity|].
  destruct (fst x <=? fst y)%Z; [reflexivity|].
  rewrite IH. apply perm_swap.
Qed.

Lemma sortTimed_perm (l : list (Z * str)) : Permutation (sortTimed l) l.
Proof.
  induction l as [|x l IH]; [reflexivity|].
  cbn [sortTimed fold_right]. fold (sortTimed l).
  rewrite insertTimed_perm. now constructor.
Qed.

Lemma buckets_perm (T : list str) :
  Permutation
    (List.filter isMetadata T ++ List.filter isTimedLine T
     ++ List.filter isOtherLine T)
    (List.filter (fun l => negb (isEmpty l)) T).
Proof.
  induction T as [|l T IH]; [reflexivity|].
  cbn [List.filter]. unfold isTimedLine at 1, isOtherLine at 1.
  destruct (isMetadata l) eqn:Em; cbn [negb andb].
  - assert (isEmpty l = false) as -> by (destruct l; [discriminate | reflexivity]).
    cbn [negb app]. now constructor.
  - destruct (sortKey l) as [k|] eqn:Ek.
    + assert (isEmpty l = false) as -> by (destruct l; [discriminate | reflexivity]).
      cbn [negb app]. rewrite <- Permutation_middle. now constructor.
    + destruct (isEmpty l); cbn [negb]; [exact IH|].
      rewrite app_assoc, <- Permutation_middle, <- app_assoc. now constructor.
Qed.

Lemma sortedLines_nonblank (lines : list str) :
  Forall (fun o => o <> []) (sortedLines lines).
Proof.
  eapply List.Forall_impl; [|apply sortedLines_from].
  now intros o [l [_ [_ H]]].
Qed.

Lemma sortedLines_noNewline (lines : list str) :
  Forall noNewline lines -> Forall noNewline (sortedLines lines).
Proof.
  intros H. rewrite List.Forall_forall in H.
  eapply List.Forall_impl; [|apply sortedLines_from].
  intros o [l [Hin [-> _]]]. apply trim_line_noNewline. now apply H.
Qed.

(** X16. [sortLRCLines] returns the trimmed non-blank lines of its input,
    each exactly once: the metadata lines, then the lines that start with
    a timestamp in non-decreasing order of the sort key, then the other
    lines. *)
Theorem sortLRCLines_keeps_lines (content : str) :
  exists metas timed others,
    sortLRCLines content = join_nl (metas ++ map snd timed ++ others)
    /\ Forall metaLine metas
    /\ Forall timedEntry timed /\ Sorted keyLe timed
    /\ Forall otherLine others
    /\ Permutation (metas ++ map snd timed ++ others)
         (List.filter (fun l => negb (isEmpty l))
                      (map trim (split_nl content))).
Proof.
  exists (metasOf (split_nl content)), (sortTimed (timedOf (split_nl content))),
    (othersOf (split_nl content)).
  destruct (buckets_classified (split_nl content)) as [Hm [Ht Ho]].
  split; [apply sortLRCLines_sortedLines|].
  split; [exact Hm|]. split; [now apply sortTimed_Forall|].
  split; [apply sortTimed_sorted|]. split; [exact Ho|].
  rewrite <- buckets_perm, metasOf_filter, othersOf_filter, <- timedOf_filter.
  apply Permutation_app_head, Permutation_app_tail, Permutation_map,
    sortTimed_perm.
Qed.

(** ** Stability and order within the buckets *)

Lemma insertTimed_filter (k : Z) (x : Z * str) (l : list (Z * str)) :
  List.filter (fun e => (fst e =? k)%Z) (insertTimed x l)
  = List.filter (fun e => (fst e =? k)%Z) (x :: l).
Proof.
  induction l as [|y l IH]; cbn [insertTimed]; [reflexivity|].
  destruct (fst x <=? fst y)%Z eqn:E; [reflexivity|].
  apply Z.leb_gt in E.
  cbn [List.filter] in *. rewrite IH.
  destruct (Z.eqb_spec (fst x) k), (Z.eqb_spec (fst y) k); try reflexivity.
  lia.
Qed.

Lemma sortTimed_filter (k : Z) (l : list (Z * str)) :
  List.filter (fun e => (fst e =? k)%Z) (sortTimed l)
  = List.filter (fun e => (fst e =? k)%Z) l.
Proof.
  induction l as [|x l IH]; [reflexivity|].
  cbn [sortTimed fold_right]. fold (sortTimed l).
  rewrite insertTimed_filter. cbn [List.filter]. now rewrite IH.
Qed.

Lemma timedOf_hasKey (k : Z) (lines : list str) :
  map snd (List.filter (fun e => (fst e =? k)%Z) (timedOf lines))
  = List.filter (hasKey k) (map trim lines).
Proof.
  unfold timedOf, hasKey.
  induction lines as [|l lines IH]; [reflexivity|].
  cbn [flat_map map List.filter]. rewrite List.filter_app, map_app, IH.
  destruct (isMetadata (trim l)); [reflexivity|].
  destruct (sortKey (trim l)) as [k'|]; [|reflexivity].
  cbn [List.filter fst negb andb]. now destruct (k' =? k)%Z.
Qed.

(** X17. The sort is stable: the timed lines with the same sort key come
    out in the order they had in the input; so do the metadata lines and
    the other lines. *)
Theorem sortLRCLines_stable (content : str) :
  let lines := map trim (split_nl content) in
  exists timed,
    sortLRCLines content
    = join_nl (List.filter isMetadata lines ++ map snd timed
               ++ List.filter isOtherLine lines)
    /\ Sorted keyLe timed
    /\ forall k,
         map snd (List.filter (fun e => (fst e =? k)%Z) timed)
         = List.filter (hasKey k) lines.
Proof.
  cbn zeta. exists (sortTimed (timedOf (split_nl content))).
  split; [|split].
  - rewrite sortLRCLines_sortedLines. unfold sortedLines.
    now rewrite metasOf_filter, othersOf_filter.
  - apply sortTimed_sorted.
  - intros k. now rewrite sortTimed_filter, timedOf_hasKey.
Qed.

(** ** Sorting twice *)

Lemma sortLRCLines_lines (lines : list str) :
  Forall noNewline lines ->
  sortLRCLines (join_nl (sortedLines lines)) = join_nl (sortedLines lines).
Proof.
  intros Hn. rewrite sortLRCLines_sortedLines.
  destruct (sortedLines lines) as [|o os] eqn:E; [reflexivity|].
  rewrite split_join.
  - now rewrite <- E, sortedLines_idem.
  - discriminate.
  - rewrite <- E. now apply sortedLines_noNewline.
Qed.

(** X18. [sortLRCLines] is idempotent. *)
Theorem sortLRCLines_idempotent (content : str) :
  sortLRCLines (sortLRCLines content) = sortLRCLines content.
Proof.
  rewrite (sortLRCLines_sortedLines content).
  apply sortLRCLines_lines, split_nl_noNewline.
Qed.

(** ** Line counts of the normalizer *)

Lemma lineOutput_counts (rawLine : str) :
  length (lineOutput rawLine) + lineChanges rawLine = 1 + lineExpanded rawLine
  /\ 2 * lineChanges rawLine <= lineExpanded rawLine
  /\ lineChanges rawLine <= 1.
Proof.
  unfold lineOutput, lineChanges, lineExpanded, normalizeStep.
  destruct (isEmpty (trim rawLine) || isMetadata (trim rawLine));
    [cbn; lia|].
  destruct (length (map snd (scanTimestamps (trim rawLine))) <=? 1) eqn:El;
    [cbn; lia|].
  apply Nat.leb_gt in El. rewrite fold_expandStep.
  cbn [normalizedLines changesCount expandedLinesCount initNorm app].
  rewrite length_map. lia.
Qed.

(** X19. [normalizeLRC] replaces each changed line by its expanded lines
    and keeps every other line: the output has as many lines as the input,
    less the changed ones, plus the expanded ones; every change gives at
    least two expanded lines, and no line is changed twice. *)
Theorem normalizeLRC_line_counts (content : str) :
  let r := normalizeLRC content in
  length (split_nl (normalized r)) + changes r
  = length (split_nl content) + expandedLines r
  /\ 2 * changes r <= expandedLines r
  /\ changes r <= length (split_nl content).
Proof.
  cbn zeta. rewrite normalizeLRC_lines.
  unfold normalizeLRC, normalizeLines. cbn [changes expandedLines].
  rewrite normalizeLines_contributions.
  cbn [normalizedLines changesCount expandedLinesCount initNorm app Nat.add].
  induction (split_nl content) as [|l ls IH]; [cbn; lia|].
  cbn [map concat length]. rewrite length_app.
  unfold list_sum in *. cbn [fold_right].
  pose proof (lineOutput_counts l). lia.
Qed.

(** ** Blank content *)

Lemma allWhite_trim (s : str) : allWhite s -> trim s = [].
Proof.
  intros H. assert (E : trimStart s = []).
  { induction H as [|c s Hc _ IH]; [reflexivity|]. cbn [trimStart]. now rewrite Hc. }
  unfold trim. now rewrite E.
Qed.

Lemma trim_nil_allWhite (s : str) : trim s = [] -> allWhite s.
Proof.
  intros H. destruct (trim_decomp s) as [a [b [E [Wa Wb]]]].
  rewrite H in E. rewrite E. apply Forall_app. now split.
Qed.

Lemma split_nl_allWhite (s : str) : allWhite s -> Forall allWhite (split_nl s).
Proof.
  induction 1 as [|c s Hc _ IH]; cbn [split_nl].
  - repeat constructor.
  - destruct (char_eqb c 10%N).
    + constructor; [constructor | exact IH].
    + destruct (split_nl s) as [|l ls]; [repeat constructor; exact Hc|].
      inversion IH; subst.
      constructor; [constructor; assumption | assumption].
Qed.

Lemma blank_lines (content : str) :
  trim content = [] -> Forall (fun l => trim l = []) (split_nl content).
Proof.
  intros H. eapply List.Forall_impl; [|apply split_nl_allWhite, trim_nil_allWhite, H].
  apply allWhite_trim.
Qed.

Lemma forEachFrom_blank (lines : list str) :
  Forall (fun l => trim l = []) lines ->
  forall k st, V.forEachFrom V.validateStep k lines st = st.
Proof.
  induction 1 as [|l lines Hl _ IH]; intros k st; [reflexivity|].
  cbn [V.forEachFrom]. rewrite IH. unfold V.validateStep. now rewrite Hl.
Qed.

Lemma sortedLines_blank (lines : list str) :
  Forall (fun l => trim l = []) lines -> sortedLines lines = [].
Proof.
  intros H. pose proof (sortedLines_from lines) as Hf.
  destruct (sortedLines lines) as [|o os]; [reflexivity|].
  inversion Hf as [|? ? [l [Hin [-> Hne]]] _]; subst.
  rewrite List.Forall_forall in H. now rewrite (H _ Hin) in Hne.
Qed.

(** X20. A content that is blank (empty, or white space and line breaks
    only) is valid, with no issue, no flag and a line count of zero, and
    the auto-fix pipeline turns it into the empty text without reporting
    a change. *)
Theorem blank_content (content : str) :
  trim content = [] ->
  V.validateLRC content
  = V.mkResult true [] false false false false 0 0 (fun _ => 0)
  /\ normalizeAndSortLRC content = mkNormalizationResult [] [] 0 0.
Proof.
  intros H. pose proof (blank_lines _ H) as Hb. split.
  - unfold V.validateLRC, V.allIssues, V.perLinePass.
    rewrite forEachFrom_blank by assumption. rewrite H.
    cbn [V.timedLines V.vs_issues V.adjacent fold_left length Nat.eqb Nat.ltb
         Nat.leb andb V.multiTimestampCount V.elrcCount existsb V.countByType].
    f_equal.
    induction Hb as [|l ls Hl _ IH]; [reflexivity|].
    cbn [List.filter]. rewrite Hl. exact IH.
  - assert (Hs : Forall (fun l => length (scanTimestamps l) <= 1)
                        (split_nl content)).
    { eapply List.Forall_impl; [|apply split_nl_allWhite, trim_nil_allWhite, H].
      intros l Hl. unfold scanTimestamps.
      rewrite scanFrom_white by assumption. cbn. lia. }
    unfold normalizeAndSortLRC, normalizeLRC, normalizeLines.
    rewrite fold_normalizeStep_single by assumption.
    cbn [normalizedLines changesCount expandedLinesCount normalized changes
         expandedLines app].
    assert (E : sortLRCLines (join_nl (map trim (split_nl content))) = []).
    { rewrite sortLRCLines_sortedLines, split_join.
      - rewrite sortedLines_blank; [reflexivity|].
        apply List.Forall_forall. intros l Hin.
        apply in_map_iff in Hin as [l' [<- Hin']]. rewrite trim_idem.
        rewrite List.Forall_forall in Hb. now apply Hb.
      - pose proof (split_nl_nonempty content).
        destruct (split_nl content); [contradiction | discriminate].
      - apply List.Forall_forall. intros l Hin.
        apply in_map_iff in Hin as [l' [<- Hin']].
        apply trim_line_noNewline.
        pose proof (split_nl_noNewline content) as Hn.
        rewrite List.Forall_forall in Hn. now apply Hn. }
    rewrite E. reflexivity.
Qed.

Lemma blank_content_witness :
  normalized (normalizeAndSortLRC (lit "  " ++ nl ++ lit " ")) = []
  /\ V.isValid (V.validateLRC (lit "  " ++ nl ++ lit " ")) = true.
Proof.
  destruct (blank_content (lit "  " ++ nl ++ lit " ")) as [Hv Hn];
    [vm_compute; reflexivity|].
  rewrite Hv, Hn. split; reflexivity.
Defined.

(** ** Plain lyrics of normalized content *)

Lemma scanTimestamps_after_token (tok rest : str) :
  timestampAt (tok ++ rest) = Some tok ->
  length (scanTimestamps (tok ++ rest)) <= 1 ->
  scanTimestamps rest = [].
Proof.
  intros Htok Hlen. unfold scanTimestamps in *.
  pose proof (timestampAt_length _ _ Htok) as Hl.
  destruct tok as [|c t]; [simpl in Hl; lia|].
  cbn [app scanFrom] in Hlen. change (c :: t ++ rest) with ((c :: t) ++ rest) in Hlen.
  rewrite Htok in Hlen.
  replace (length (c :: t) - 1) with (length t) in Hlen by (cbn [length]; lia).
  rewrite scanFrom_skip in Hlen.
  rewrite skipn_app, skipn_all, Nat.sub_diag in Hlen.
  change (drop 0 rest) with rest in Hlen. cbn [app] in Hlen.
  apply (scanFrom_nil_pos _ _ _ (1 + length t)).
  destruct (scanFrom timestampAt 0 (1 + length t) rest) eqn:E; [reflexivity|].
  cbn [length] in Hlen. lia.
Qed.

Lemma timedText_settled (l : str) :
  settled l -> noNewline l ->
  Forall (fun t => tokenFree t /\ noNewline t) (timedText l).
Proof.
  intros [Ht Hc] Hn. unfold timedText. rewrite Ht.
  destruct (isMetadata l) eqn:Em; [constructor|].
  destruct (matchTimestamp l) as [m|] eqn:E; [|constructor].
  destruct (hasNoLineTerminator _ && negb _); [|constructor].
  constructor; [|constructor].
  assert (Hat : timestampAt l = Some (ts_text m))
    by (unfold timestampAt; now rewrite E).
  pose proof (timestampAt_firstn _ _ Hat) as El.
  set (rest := skipn (length (ts_text m)) l) in *.
  assert (Hlen : length (scanTimestamps l) <= 1).
  { destruct Hc as [Hc | Hc]; [|exact Hc].
    rewrite orb_false_r in Hc. destruct l; [|discriminate].
    cbn. lia. }
  rewrite El in Hat, Hlen.
  pose proof (scanTimestamps_after_token _ _ Hat Hlen) as Hrest.
  split; [split|].
  - apply trim_idem.
  - pose proof (scanTimestamps_trim rest) as Hs. rewrite Hrest in Hs.
    now apply map_eq_nil in Hs.
  - apply trim_line_noNewline. rewrite El in Hn.
    now apply noNewline_app in Hn as [_ Hn].
Qed.

Lemma extract_settled (lines : list str) :
  Forall settled lines -> Forall noNewline lines ->
  Forall tokenFree
    (split_nl (join_nl (concat (map timedText lines)))).
Proof.
  intros Hs Hn.
  assert (H : Forall (fun t => tokenFree t /\ noNewline t)
                     (concat (map timedText lines))).
  { induction Hs as [|l ls Hl _ IH]; [constructor|].
    inversion Hn; subst. cbn [map concat]. apply Forall_app.
    split; [now apply timedText_settled | now apply IH]. }
  destruct (concat (map timedText lines)) as [|t ts] eqn:E.
  - repeat constructor.
  - rewrite <- E in *. rewrite split_join.
    + eapply List.Forall_impl; [|exact H]. now intros x [Hx _].
    + rewrite E. discriminate.
    + eapply List.Forall_impl; [|exact H]. now intros x [_ Hx].
Qed.

Lemma pipeline_lines_settled (content : str) :
  Forall (fun o => settled o /\ noNewline o)
         (split_nl (normalized (normalizeAndSortLRC content))).
Proof.
  unfold normalizeAndSortLRC. cbn [normalized].
  rewrite sortLRCLines_sortedLines, normalizeLRC_lines.
  set (NL := normalizedLines (normalizeLines (split_nl content))).
  assert (Hset : Forall settled NL) by apply normalizeLines_settled.
  assert (Hnl : Forall noNewline NL).
  { subst NL. rewrite <- normalizeLRC_lines. apply split_nl_noNewline. }
  assert (HO : Forall (fun o => settled o /\ noNewline o) (sortedLines NL)).
  { eapply List.Forall_impl; [|apply sortedLines_from].
    cbn beta. intros o [l [Hin [-> Hne]]].
    rewrite List.Forall_forall in Hset, Hnl.
    destruct (Hset l Hin) as [Ht Hc]. rewrite Ht. split; [|now apply Hnl].
    split; assumption. }
  destruct (sortedLines NL) as [|o O'] eqn:EO.
  - cbn. repeat constructor.
  - rewrite <- EO in *. rewrite split_join; [exact HO | rewrite EO; discriminate|].
    eapply List.Forall_impl; [|exact HO]. now intros x [_ Hx].
Qed.

(** X21. No line of the plain lyrics the auto-fix derives, after
    [normalizeLRC] or after the whole pipeline, holds a timestamp token,
    and each is trimmed. *)
Theorem plainLyrics_token_free (content : str) :
  Forall tokenFree (split_nl (plainLyrics (normalizeLRC content)))
  /\ Forall tokenFree (split_nl (plainLyrics (normalizeAndSortLRC content))).
Proof.
  split.
  - unfold normalizeLRC at 1. cbn [plainLyrics].
    change (join_nl (normalizedLines (normalizeLines (split_nl content))))
      with (normalized (normalizeLRC content)).
    unfold extractPlainLyrics. rewrite fold_extractStep. cbn [app].
    apply extract_settled.
    + rewrite normalizeLRC_lines. apply normalizeLines_settled.
    + apply split_nl_noNewline.
  - unfold normalizeAndSortLRC at 1. cbn [plainLyrics].
    change (sortLRCLines (normalized (normalizeLRC content)))
      with (normalized (normalizeAndSortLRC content)).
    unfold extractPlainLyrics. rewrite fold_extractStep. cbn [app].
    pose proof (pipeline_lines_settled content) as H.
    apply extract_settled.
    + eapply List.Forall_impl; [|exact H]. now intros x [Hx _].
    + apply split_nl_noNewline.
Qed.

(** Without the auto-fix the plain lyrics can keep a token: the text
    after the first token of a multi-timestamp line starts with the
    second. *)
Example extractPlainLyrics_keeps_token :
  extractPlainLyrics (lit "[00:01.00][00:02.00] la") = lit "[00:02.00] la".
Proof. vm_compute. reflexivity. Qed.

(** ** The banner: issues grouped by type *)

Lemma IssueType_eqb_spec (a b : V.IssueType) :
  reflect (a = b) (V.IssueType_eqb a b).
Proof. destruct a, b; constructor; congruence. Qed.

Lemma NoDup_snoc {A : Type} (l : list A) (a : A) :
  List.NoDup l -> ~ In a l -> List.NoDup (l ++ [a]).
Proof.
  induction 1 as [|b l Hb Hl IH]; intros Ha; cbn [app].
  - constructor; [intros [] | constructor].
  - constructor.
    + rewrite in_app_iff. intros [Hin | [<- | []]]; [contradiction|].
      apply Ha. now left.
    + apply IH. intros Hin. apply Ha. now right.
Qed.

Lemma existsb_map {A B : Type} (p : B -> bool) (f : A -> B) (l : list A) :
  existsb p (map f l) = existsb (fun x => p (f x)) l.
Proof. induction l as [|x l IH]; [reflexivity|]. cbn. now rewrite IH. Qed.

Lemma has_In (t : V.IssueType) (G : ValidationWarning.Groups) :
  ValidationWarning.has t G = true <-> In t (map fst G).
Proof.
  unfold ValidationWarning.has. rewrite existsb_exists, in_map_iff. split.
  - intros [e [Hin He]]. exists e. split; [|exact Hin].
    now destruct (IssueType_eqb_spec (fst e) t).
  - intros [e [<- Hin]]. exists e. split; [exact Hin|].
    now destruct (IssueType_eqb_spec (fst e) (fst e)).
Qed.

Lemma pushTo_keys (t : V.IssueType) (x : V.LRCValidationIssue)
  (G : ValidationWarning.Groups) :
  map fst (ValidationWarning.pushTo t x G) = map fst G.
Proof.
  induction G as [|[k v] G IH]; [reflexivity|].
  cbn [ValidationWarning.pushTo]. destruct (V.IssueType_eqb k t); [reflexivity|].
  cbn [map fst]. now rewrite IH.
Qed.

Lemma filter_typeIs_snoc (k : V.IssueType) (l : list V.LRCValidationIssue)
  (x : V.LRCValidationIssue) :
  List.filter (typeIs k) (l ++ [x])
  = List.filter (typeIs k) l ++ (if V.IssueType_eqb k (V.type x) then [x] else []).
Proof.
  rewrite List.filter_app. cbn [List.filter]. unfold typeIs at 2.
  destruct (IssueType_eqb_spec (V.type x) k), (IssueType_eqb_spec k (V.type x));
    congruence.
Qed.

Lemma pushTo_groups (l : list V.LRCValidationIssue) (x : V.LRCValidationIssue)
  (G : ValidationWarning.Groups) :
  List.NoDup (map fst G) ->
  Forall (fun e => snd e = List.filter (typeIs (fst e)) l) G ->
  Forall (fun e => snd e = List.filter (typeIs (fst e)) (l ++ [x]))
         (ValidationWarning.pushTo (V.type x) x G).
Proof.
  induction G as [|[k v] G IH]; intros Hnd HG; [constructor|].
  inversion Hnd as [|? ? Hnot Hnd']; inversion HG as [|? ? Hv HG']; subst.
  cbn [fst snd] in *. cbn [ValidationWarning.pushTo].
  destruct (IssueType_eqb_spec k (V.type x)) as [-> | Hne].
  - constructor.
    + cbn [fst snd]. rewrite filter_typeIs_snoc, Hv.
      now destruct (IssueType_eqb_spec (V.type x) (V.type x)).
    + apply List.Forall_forall. intros e He.
      rewrite List.Forall_forall in HG'. rewrite (HG' e He), filter_typeIs_snoc.
      destruct (IssueType_eqb_spec (fst e) (V.type x)) as [E|_];
        [|now rewrite app_nil_r].
      elim Hnot. rewrite <- E. now apply in_map.
  - constructor; [|now apply IH].
    cbn [fst snd]. rewrite filter_typeIs_snoc, Hv.
    destruct (IssueType_eqb_spec k (V.type x)); [contradiction|].
    now rewrite app_nil_r.
Qed.

Lemma groupStep_grouped (l : list V.LRCValidationIssue)
  (x : V.LRCValidationIssue) (G : ValidationWarning.Groups) :
  grouped l G -> grouped (l ++ [x]) (ValidationWarning.groupStep G x).
Proof.
  intros [Hnd [HG Hhas]]. unfold ValidationWarning.groupStep.
  set (G' := if negb (ValidationWarning.has (V.type x) G)
             then G ++ [(V.type x, [])] else G).
  assert (H' : List.NoDup (map fst G')
               /\ Forall (fun e => snd e = List.filter (typeIs (fst e)) l) G'
               /\ forall t, ValidationWarning.has t G'
                            = existsb (typeIs t) l
                              || V.IssueType_eqb (V.type x) t).
  { subst G'. destruct (ValidationWarning.has (V.type x) G) eqn:Eh; cbn [negb].
    - split; [exact Hnd|]. split; [exact HG|]. intros t. rewrite Hhas.
      destruct (IssueType_eqb_spec (V.type x) t) as [<-|_];
        [|now rewrite orb_false_r].
      rewrite <- Hhas, Eh. reflexivity.
    - assert (Hnot : ~ In (V.type x) (map fst G)).
      { intros Hin. apply has_In in Hin. congruence. }
      split; [|split].
      + rewrite map_app. cbn [map fst]. now apply NoDup_snoc.
      + apply Forall_app. split; [exact HG|]. constructor; [|constructor].
        cbn [fst snd]. rewrite Hhas in Eh. symmetry. apply filter_none.
        apply List.Forall_forall. intros i Hi.
        destruct (typeIs (V.type x) i) eqn:E; [|reflexivity].
        assert (existsb (typeIs (V.type x)) l = true)
          by (apply existsb_exists; now exists i).
        congruence.
      + intros t. unfold ValidationWarning.has. rewrite existsb_app.
        fold (ValidationWarning.has t G). rewrite Hhas.
        cbn [existsb fst]. now rewrite orb_false_r. }
  destruct H' as [Hnd' [HG' Hhas']].
  split; [|split].
  - now rewrite pushTo_keys.
  - now apply pushTo_groups.
  - intros t.
    assert (E : ValidationWarning.has t
                  (ValidationWarning.pushTo (V.type x) x G')
                = ValidationWarning.has t G').
    { unfold ValidationWarning.has.
      rewrite <- (existsb_map (fun k => V.IssueType_eqb k t) fst),
        <- (existsb_map (fun k => V.IssueType_eqb k t) fst G').
      now rewrite pushTo_keys. }
    rewrite E, Hhas', existsb_app. cbn [existsb]. unfold typeIs at 3.
    now rewrite orb_false_r.
Qed.

Lemma fold_groupStep_grouped (l : list V.LRCValidationIssue) :
  grouped l (fold_left ValidationWarning.groupStep l []).
Proof.
  induction l as [|x l IH] using rev_ind.
  - split; [constructor|]. split; [constructor | reflexivity].
  - rewrite fold_left_app. cbn [fold_left]. now apply groupStep_grouped.
Qed.

(** X22. The banner groups the issues by type without losing or
    repeating any: the keys are distinct, a type is a key exactly when
    some issue has it, and the group of a key holds the issues of that
    type in their order in the result, so no group is empty. *)
Theorem issuesByType_groups (r : V.LRCValidationResult) :
  let G := ValidationWarning.issuesByType r in
  List.NoDup (map fst G)
  /\ (forall t, ValidationWarning.has t G = existsb (typeIs t) (V.issues r))
  /\ Forall (fun e => snd e = List.filter (typeIs (fst e)) (V.issues r)
                      /\ snd e <> []) G.
Proof.
  cbn zeta. unfold ValidationWarning.issuesByType.
  destruct (fold_groupStep_grouped (V.issues r)) as [Hnd [HG Hhas]].
  split; [exact Hnd|]. split; [exact Hhas|].
  apply List.Forall_forall. intros e He.
  rewrite List.Forall_forall in HG. split; [now apply HG|].
  rewrite (HG e He).
  assert (Hh : ValidationWarning.has (fst e)
                 (fold_left ValidationWarning.groupStep (V.issues r) []) = true)
    by (apply has_In; now apply in_map).
  rewrite Hhas in Hh. apply existsb_exists in Hh as [i [Hin Hi]].
  intros E.
  assert (Hf : In i (List.filter (typeIs (fst e)) (V.issues r)))
    by (apply List.filter_In; now split).
  rewrite E in Hf. destruct Hf.
Qed.

(** ** The summary line *)

Lemma toString_head (n : Z) :
  exists d rest, toString n = d :: rest /\ isDigit d = true.
Proof.
  unfold toString.
  assert (Hne : N.to_uint (Z.to_N n) <> Decimal.Nil).
  { destruct (Z.to_N n) as [|p]; [discriminate|].
    apply DecimalPos.Unsigned.to_uint_nonnil. }
  destruct (N.to_uint (Z.to_N n)) as [|u|u|u|u|u|u|u|u|u|u];
    [contradiction|..]; cbn [NilEmpty.string_of_uint lit list_ascii_of_string map];
    eexists; eexists; (split; [reflexivity|]); reflexivity.
Qed.

Lemma filter_severity_total (l : list V.LRCValidationIssue) :
  length (List.filter (fun i => V.Severity_eqb (V.severity i) V.Error) l)
  + length (List.filter (fun i => V.Severity_eqb (V.severity i) V.Warning) l)
  = length l.
Proof.
  induction l as [|i l IH]; [reflexivity|].
  cbn [List.filter]. destruct (V.severity i); cbn; lia.
Qed.

Lemma join_with_head (sep p : str) (ps : list str) :
  exists rest, V.join_with sep (p :: ps) = p ++ rest.
Proof.
  destruct ps as [|q ps]; [exists []; cbn; now rewrite app_nil_r|].
  eexists. cbn [V.join_with]. reflexivity.
Qed.

(** X23. For a result of [validateLRC] the summary reads "LRC format is
    valid" exactly when the result is valid; the errors and the warnings
    it counts otherwise are all the issues of the result. *)
Theorem getValidationSummary_valid_iff (content : str) :
  let r := V.validateLRC content in
  (V.getValidationSummary r = lit "LRC format is valid"
   <-> V.isValid r = true)
  /\ length (List.filter (fun i => V.Severity_eqb (V.severity i) V.Error)
                         (V.issues r))
     + length (List.filter (fun i => V.Severity_eqb (V.severity i) V.Warning)
                           (V.issues r))
     = V.affectedLines r.
Proof.
  cbn zeta. split; [|apply filter_severity_total].
  unfold V.getValidationSummary.
  destruct (V.isValid (V.validateLRC content)) eqn:Ev; [tauto|].
  split; [|discriminate]. intros E. exfalso. revert E. cbn zeta.
  pose proof (filter_severity_total (V.issues (V.validateLRC content))) as Ht.
  assert (Hpos : 0 < length (V.issues (V.validateLRC content))).
  { cbn [V.validateLRC V.isValid V.issues] in *.
    apply Nat.eqb_neq in Ev. lia. }
  set (e := length (List.filter
                      (fun i => V.Severity_eqb (V.severity i) V.Error) _)) in *.
  set (w := length (List.filter
                      (fun i => V.Severity_eqb (V.severity i) V.Warning) _)) in *.
  assert (Hd : forall n noun ps,
            exists d rest, V.join_with (lit ", ") (V.countPart n noun :: ps)
                           = d :: rest /\ isDigit d = true).
  { intros n noun ps.
    destruct (join_with_head (lit ", ") (V.countPart n noun) ps) as [r ->].
    unfold V.countPart, V.natToString.
    destruct (toString_head (Z.of_nat n)) as [d [rest [-> Hd]]].
    exists d. eexists. split; [reflexivity | exact Hd]. }
  destruct (0 <? e) eqn:Ee; cbn [app].
  - destruct (0 <? w); cbn [app].
    + destruct (Hd e (lit " error") [V.countPart w (lit " warning")])
        as [d' [rest' [Hs' Hdig']]].
      rewrite Hs'. intros E. injection E as -> _. discriminate.
    + destruct (Hd e (lit " error") []) as [d' [rest' [Hs' Hdig']]].
      rewrite Hs'. intros E. injection E as -> _. discriminate.
  - apply Nat.ltb_ge in Ee.
    assert (Hw : (0 <? w) = true) by (apply Nat.ltb_lt; lia).
    rewrite Hw. cbn [app].
    destruct (Hd w (lit " warning") []) as [d' [rest' [Hs' Hdig']]].
    rewrite Hs'. intros E. injection E as -> _. discriminate.
Qed.

(** ** Re-emitted tokens *)

(** X24. Outside the fractions 995 to 999, [normalizeTimestamp] turns a
    token into a token with a two-digit fraction from which the validator
    reads the same time, and which [normalizeTimestamp] leaves as it is. *)
Theorem normalizeTimestamp_keeps_time (s : str) (m : tsMatch) :
  matchTimestamp s = Some m ->
  length (ts_millis m) = 2 \/ (parseInt (ts_millis m) < 995)%Z ->
  let tok := normalizeTimestamp (ts_text m) in
  isToken tok
  /\ V.parseTimestampToMs tok = V.parseTimestampToMs (ts_text m)
  /\ normalizeTimestamp tok = tok.
Proof.
  intros H Hcase. cbn zeta.
  destruct (normalizeTimestamp_two_digits s m H Hcase)
    as [m' [Hm' [Htext [Hlen Hparse]]]].
  split; [|split; [exact Hparse|]].
  - exists (normalizeTimestamp (ts_text m)). unfold timestampAt.
    now rewrite Hm', <- Htext.
  - destruct (matchTimestamp_groups _ _ Hm')
      as [m1 [m2 [s1 [s2 [fr [rest [_ [E [Hl [Hmm [Hss Hfr]]]]]]]]]]].
    rewrite <- Htext, E. cbn [ts_text].
    rewrite E in Hlen. cbn [ts_millis] in Hlen.
    rewrite normalizeTimestamp_tokenText by assumption.
    destruct (normalizedFraction_spec fr Hl Hfr) as [_ [H2 _]].
    now rewrite (H2 Hlen).
Qed.

Lemma normalizeTimestamp_keeps_time_witness :
  normalizeTimestamp (lit "[01:02.345]") = lit "[01:02.35]"
  /\ V.parseTimestampToMs (lit "[01:02.35]")
     = V.parseTimestampToMs (lit "[01:02.345]").
Proof.
  destruct (normalizeTimestamp_keeps_time (lit "[01:02.345] la")
              (mkTs (lit "[01:02.345]") (lit "01") (lit "02") (lit "345")))
    as [_ [Hp _]];
    [vm_compute; reflexivity | right; vm_compute; reflexivity |].
  cbn [ts_text] in Hp. split; [vm_compute; reflexivity|].
  rewrite <- Hp. vm_compute. reflexivity.
Defined.

(** ** Which lines are timed *)

Lemma validateStep_timed (st : V.ValidateState) (rawLine : str) (index : nat) :
  V.timedLines (V.validateStep st rawLine index)
  = V.timedLines st ++ timedEntryOf index rawLine.
Proof.
  unfold V.validateStep, timedEntryOf.
  destruct (isEmpty (trim rawLine)); [cbn; now rewrite app_nil_r|].
  destruct (isMetadata (trim rawLine)); [cbn; now rewrite app_nil_r|].
  cbn [orb].
  destruct (0 <? length (map snd (scanFrom V.matchElrc 0 0 (trim rawLine))));
    destruct (map snd (scanTimestamps (trim rawLine))) as [|t1 [|t2 tss]];
    cbn [length Nat.eqb Nat.ltb Nat.leb V.timedLines hd];
    try (now rewrite app_nil_r);
    destruct (V.parseTimestampToMs t1) as [ms|] eqn:Ep;
    cbn [V.pushIssue V.timedLines]; try (now rewrite app_nil_r);
    (destruct (ms <? 0)%Z eqn:En;
     [ apply parseTimestampToMs_bounds in Ep; apply Z.ltb_lt in En; lia |]);
    cbn [V.seenTimestamps];
    destruct (_ !! ms); cbn [V.pushIssue V.vs_issues V.multiTimestampCount
      V.elrcCount V.timedLines V.seenTimestamps];
    destruct (negb (V.testSingleTimestamp (trim rawLine)));
    cbn [V.pushIssue V.timedLines]; reflexivity.
Qed.

Lemma forEachFrom_timed (lines : list str) :
  forall k st,
    V.timedLines (V.forEachFrom V.validateStep k lines st)
    = V.timedLines st ++ timedFrom k lines.
Proof.
  induction lines as [|l lines IH]; intros k st; cbn [V.forEachFrom timedFrom].
  - now rewrite app_nil_r.
  - now rewrite IH, validateStep_timed, <- app_assoc.
Qed.

(** X25. Which lines enter the ordering, gap and duplicate checks depends
    on each line alone: the timed lines are the lines, neither blank nor
    metadata, that hold exactly one timestamp token, numbered as in the
    content and with the time parsed from the token, whatever else is
    reported for them or for the lines before. *)
Theorem timed_lines_of_content (content : str) :
  V.timedLines (V.perLinePass content) = timedFrom 0 (split_nl content).
Proof. unfold V.perLinePass. now rewrite forEachFrom_timed. Qed.
